(** * TinyFileManager: a shallow embedding of [filesystem.c]

    The simulated Unix-style filesystem of [src/code source/filesystem.c]
    keeps one global [Filesystem] value.  Here every operation is a function
    from the state before the call to the value returned and the state after
    it.  Arrays are lists read and written by a C [int] index, C strings are
    [string]s (the characters before the terminator), the image file is a
    sparse map from byte offsets to byte values.

    Conventions of the embedding:
    - an [int] is a [Z]; every conversion between [size_t] and [int] that the
      source performs is written out ([to_size_t], [to_int]);
    - a list that stands for an array has the length of the array in every
      state the operations build; reading an array outside its bounds is
      undefined in C: for an index that is an argument of the call the
      embedding reads a fixed default there and ignores such a write, and the
      theorems say which indices they need in range; where the source
      follows an index that it has read from the state (the parent loop of
      [write_file], the path resolver, [changerRep]) an index outside the
      table gives no result, [None];
    - [time(NULL)] is the argument [now] of the operations that call it;
    - the log file and the messages on standard output are not part of the
      state; an operation that returns [void] yields a [report] telling
      whether it printed an error message. *)

From Stdlib Require Import ZArith String Ascii Bool Lia.
From stdpp Require Import base list strings gmap.

Local Open Scope Z_scope.

(** ** Constants of the source *)

Definition MAX_FILE_NAME : Z := 255.
Definition NUM_BLOCKS : Z := 1024.
Definition BLOCK_SIZE : Z := 512.
Definition NUM_INODES : Z := 256.
Definition NUM_DIRECTORY_ENTRIES : Z := 256.
Definition MAX_FILE_OPEN : Z := 64.

(** Sizes of the C objects on the LP64 data model the program is built for
    (it includes [sys/file.h] and [unistd.h]): 4-byte [int], 8-byte pointers
    and [time_t], natural alignment. *)

Definition sizeof_pointer : Z := 8.
Definition sizeof_Inode : Z := 3 * 4 + 4 + 2 * 8 + (3 + 1) + NUM_BLOCKS * 4 + 2 * 4 + 4.
Definition sizeof_DirectoryEntry : Z := MAX_FILE_NAME + 1 + 4.
Definition sizeof_Directory : Z := NUM_DIRECTORY_ENTRIES * sizeof_DirectoryEntry.
Definition sizeof_OpenFile : Z := 2 * 4.
Definition sizeof_Filesystem : Z :=
  2 * sizeof_pointer + NUM_INODES * sizeof_Inode + sizeof_Directory
  + NUM_INODES * sizeof_Directory + NUM_BLOCKS * 4 + 4
  + MAX_FILE_OPEN * sizeof_OpenFile + 4.

(** ** C integer conversions *)

Definition to_size_t (x : Z) : Z := x mod 2 ^ 64.
Definition to_int (x : Z) : Z := (x + 2 ^ 31) mod 2 ^ 32 - 2 ^ 31.

(** ** Arrays indexed by an [int] *)

Definition arr_get {A : Type} (d : A) (l : list A) (i : Z) : A :=
  if i <? 0 then d else default d (l !! Z.to_nat i).

Definition arr_set {A : Type} (l : list A) (i : Z) (x : A) : list A :=
  if i <? 0 then l else <[Z.to_nat i := x]> l.

(** ** C strings *)

Definition NUL : ascii := Ascii.zero.

(** [strncpy(dst, src, n)] seen as the [n] bytes it leaves in [dst]: the
    first [n] characters of [src], then NUL padding. *)
Fixpoint strncpy (n : nat) (src : string) : list ascii :=
  match n with
  | O => []
  | S n' =>
      match src with
      | EmptyString => NUL :: strncpy n' EmptyString
      | String c rest => c :: strncpy n' rest
      end
  end.

(** The same copy into a [filename] field, read back as a C string.  The
    field has [MAX_FILE_NAME] bytes and [strncpy] adds no terminator to a
    name that fills it; the byte after the field is the padding byte of
    [DirectoryEntry], zero in the static storage of [fs]. *)
Fixpoint strncpy_name (n : nat) (src : string) : string :=
  match n with
  | O => EmptyString
  | S n' =>
      match src with
      | EmptyString => EmptyString
      | String c rest => String c (strncpy_name n' rest)
      end
  end.

(** [strchr(s, c) != NULL] for a character [c] other than NUL, on a buffer
    whose bytes are [s] and which is followed by a zero byte (for
    [permissions] the padding byte before [blocks]). *)
Fixpoint strchr (s : list ascii) (c : ascii) : bool :=
  match s with
  | [] => false
  | a :: rest =>
      if Ascii.eqb a NUL then false
      else if Ascii.eqb a c then true
      else strchr rest c
  end.

(** [strcmp(a, b) == 0] *)
Definition strcmp0 (a b : string) : bool := String.eqb a b.

(** ** Data model *)

Record Inode := mkInode {
  id : Z;
  type : Z;                      (* 0 directory, 1 file, 2 symlink, -1 free *)
  size : Z;
  creation_time : Z;
  modification_time : Z;
  permissions : list ascii;      (* char permissions[3] *)
  blocks : list Z;               (* int blocks[NUM_BLOCKS] *)
  link_count : Z;
  inode_rep_parent : Z
}.

Record DirectoryEntry := mkEntry {
  filename : string;
  inode_index : Z
}.

Definition Directory : Type := list DirectoryEntry.

Record OpenFile := mkOpen {
  inode : Z;
  tete_lecture : Z
}.

(** The image behind [fs.file]: the bytes that were written ([data]; an
    offset below [len] that is absent holds 0, as the data region is zeroed
    when the image is formatted) and the length of the file. *)
Record Image := mkImage {
  data : gmap Z Z;
  len : Z;
  pos : Z                        (* the position indicator of the stream *)
}.

Record Filesystem := mkFs {
  file : Image;
  inodes : list Inode;
  root_dir : Directory;
  directories : list Directory;
  free_blocks : list Z;
  current_dir : Z;
  opened_file : list OpenFile
}.

Inductive report := Done | Erreur.

(** Zero-initialised objects, as in the static storage of [fs]. *)
Definition zero_entry : DirectoryEntry := mkEntry EmptyString 0.
Definition zero_inode : Inode :=
  mkInode 0 0 0 0 0 [NUL; NUL; NUL] (replicate (Z.to_nat NUM_BLOCKS) 0) 0 0.
Definition zero_open : OpenFile := mkOpen 0 0.
Definition zero_dir : Directory := replicate (Z.to_nat NUM_DIRECTORY_ENTRIES) zero_entry.

(** *** Field updates *)

Definition set_type (v : Z) (i : Inode) : Inode :=
  mkInode (id i) v (size i) (creation_time i) (modification_time i)
          (permissions i) (blocks i) (link_count i) (inode_rep_parent i).
Definition set_size (v : Z) (i : Inode) : Inode :=
  mkInode (id i) (type i) v (creation_time i) (modification_time i)
          (permissions i) (blocks i) (link_count i) (inode_rep_parent i).
Definition set_id (v : Z) (i : Inode) : Inode :=
  mkInode v (type i) (size i) (creation_time i) (modification_time i)
          (permissions i) (blocks i) (link_count i) (inode_rep_parent i).
Definition set_creation_time (v : Z) (i : Inode) : Inode :=
  mkInode (id i) (type i) (size i) v (modification_time i)
          (permissions i) (blocks i) (link_count i) (inode_rep_parent i).
Definition set_modification_time (v : Z) (i : Inode) : Inode :=
  mkInode (id i) (type i) (size i) (creation_time i) v
          (permissions i) (blocks i) (link_count i) (inode_rep_parent i).
Definition set_permissions (v : list ascii) (i : Inode) : Inode :=
  mkInode (id i) (type i) (size i) (creation_time i) (modification_time i)
          v (blocks i) (link_count i) (inode_rep_parent i).
Definition set_blocks (v : list Z) (i : Inode) : Inode :=
  mkInode (id i) (type i) (size i) (creation_time i) (modification_time i)
          (permissions i) v (link_count i) (inode_rep_parent i).
Definition set_link_count (v : Z) (i : Inode) : Inode :=
  mkInode (id i) (type i) (size i) (creation_time i) (modification_time i)
          (permissions i) (blocks i) v (inode_rep_parent i).
Definition set_inode_rep_parent (v : Z) (i : Inode) : Inode :=
  mkInode (id i) (type i) (size i) (creation_time i) (modification_time i)
          (permissions i) (blocks i) (link_count i) v.

Definition with_file (v : Image) (fs : Filesystem) : Filesystem :=
  mkFs v (inodes fs) (root_dir fs) (directories fs) (free_blocks fs)
       (current_dir fs) (opened_file fs).
Definition with_inodes (v : list Inode) (fs : Filesystem) : Filesystem :=
  mkFs (file fs) v (root_dir fs) (directories fs) (free_blocks fs)
       (current_dir fs) (opened_file fs).
Definition with_root_dir (v : Directory) (fs : Filesystem) : Filesystem :=
  mkFs (file fs) (inodes fs) v (directories fs) (free_blocks fs)
       (current_dir fs) (opened_file fs).
Definition with_directories (v : list Directory) (fs : Filesystem) : Filesystem :=
  mkFs (file fs) (inodes fs) (root_dir fs) v (free_blocks fs)
       (current_dir fs) (opened_file fs).
Definition with_free_blocks (v : list Z) (fs : Filesystem) : Filesystem :=
  mkFs (file fs) (inodes fs) (root_dir fs) (directories fs) v
       (current_dir fs) (opened_file fs).
Definition with_current_dir (v : Z) (fs : Filesystem) : Filesystem :=
  mkFs (file fs) (inodes fs) (root_dir fs) (directories fs) (free_blocks fs)
       v (opened_file fs).
Definition with_opened_file (v : list OpenFile) (fs : Filesystem) : Filesystem :=
  mkFs (file fs) (inodes fs) (root_dir fs) (directories fs) (free_blocks fs)
       (current_dir fs) v.

(** [fs.inodes[i]], [fs.directories[i]], [fs.opened_file[i]] and the
    assignment through such an lvalue. *)
Definition inode_at (fs : Filesystem) (i : Z) : Inode := arr_get zero_inode (inodes fs) i.
Definition dir_at (fs : Filesystem) (i : Z) : Directory := arr_get zero_dir (directories fs) i.
Definition open_at (fs : Filesystem) (i : Z) : OpenFile := arr_get zero_open (opened_file fs) i.

(** An index of [fs.inodes] and of [fs.directories], which have
    [NUM_INODES] elements each.  Where the source follows an index that it
    has read from the state ([inode_rep_parent], the inode reached by a
    path) without testing it, an index outside the table makes the C program
    read or write outside the array: it has no defined behaviour there, and
    the functions below give no result ([None]). *)
Definition in_table (i : Z) : bool := (0 <=? i) && (i <? NUM_INODES).

Definition upd_inode (i : Z) (f : Inode -> Inode) (fs : Filesystem) : Filesystem :=
  with_inodes (arr_set (inodes fs) i (f (inode_at fs i))) fs.
Definition upd_dir (i : Z) (f : Directory -> Directory) (fs : Filesystem) : Filesystem :=
  with_directories (arr_set (directories fs) i (f (dir_at fs i))) fs.
Definition upd_open (i : Z) (f : OpenFile -> OpenFile) (fs : Filesystem) : Filesystem :=
  with_opened_file (arr_set (opened_file fs) i (f (open_at fs i))) fs.

(** [dir->entries[k]] and the two stores
    [strncpy(dir->entries[k].filename, name, MAX_FILE_NAME);
     dir->entries[k].inode_index = ino;] that fill a slot. *)
Definition entry_at (d : Directory) (k : Z) : DirectoryEntry := arr_get zero_entry d k.
Definition fill_entry (k : Z) (name : string) (ino : Z) (d : Directory) : Directory :=
  arr_set d k (mkEntry (strncpy_name (Z.to_nat MAX_FILE_NAME) name) ino).

(** ** Block allocator *)

(** The scan of [allocate_block]: the first index holding 0. *)
Fixpoint first_zero (l : list Z) (i : Z) : Z :=
  match l with
  | [] => -1
  | b :: rest => if b =? 0 then i else first_zero rest (i + 1)
  end.

Definition allocate_block (fs : Filesystem) : Z * Filesystem :=
  let i := first_zero (take (Z.to_nat NUM_BLOCKS) (free_blocks fs)) 0 in
  if i =? -1 then (-1, fs)
  else (i, with_free_blocks (arr_set (free_blocks fs) i 1) fs).

Definition free_block (block_index : Z) (fs : Filesystem) : Filesystem :=
  if (0 <=? block_index) && (block_index <? NUM_BLOCKS)
  then with_free_blocks (arr_set (free_blocks fs) block_index 0) fs
  else fs.

(** ** Directory table *)

(** [rechInode]: the inode of the first entry whose name equals [name] and
    whose inode is not -1 (the loop goes on while [inode == -1]). *)
Fixpoint rechInode_from (name : string) (entries : list DirectoryEntry) : Z :=
  match entries with
  | [] => -1
  | e :: rest =>
      if strcmp0 name (filename e) && negb (inode_index e =? -1)
      then inode_index e
      else rechInode_from name rest
  end.

Definition rechInode (name : string) (dir : Directory) : Z :=
  rechInode_from name (take (Z.to_nat NUM_DIRECTORY_ENTRIES) dir).

(** [rechEntree]: the index of the first entry whose inode is -1. *)
Fixpoint rechEntree_from (entries : list DirectoryEntry) (i : Z) : Z :=
  match entries with
  | [] => -1
  | e :: rest => if inode_index e =? -1 then i else rechEntree_from rest (i + 1)
  end.

Definition rechEntree (fs : Filesystem) (dir_inode : Z) : Z :=
  rechEntree_from (take (Z.to_nat NUM_DIRECTORY_ENTRIES) (dir_at fs dir_inode)) 0.

(** The scan used by every creation: the first inode with [size == -1]. *)
Fixpoint first_free_inode (l : list Inode) (i : Z) : Z :=
  match l with
  | [] => -1
  | n :: rest => if size n =? -1 then i else first_free_inode rest (i + 1)
  end.

(** ** Permissions *)

Definition has_permission (fs : Filesystem) (inode_index : Z) (perm : ascii) : Z :=
  if (inode_index <? 0) || (inode_index >=? NUM_INODES) then 0
  else
    let p := permissions (inode_at fs inode_index) in
    if Ascii.eqb perm "r" && strchr p "r" then 1
    else if Ascii.eqb perm "w" && strchr p "w" then 1
    else if Ascii.eqb perm "x" && strchr p "x" then 1
    else 0.

(** ** Image store: the four stdio calls the stream layer uses *)

(** [fseek(fs.file, offset, SEEK_SET)]; a negative offset is refused and
    leaves the position where it was. *)
Definition fseek_set (offset : Z) (f : Image) : Image :=
  if offset <? 0 then f else mkImage (data f) (len f) offset.

(** [fseek(fs.file, offset, SEEK_CUR)] *)
Definition fseek_cur (offset : Z) (f : Image) : Image :=
  if pos f + offset <? 0 then f else mkImage (data f) (len f) (pos f + offset).

(** [fread(buf, 1, 1, fs.file)]: at the end of the file nothing is read and
    the buffer keeps what it held. *)
Definition fread1 (f : Image) : option Z * Image :=
  if pos f <? len f
  then (Some (default 0 (data f !! pos f)), mkImage (data f) (len f) (pos f + 1))
  else (None, f).

(** [fwrite(buf, 1, 1, fs.file)] *)
Definition fwrite1 (c : Z) (f : Image) : Image :=
  mkImage (<[pos f := c]> (data f)) (Z.max (len f) (pos f + 1)) (pos f + 1).

(** The first byte of data block [nb] and the first byte after it, as the
    [size_t] expressions [sizeof(Filesystem) + nb*BLOCK_SIZE] and
    [sizeof(Filesystem) + (nb+1)*BLOCK_SIZE] of the source. *)
Definition block_start (nb : Z) : Z := to_size_t (sizeof_Filesystem + nb * BLOCK_SIZE).
Definition block_end (nb : Z) : Z := to_size_t (sizeof_Filesystem + (nb + 1) * BLOCK_SIZE).

(** [sizeof(Filesystem) + nb*BLOCK_SIZE <= lecteur
     && lecteur < sizeof(Filesystem) + (nb+1)*BLOCK_SIZE],
    compared as [size_t]. *)
Definition in_block (nb lecteur : Z) : bool :=
  (block_start nb <=? to_size_t lecteur) && (to_size_t lecteur <? block_end nb).

(** ** Path resolver *)

(** [strtok(s, "/")]: skip the delimiters, cut the token at the next
    delimiter, keep what follows for the next call. *)
Fixpoint skip_delim (s : string) : string :=
  match s with
  | EmptyString => EmptyString
  | String c rest => if Ascii.eqb c "/" then skip_delim rest else s
  end.

Fixpoint take_token (s : string) : string * string :=
  match s with
  | EmptyString => (EmptyString, EmptyString)
  | String c rest =>
      if Ascii.eqb c "/" then (EmptyString, rest)
      else let '(t, r) := take_token rest in (String c t, r)
  end.

Definition strtok (s : string) : option (string * string) :=
  match skip_delim s with
  | EmptyString => None
  | s' => Some (take_token s')
  end.

(** The [while (token != NULL)] loop.  Every call of [strtok] consumes at
    least one character, so [fuel] above the length of the string is never
    used up.  A token other than [.] reads [fs.inodes[inode]] or
    [fs.directories[inode]]: when [inode] is outside the table (it is -1
    after [..] from a free inode) the walk has no defined result, [None]. *)
Fixpoint walk_path (fuel : nat) (fs : Filesystem) (s : string) (ino : Z) : option Z :=
  match fuel with
  | O => Some ino
  | S fuel' =>
      match strtok s with
      | None => Some ino
      | Some (token, rest) =>
          if strcmp0 token "." then walk_path fuel' fs rest ino
          else if negb (in_table ino) then None
          else if strcmp0 token ".."
          then walk_path fuel' fs rest (inode_rep_parent (inode_at fs ino))
          else
            let foundInode := rechInode token (dir_at fs ino) in
            if foundInode =? -1 then Some (-1)
            else walk_path fuel' fs rest foundInode
      end
  end.

Definition get_inode_from_path (path : string) (current_dir : Z) (fs : Filesystem)
    : option Z :=
  let ino := match path with
             | String c _ => if Ascii.eqb c "/" then 0 else current_dir
             | EmptyString => current_dir
             end in
  let tempPath := strncpy_name 1023 path in
  walk_path (S (String.length tempPath)) fs tempPath ino.

(** ** Namespace operations *)

(** The removal loop shared by [delete_file], [delete_directory],
    [move_directory] and [move_file]: clear the first entry that holds
    [ino] under the name [name]. *)
Fixpoint remove_entry (name : string) (ino : Z) (d : Directory) : Directory :=
  match d with
  | [] => []
  | e :: rest =>
      if (inode_index e =? ino) && strcmp0 name (filename e)
      then mkEntry EmptyString (-1) :: rest
      else e :: remove_entry name ino rest
  end.

(** [for (i...) if (inode->blocks[i] != -1) { free_block(inode->blocks[i]);
    inode->blocks[i] = -1; }] *)
Definition release_blocks (ino : Z) (fs : Filesystem) : Filesystem :=
  let bl := blocks (inode_at fs ino) in
  let fs1 := foldl (fun acc b => if b =? -1 then acc else free_block b acc) fs bl in
  upd_inode ino (set_blocks (map (fun b => if b =? -1 then b else -1) bl)) fs1.

(** A counted loop whose body may fail to return. *)
Fixpoint for_loop (n : nat) (i : Z) (body : Z -> Filesystem -> option Filesystem)
    (fs : Filesystem) : option Filesystem :=
  match n with
  | O => Some fs
  | S n' =>
      match body i fs with
      | None => None
      | Some fs' => for_loop n' (i + 1) body fs'
      end
  end.

Section Clock.

(** The value [time(NULL)] returns during the call. *)
Variable now : Z.

Definition create_file (name perms : string) (dir_inode : Z) (fs : Filesystem)
    : Z * Filesystem :=
  if has_permission fs dir_inode "w" =? 0 then (-1, fs)
  else if negb (rechInode name (dir_at fs dir_inode) =? -1) then (-1, fs)
  else
    let inode_index := first_free_inode (take (Z.to_nat NUM_INODES) (inodes fs)) 0 in
    if inode_index =? -1 then (-1, fs)
    else
      let fs1 := upd_inode inode_index (set_size 0) fs in
      let '(block, fs2) := allocate_block fs1 in
      if block =? -1 then (-1, upd_inode inode_index (set_size (-1)) fs2)
      else
        let index_rep := rechEntree fs2 dir_inode in
        if index_rep =? -1
        then (-1, upd_inode inode_index (set_size (-1)) (free_block block fs2))
        else
          let fs3 := upd_dir dir_inode (fill_entry index_rep name inode_index) fs2 in
          (inode_index,
           upd_inode inode_index
             (fun n => set_permissions (strncpy 3 perms)
                        (set_inode_rep_parent dir_inode
                          (set_modification_time now
                            (set_creation_time now
                              (set_type 1
                                (set_blocks (arr_set (blocks n) 0 block) n))))))
             fs3).

Definition delete_file (name : string) (dir_inode : Z) (fs : Filesystem)
    : report * Filesystem :=
  let inode_index := rechInode name (dir_at fs dir_inode) in
  if inode_index =? -1 then (Erreur, fs)
  else if negb (type (inode_at fs inode_index) =? 1)
          && negb (type (inode_at fs inode_index) =? 2) then (Erreur, fs)
  else
    let fs1 := release_blocks inode_index fs in
    let fs2 := upd_inode inode_index
                 (fun n => set_inode_rep_parent (-1)
                            (set_link_count 0
                              (set_modification_time now
                                (set_creation_time now
                                  (set_type (-1) (set_size (-1) n)))))) fs1 in
    (Done, upd_dir dir_inode (remove_entry name inode_index) fs2).

(** [delete_directory] calls itself on the sub-directories; [fuel] bounds
    the depth of these calls and [None] says that it was not enough. *)
Fixpoint delete_directory (fuel : nat) (dirname : string) (parent_dir : Z)
    (fs : Filesystem) : option (Z * Filesystem) :=
  match fuel with
  | O => None
  | S fuel' =>
      let dir_inode := rechInode dirname (dir_at fs parent_dir) in
      if dir_inode =? -1 then Some (-1, fs)
      else if negb (type (inode_at fs dir_inode) =? 0) then Some (-1, fs)
      else if has_permission fs dir_inode "w" =? 0 then Some (-1, fs)
      else
        let body (i : Z) (s : Filesystem) : option Filesystem :=
          let e := entry_at (dir_at s dir_inode) i in
          if inode_index e =? -1 then Some s
          else
            let child := inode_index e in
            let after_dir :=
              if type (inode_at s child) =? 0
              then option_map snd (delete_directory fuel' (filename e) dir_inode s)
              else Some s in
            match after_dir with
            | None => None
            | Some s1 =>
                if (type (inode_at s1 child) =? 1) || (type (inode_at s1 child) =? 2)
                then Some (snd (delete_file
                                  (filename (entry_at (dir_at s1 dir_inode) i))
                                  dir_inode s1))
                else Some s1
            end in
        match for_loop (Z.to_nat NUM_DIRECTORY_ENTRIES) 0 body fs with
        | None => None
        | Some fs1 =>
            let fs2 := upd_dir parent_dir (remove_entry dirname dir_inode) fs1 in
            let fs3 := upd_inode dir_inode
                         (fun n => set_link_count 0
                                    (set_inode_rep_parent (-1)
                                      (set_modification_time now
                                        (set_creation_time now
                                          (set_type (-1) (set_size (-1) n)))))) fs2 in
            Some (0, release_blocks dir_inode fs3)
        end
  end.

Definition create_directory (dirname : string) (inode_dir : Z) (fs : Filesystem)
    : Z * Filesystem :=
  let inode_index := first_free_inode (take (Z.to_nat NUM_INODES) (inodes fs)) 0 in
  if inode_index =? -1 then (-1, fs)
  else if negb (rechInode dirname (dir_at fs inode_dir) =? -1) then (-1, fs)
  else
    let index := rechEntree fs inode_dir in
    if index =? -1 then (-1, fs)
    else
      let fs1 := upd_inode inode_index
                   (fun n => set_blocks (replicate (Z.to_nat NUM_BLOCKS) (-1))
                              (set_link_count 1
                                (set_permissions (strncpy 3 "rwx")
                                  (set_modification_time now
                                    (set_creation_time now
                                      (set_inode_rep_parent inode_dir
                                        (set_type 0 (set_size 0 n)))))))) fs in
      let fs2 := upd_dir inode_index
                   (fun _ => replicate (Z.to_nat NUM_DIRECTORY_ENTRIES)
                                       (mkEntry EmptyString (-1))) fs1 in
      (inode_index, upd_dir inode_dir (fill_entry index dirname inode_index) fs2).

Definition move_directory (srcDirName : string) (srcParentDir dstParentDir : Z)
    (fs : Filesystem) : Z * Filesystem :=
  let srcDirInode := rechInode srcDirName (dir_at fs srcParentDir) in
  if srcDirInode =? -1 then (-1, fs)
  else if negb (type (inode_at fs srcDirInode) =? 0) then (-1, fs)
  else if has_permission fs srcParentDir "w" =? 0 then (-1, fs)
  else if negb (rechInode srcDirName (dir_at fs dstParentDir) =? -1) then (-1, fs)
  else if has_permission fs dstParentDir "w" =? 0 then (-1, fs)
  else
    let dstIndex := rechEntree fs dstParentDir in
    if dstIndex =? -1 then (-1, fs)
    else
      let fs1 := upd_dir dstParentDir (fill_entry dstIndex srcDirName srcDirInode) fs in
      let fs2 := upd_dir srcParentDir (remove_entry srcDirName srcDirInode) fs1 in
      (0, upd_inode srcDirInode
            (fun n => set_modification_time now (set_inode_rep_parent dstParentDir n))
            fs2).

Definition create_hard_link (link_name name : string)
    (inode_dir_source inode_dir_target : Z) (fs : Filesystem) : Z * Filesystem :=
  let inode_index := rechInode name (dir_at fs inode_dir_source) in
  if inode_index =? -1 then (-1, fs)
  else if negb (rechInode link_name (dir_at fs inode_dir_target) =? -1) then (-1, fs)
  else
    let index := rechEntree fs inode_dir_target in
    if index =? -1 then (-1, fs)
    else
      let fs1 := upd_dir inode_dir_target (fill_entry index link_name inode_index) fs in
      (0, upd_inode inode_index (fun n => set_link_count (link_count n + 1) n) fs1).

Definition move_file (name : string) (inode_dir_source inode_dir_target : Z)
    (fs : Filesystem) : report * Filesystem :=
  let inode_index := rechInode name (dir_at fs inode_dir_source) in
  if inode_index =? -1 then (Erreur, fs)
  else if has_permission fs inode_dir_source "w" =? 0 then (Erreur, fs)
  else if negb (rechInode name (dir_at fs inode_dir_target) =? -1) then (Erreur, fs)
  else if has_permission fs inode_dir_target "w" =? 0 then (Erreur, fs)
  else
    let index := rechEntree fs inode_dir_target in
    if index =? -1 then (Erreur, fs)
    else
      let fs1 := upd_dir inode_dir_target (fill_entry index name inode_index) fs in
      let fs2 := upd_dir inode_dir_source (remove_entry name inode_index) fs1 in
      (Done, upd_inode inode_index (set_modification_time now) fs2).

Definition change_permissions (name newPerms : string) (dir_inode : Z)
    (fs : Filesystem) : Z * Filesystem :=
  let i := rechInode name (dir_at fs dir_inode) in
  if i =? -1 then (-1, fs)
  else
    (0, upd_inode i (fun n => set_modification_time now
                                (set_permissions (strncpy 3 newPerms) n)) fs).

(** The bytes of [targetPath] and its terminator, each written after an
    [fseek] to [sizeof(Filesystem) + blockIndex*BLOCK_SIZE + i]. *)
Fixpoint write_string_at (blockIndex i : Z) (s : string) (f : Image) : Image :=
  let at_i := fseek_set (to_size_t (sizeof_Filesystem + blockIndex * BLOCK_SIZE + i)) f in
  match s with
  | EmptyString => fwrite1 0 at_i
  | String c rest =>
      write_string_at blockIndex (i + 1) rest (fwrite1 (Z.of_N (N_of_ascii c)) at_i)
  end.

(** [create_symbolic_link] resolves the target path first; it has a result
    when the resolver has one. *)
Definition create_symbolic_link (linkName targetPath : string) (parentDir : Z)
    (fs : Filesystem) : option (Z * Filesystem) :=
  if negb (rechInode linkName (dir_at fs parentDir) =? -1) then Some (-1, fs)
  else
  match get_inode_from_path targetPath parentDir fs with
  | None => None
  | Some path_inode =>
  if path_inode =? -1 then Some (-1, fs)
  else
    let symlinkInode := first_free_inode (take (Z.to_nat NUM_INODES) (inodes fs)) 0 in
    if symlinkInode =? -1 then Some (-1, fs)
    else
      let dirIndex := rechEntree fs parentDir in
      if dirIndex =? -1 then Some (-1, fs)
      else
        let '(blockIndex, fs1) := allocate_block fs in
        if blockIndex =? -1 then Some (-1, fs1)
        else
          let fs2 := upd_inode symlinkInode
                       (fun n => set_blocks
                                   (arr_set (replicate (Z.to_nat NUM_BLOCKS) (-1)) 0 blockIndex)
                                  (set_permissions (strncpy 3 "rwx")
                                    (set_link_count 1
                                      (set_inode_rep_parent parentDir
                                        (set_modification_time now
                                          (set_creation_time now
                                            (set_type 2
                                              (* sizeof(targetPath)+1, [targetPath] a pointer *)
                                              (set_size (to_int (sizeof_pointer + 1)) n))))))))
                       fs1 in
          let fs3 := with_file (write_string_at blockIndex 0 targetPath (file fs2)) fs2 in
          Some (symlinkInode,
                upd_dir parentDir (fill_entry dirIndex linkName symlinkInode) fs3)
  end.

(** [init_filesystem].  [fs] is the storage before the call, of which the
    function leaves some parts as they are; [i0] is the value the
    uninitialised counter of the open-file loop happens to hold. *)
Definition init_filesystem (i0 : Z) (fs : Filesystem) : Filesystem :=
  let free_inode (i : Z) : Inode :=
    mkInode i (-1) (-1) now now [NUL; NUL; NUL]
            (replicate (Z.to_nat NUM_BLOCKS) (-1)) 0 (-1) in
  let empty : DirectoryEntry := mkEntry EmptyString (-1) in
  (* entries 1.. of every directory record; entry 0 is not touched *)
  let dirs := map (fun d => take 1 d
                            ++ replicate (Z.to_nat NUM_DIRECTORY_ENTRIES - 1) empty)
                  (directories fs) in
  let opened := imap (fun k o => if i0 <=? Z.of_nat k then mkOpen (-1) (-1) else o)
                     (opened_file fs) in
  (* the data region is written with zero bytes, then the file is reopened *)
  let img := mkImage ∅ (sizeof_Filesystem + NUM_BLOCKS * BLOCK_SIZE) 0 in
  let root := replicate (Z.to_nat NUM_DIRECTORY_ENTRIES) empty in
  let ino := map free_inode (seqZ 0 NUM_INODES) in
  let fs1 := mkFs img ino root (arr_set dirs 0 root)
                  (replicate (Z.to_nat NUM_BLOCKS) 0) 0 opened in
  upd_inode 0 (fun n => set_permissions (strncpy 3 "rwx")
                          (set_inode_rep_parent 0
                            (set_modification_time now
                              (set_creation_time now
                                (set_type 0 (set_size 0 n)))))) fs1.

End Clock.

(** The static storage of [fs] when the program starts. *)
Definition zero_fs : Filesystem :=
  mkFs (mkImage ∅ 0 0)
       (replicate (Z.to_nat NUM_INODES) zero_inode)
       zero_dir
       (replicate (Z.to_nat NUM_INODES) zero_dir)
       (replicate (Z.to_nat NUM_BLOCKS) 0)
       0
       (replicate (Z.to_nat MAX_FILE_OPEN) zero_open).

(** ** Stream layer *)

Fixpoint first_free_slot (l : list OpenFile) (i : Z) : Z :=
  match l with
  | [] => -1
  | o :: rest => if inode o =? -1 then i else first_free_slot rest (i + 1)
  end.

Definition open_file (name : string) (dir_inode : Z) (fs : Filesystem) : Z * Filesystem :=
  let ino := rechInode name (dir_at fs dir_inode) in
  if ino =? -1 then (-1, fs)
  else if negb (type (inode_at fs ino) =? 1) && negb (type (inode_at fs ino) =? 2)
  then (-1, fs)
  else
    let desc := first_free_slot (take (Z.to_nat MAX_FILE_OPEN) (opened_file fs)) 0 in
    if desc =? -1 then (-1, fs)
    else
      (desc,
       upd_open desc
         (fun _ => mkOpen ino
                     (to_int (block_start (arr_get (-1) (blocks (inode_at fs ino)) 0))))
         fs).

(** The test that opens [write_file], [read_file], [seek_file] and
    [close_file]. *)
Definition bad_descriptor (fs : Filesystem) (desc : Z) : bool :=
  (desc >? MAX_FILE_OPEN) || (desc <? 0) || (inode (open_at fs desc) =? -1).

Definition close_file (desc : Z) (fs : Filesystem) : report * Filesystem :=
  if bad_descriptor fs desc then (Erreur, fs)
  else (Done, upd_open desc (fun _ => mkOpen (-1) (-1)) fs).

(** The search of the block of the inode that holds the cursor: the index
    in [blocks] and the block number, or index -1. *)
Fixpoint find_block (bl : list Z) (i : Z) (lecteur : Z) (num_block : Z) : Z * Z :=
  match bl with
  | [] => (-1, num_block)
  | nb :: rest =>
      if in_block nb lecteur then (i, nb)
      else find_block rest (i + 1) lecteur nb
  end.

(** *** write_file *)

Record wstate := mkW {
  w_fs : Filesystem;
  w_lecteur : Z;
  w_j : Z;
  w_maj : Z;                     (* maj_size *)
  w_tmp : Z                      (* texte_tmp[0] *)
}.

(** One turn of the writing loops: probe the byte under the cursor, count
    it and grow the file when the probe holds zero, then write. *)
Definition write_step (ino : Z) (texte : list Z) (st : wstate) : wstate :=
  let f0 := fseek_set (w_lecteur st) (file (w_fs st)) in
  let '(r, f1) := fread1 f0 in
  let tmp := match r with Some c => c | None => w_tmp st end in
  let f2 := fseek_cur (-1) f1 in
  let fs1 := if tmp =? 0
             then upd_inode ino (fun n => set_size (size n + 1) n) (w_fs st)
             else w_fs st in
  let f3 := fwrite1 (arr_get 0 texte (w_j st)) f2 in
  mkW (with_file f3 fs1) (w_lecteur st + 1) (w_j st + 1)
      (if tmp =? 0 then w_maj st + 1 else w_maj st) tmp.

(** [while (j<size && lecteur <= sizeof(Filesystem) + (num_block+1)*BLOCK_SIZE)];
    [j] grows at every turn, so [size - j] turns are enough. *)
Fixpoint write_loop (n : nat) (ino : Z) (texte : list Z) (size num_block : Z)
    (st : wstate) : wstate :=
  match n with
  | O => st
  | S n' =>
      if (w_j st <? size) && (to_size_t (w_lecteur st) <=? block_end num_block)
      then write_loop n' ino texte size num_block (write_step ino texte st)
      else st
  end.

(** [while (j<size && !stop)]: go to the next entry of [blocks], allocate
    a block when the entry is -1, write into it.  [block_index] grows at
    every turn; after [NUM_BLOCKS] turns it is outside [blocks]. *)
Fixpoint write_blocks (n : nat) (ino : Z) (texte : list Z) (size block_index : Z)
    (st : wstate) : wstate :=
  match n with
  | O => st
  | S n' =>
      if w_j st <? size then
        let block_index := block_index + 1 in
        let nb0 := arr_get (-1) (blocks (inode_at (w_fs st) ino)) block_index in
        let '(num_block, fs1) :=
          if nb0 =? -1 then
            let '(b, fsa) := allocate_block (w_fs st) in
            (b, upd_inode ino (fun n => set_blocks (arr_set (blocks n) block_index b) n) fsa)
          else (nb0, w_fs st) in
        if num_block =? -1
        then mkW fs1 (w_lecteur st) (w_j st) (w_maj st) (w_tmp st)
        else
          let st1 := mkW fs1 (to_int (block_start num_block))
                         (w_j st) (w_maj st) (w_tmp st) in
          write_blocks n' ino texte size block_index
            (write_loop (Z.to_nat (size - w_j st1)) ino texte size num_block st1)
      else st
  end.

(** [while (id_rep_parent != 0)]: the loop that adds [maj_size] to the
    size of the parents.  Each turn reads [fs.inodes[id_rep_parent]] and
    writes the size of the parent found there.  The loop has no result,
    [None], when the chain of [inode_rep_parent] misses inode 0: either it
    leaves the table (the parent of a free inode is -1, and the program
    then indexes [fs.inodes] outside the array), or it stays in the table
    and the loop does not end ([n] turns, [NUM_INODES] of them, show it). *)
Fixpoint update_parents (n : nat) (id_rep_parent maj_size : Z) (fs : Filesystem)
    : option Filesystem :=
  if id_rep_parent =? 0 then Some fs
  else
    match n with
    | O => None
    | S n' =>
        let p := inode_rep_parent (inode_at fs id_rep_parent) in
        if in_table id_rep_parent && in_table p
        then update_parents n' p maj_size
               (upd_inode p (fun n => set_size (size n + maj_size) n) fs)
        else None
    end.

Definition write_file (desc : Z) (texte : list Z) (size : Z) (fs : Filesystem)
    : option (Z * Filesystem) :=
  if bad_descriptor fs desc then Some (-1, fs)
  else if size <? 0 then Some (-1, fs)
  else
    let ino := inode (open_at fs desc) in
    if has_permission fs ino "w" =? 0 then Some (-1, fs)
    else if negb (type (inode_at fs ino) =? 1) then Some (-1, fs)
    else
      let lecteur := tete_lecture (open_at fs desc) in
      let '(block_index, num_block) :=
        find_block (take (Z.to_nat NUM_BLOCKS) (blocks (inode_at fs ino))) 0 lecteur 0 in
      if block_index =? -1 then Some (-1, fs)
      else
        let st1 := write_loop (Z.to_nat size) ino texte size num_block
                              (mkW fs lecteur 0 0 0) in
        let st2 := write_blocks (Z.to_nat NUM_BLOCKS) ino texte size block_index st1 in
        match update_parents (Z.to_nat NUM_INODES) ino (w_maj st2) (w_fs st2) with
        | None => None
        | Some fs' =>
            Some (w_maj st2,
                  upd_open desc (fun o => mkOpen (inode o) (w_lecteur st2)) fs')
        end.

(** *** read_file *)

Record rstate := mkR {
  r_file : Image;
  r_lecteur : Z;
  r_j : Z;
  r_texte : list Z               (* the caller's buffer *)
}.

Definition read_step (st : rstate) : rstate :=
  let '(r, f1) := fread1 (fseek_set (r_lecteur st) (r_file st)) in
  mkR f1 (r_lecteur st + 1) (r_j st + 1)
      (match r with
       | Some c => arr_set (r_texte st) (r_j st) c
       | None => r_texte st
       end).

Fixpoint read_loop (n : nat) (size num_block : Z) (st : rstate) : rstate :=
  match n with
  | O => st
  | S n' =>
      if (r_j st <? size) && (to_size_t (r_lecteur st) <=? block_end num_block)
      then read_loop n' size num_block (read_step st)
      else st
  end.

(** [while (j<size && !stop)] of [read_file]; the report is [Erreur] when
    the loop stops on an entry -1 of [blocks]. *)
Fixpoint read_blocks (n : nat) (bl : list Z) (size block_index : Z) (st : rstate)
    : report * rstate :=
  match n with
  | O => (Done, st)
  | S n' =>
      if r_j st <? size then
        let block_index := block_index + 1 in
        let num_block := arr_get (-1) bl block_index in
        if num_block =? -1 then (Erreur, st)
        else
          let st1 := mkR (r_file st) (to_int (block_start num_block))
                         (r_j st) (r_texte st) in
          read_blocks n' bl size block_index
            (read_loop (Z.to_nat (size - r_j st1)) size num_block st1)
      else (Done, st)
  end.

Definition read_file (desc : Z) (texte : list Z) (size : Z) (fs : Filesystem)
    : report * list Z * Filesystem :=
  if bad_descriptor fs desc then (Erreur, texte, fs)
  else if size <? 0 then (Erreur, texte, fs)
  else
    let ino := inode (open_at fs desc) in
    if negb (type (inode_at fs ino) =? 1) && negb (type (inode_at fs ino) =? 2)
    then (Erreur, texte, fs)
    else if has_permission fs ino "r" =? 0 then (Erreur, texte, fs)
    else
      let lecteur := tete_lecture (open_at fs desc) in
      let bl := blocks (inode_at fs ino) in
      let '(block_index, num_block) :=
        find_block (take (Z.to_nat NUM_BLOCKS) bl) 0 lecteur 0 in
      let '(rep, st) :=
        if block_index =? -1 then (Erreur, mkR (file fs) lecteur 0 texte)
        else
          read_blocks (Z.to_nat NUM_BLOCKS) bl size block_index
            (read_loop (Z.to_nat size) size num_block (mkR (file fs) lecteur 0 texte)) in
      (rep, arr_set (r_texte st) size 0,
       upd_open desc (fun o => mkOpen (inode o) (r_lecteur st)) (with_file (r_file st) fs)).

(** *** seek_file *)

(** [while (j<offset && lecteur <= sizeof(Filesystem) + (num_block+1)*BLOCK_SIZE)
     { j++; lecteur++; }] on the pair (lecteur, j). *)
Fixpoint seek_loop (n : nat) (offset num_block : Z) (st : Z * Z) : Z * Z :=
  match n with
  | O => st
  | S n' =>
      let '(lecteur, j) := st in
      if (j <? offset) && (to_size_t lecteur <=? block_end num_block)
      then seek_loop n' offset num_block (lecteur + 1, j + 1)
      else st
  end.

(** The loop [while (j<offset && !stop)] that the three branches of
    [seek_file] share word for word: take the block at [block_index], fail
    if it is -1, else restart at the first byte of the block and advance;
    then move to the next index. *)
Fixpoint seek_blocks (n : nat) (bl : list Z) (offset block_index : Z) (st : Z * Z)
    : report * (Z * Z) :=
  match n with
  | O => (Done, st)
  | S n' =>
      if snd st <? offset then
        let num_block := arr_get (-1) bl block_index in
        if num_block =? -1 then (Erreur, st)
        else
          seek_blocks n' bl offset (block_index + 1)
            (seek_loop (Z.to_nat (offset - snd st)) offset num_block
                       (to_int (block_start num_block), snd st))
      else (Done, st)
  end.

Definition seek_file (desc offset whence : Z) (fs : Filesystem) : report * Filesystem :=
  if bad_descriptor fs desc then (Erreur, fs)
  else if offset <? 0 then (Erreur, fs)
  else
    let ino := inode (open_at fs desc) in
    let bl := blocks (inode_at fs ino) in
    let start := to_int (block_start (arr_get (-1) bl 0)) in
    let set_cursor (v : Z) := upd_open desc (fun o => mkOpen (inode o) v) fs in
    if whence =? 0 then
      let '(rep, (lecteur, _)) :=
        seek_blocks (Z.to_nat NUM_BLOCKS + 1) bl offset 0 (start, 0) in
      (rep, set_cursor lecteur)
    else if whence =? 2 then
      let lecteur0 := tete_lecture (open_at fs desc) in
      let '(block_index, _) := find_block (take (Z.to_nat NUM_BLOCKS) bl) 0 lecteur0 0 in
      let '(rep, (lecteur, _)) :=
        seek_blocks (Z.to_nat NUM_BLOCKS + 1) bl offset block_index (lecteur0, 0) in
      (rep, set_cursor lecteur)
    else if whence =? 1 then
      let '(rep, (lecteur, _)) :=
        seek_blocks (Z.to_nat NUM_BLOCKS + 1) bl (size (inode_at fs ino) - offset) 0 (start, 0) in
      (rep, set_cursor lecteur)
    else (Erreur, fs).

(** ** copy_file and copy_directory *)

(** The bytes of a [permissions] field read as the C string that
    [copy_file] hands to [create_file], which copies at most three
    characters of it. *)
Fixpoint c_string (l : list ascii) : string :=
  match l with
  | [] => EmptyString
  | a :: rest => if Ascii.eqb a NUL then EmptyString else String a (c_string rest)
  end.

(** [copy_file].  Every [return -1] comes before the array [content] is
    declared.  [content0] is what the uninitialised array [content] holds,
    which the program does not determine; the array has [new_inode->size]
    elements (none when the size is not positive), so that the terminator
    which [read_file] stores at index [size] falls outside it and is
    dropped here.  The call has a result when [write_file] has one. *)
Definition copy_file (now : Z) (content0 : list Z) (filename newname : string)
    (inode_dir_source inode_dir_target : Z) (fs : Filesystem)
    : option (Z * Filesystem) :=
  let source_inode_index := rechInode filename (dir_at fs inode_dir_source) in
  if source_inode_index =? -1 then Some (-1, fs)
  else if has_permission fs source_inode_index "r" =? 0 then Some (-1, fs)
  else if has_permission fs inode_dir_target "w" =? 0 then Some (-1, fs)
  else if negb (rechInode newname (dir_at fs inode_dir_target) =? -1) then Some (-1, fs)
  else
    let '(new_inode_index, fs1) :=
      create_file now newname (c_string (permissions (inode_at fs source_inode_index)))
                  inode_dir_target fs in
    if new_inode_index =? -1 then Some (-1, fs1)
    else
      let fs2 := upd_inode new_inode_index
                   (set_size (size (inode_at fs1 source_inode_index))) fs1 in
      let content :=
        resize (Z.to_nat (size (inode_at fs2 new_inode_index))) 0 content0 in
      let '(fd1, fs3) := open_file newname inode_dir_target fs2 in
      let '(fd2, fs4) := open_file filename inode_dir_source fs3 in
      let '(_, content1, fs5) :=
        read_file fd2 content (size (inode_at fs4 new_inode_index)) fs4 in
      match write_file fd1 content1 (size (inode_at fs5 new_inode_index)) fs5 with
      | None => None
      | Some (_, fs6) =>
          let fs7 := snd (close_file fd1 fs6) in
          Some (new_inode_index, snd (close_file fd2 fs7))
      end.

(** [copy_directory] calls itself on the sub-directories; [fuel] bounds the
    depth of these calls and [None] says that it was not enough, or that a
    copy of a file had no result.  The results of the copies of the
    children are not looked at.  [garbage s] is what the array [content] of
    a [copy_file] called in the state [s] holds. *)
Fixpoint copy_directory (fuel : nat) (now : Z) (garbage : Filesystem -> list Z)
    (srcDirName newname : string) (srcParentDir dstParentDir : Z) (fs : Filesystem)
    : option (Z * Filesystem) :=
  match fuel with
  | O => None
  | S fuel' =>
      let srcDirInode := rechInode srcDirName (dir_at fs srcParentDir) in
      if srcDirInode =? -1 then Some (-1, fs)
      else if negb (type (inode_at fs srcDirInode) =? 0) then Some (-1, fs)
      else if has_permission fs srcDirInode "r" =? 0 then Some (-1, fs)
      else if negb (rechInode newname (dir_at fs dstParentDir) =? -1) then Some (-1, fs)
      else if has_permission fs dstParentDir "w" =? 0 then Some (-1, fs)
      else
        let '(newDirInode, fs1) := create_directory now newname dstParentDir fs in
        if newDirInode =? -1 then Some (-1, fs1)
        else
          let body (i : Z) (s : Filesystem) : option Filesystem :=
            let e := entry_at (dir_at s srcDirInode) i in
            let childInode := inode_index e in
            if childInode =? -1 then Some s
            else
              let childType := type (inode_at s childInode) in
              if (childType =? 1) || (childType =? 2)
              then option_map snd
                     (copy_file now (garbage s) (filename e) (filename e)
                                srcDirInode newDirInode s)
              else if childType =? 0
              then option_map snd
                     (copy_directory fuel' now garbage (filename e) (filename e)
                                     srcDirInode newDirInode s)
              else Some s in
          match for_loop (Z.to_nat NUM_DIRECTORY_ENTRIES) 0 body fs1 with
          | None => None
          | Some fs2 => Some (newDirInode, fs2)
          end
  end.

(** ** The start of a session: [interactive_shell] with a forced
    initialisation creates [/usr], [/home], [/usr/local] and starts in
    [/home]. *)
Definition forced_init (now i0 : Z) : Filesystem :=
  let fs0 := init_filesystem now i0 zero_fs in
  let fs1 := snd (create_directory now "usr" 0 fs0) in
  let '(home_dir, fs2) := create_directory now "home" 0 fs1 in
  let fs3 := snd (create_directory now "local" (rechInode "usr" (dir_at fs2 0)) fs2) in
  with_current_dir home_dir fs3.

(** * Readings of the specification and sessions

    What the properties below are stated with: the notions the
    specification uses, written out, and the states that a few commands
    reach from a fresh image. *)

(** ** Readings of the specification *)

(** The letter [c] is one of the bytes of the field and no NUL byte stands
    before it. *)
Definition occurs_before_nul (p : list ascii) (c : ascii) : Prop :=
  exists k : nat, p !! k = Some c /\ forall j : nat, (j < k)%nat -> p !! j <> Some NUL.

(** The reading of the permission field by position: read at 0, write at
    1, execute at 2. *)
Definition letter_at_position (fs : Filesystem) (i : Z) (perm : ascii) : bool :=
  let p := permissions (inode_at fs i) in
  if Ascii.eqb perm "r" then Ascii.eqb (arr_get NUL p 0) "r"
  else if Ascii.eqb perm "w" then Ascii.eqb (arr_get NUL p 1) "w"
  else if Ascii.eqb perm "x" then Ascii.eqb (arr_get NUL p 2) "x"
  else false.

(** Every occupied entry of the record of a directory inode references an
    inode that is not free. *)
Definition entry_live (fs : Filesystem) (e : DirectoryEntry) : bool :=
  (inode_index e =? -1) || negb (type (inode_at fs (inode_index e)) =? -1).

Definition entries_live (fs : Filesystem) : bool :=
  forallb (fun i => negb (type (inode_at fs i) =? 0)
                    || forallb (entry_live fs) (dir_at fs i))
          (seqZ 0 NUM_INODES).

(** The pieces of a path between its '/' characters, empty ones included,
    and its components: the pieces that are not empty. *)
Fixpoint split_slash (s : string) : list string :=
  match s with
  | EmptyString => [EmptyString]
  | String c rest =>
      if Ascii.eqb c "/" then EmptyString :: split_slash rest
      else match split_slash rest with
           | [] => [String c EmptyString]
           | t :: ts => String c t :: ts
           end
  end.

Definition nonempty (t : string) : bool := negb (String.eqb t "").

Definition components (p : string) : list string := List.filter nonempty (split_slash p).

(** The resolver as the specification words it: one step per component,
    [None] for a component that cannot be resolved. *)
Definition resolve_component (fs : Filesystem) (cur : Z) (t : string) : option Z :=
  if String.eqb t "." then Some cur
  else if String.eqb t ".." then Some (inode_rep_parent (inode_at fs cur))
  else
    let found := rechInode t (dir_at fs cur) in
    if found =? -1 then None else Some found.

Fixpoint resolve (fs : Filesystem) (ts : list string) (cur : Z) : option Z :=
  match ts with
  | [] => Some cur
  | t :: rest =>
      match resolve_component fs cur t with
      | None => None
      | Some next => resolve fs rest next
      end
  end.

(** The walk over the components [ts] from [cur] stays in the table: every
    component other than [.] is taken at an index of [fs.inodes] and
    [fs.directories]. *)
Fixpoint walk_in_table (fs : Filesystem) (ts : list string) (cur : Z) : bool :=
  match ts with
  | [] => true
  | t :: rest =>
      if String.eqb t "." then walk_in_table fs rest cur
      else
        in_table cur
        && match resolve_component fs cur t with
           | None => true
           | Some next => walk_in_table fs rest next
           end
  end.

Definition starts_with_slash (p : string) : bool :=
  match p with
  | String c _ => Ascii.eqb c "/"
  | EmptyString => false
  end.

Definition resolve_path (fs : Filesystem) (p : string) (s : Z) : Z :=
  default (-1) (resolve fs (components p) (if starts_with_slash p then 0 else s)).

(** The inodes that the parent loop of [write_file] visits from inode [x]:
    its [inode_rep_parent], the parent of that one, and so on down to the
    first 0 (at most [n] of them). *)
Fixpoint parent_chain (n : nat) (fs : Filesystem) (x : Z) : list Z :=
  if x =? 0 then []
  else
    match n with
    | O => []
    | S n' =>
        let p := inode_rep_parent (inode_at fs x) in
        p :: parent_chain n' fs p
    end.

(** The byte of the image at an offset, and the number of offsets among
    [c], [c+1], ..., [c+n-1] that hold a zero byte. *)
Definition byte_at (f : Image) (p : Z) : Z := default 0 (data f !! p).

Fixpoint zero_bytes (f : Image) (c : Z) (n : nat) : Z :=
  match n with
  | O => 0
  | S n' => (if byte_at f c =? 0 then 1 else 0) + zero_bytes f (c + 1) n'
  end.

(** The number of offsets of the image that hold a written byte. *)
Definition written_offsets (fs : Filesystem) : nat := stdpp.base.size (data (file fs)).

(** What the writing loops of [write_file] keep, for the inode [ino]
    that is written and the state [fs] at the start of the call: the inode
    table keeps its length, no [inode_rep_parent] changes, only [ino]
    changes its size, and it grows by the bytes counted so far. *)
Definition write_keeps (fs : Filesystem) (ino : Z) (st : wstate) : Prop :=
  length (inodes (w_fs st)) = length (inodes fs) /\
  (forall y, inode_rep_parent (inode_at (w_fs st) y) = inode_rep_parent (inode_at fs y)) /\
  (forall y, y <> ino -> size (inode_at (w_fs st) y) = size (inode_at fs y)) /\
  (0 <= ino < Z.of_nat (length (inodes fs)) ->
   size (inode_at (w_fs st) ino) = size (inode_at fs ino) + w_maj st) /\
  0 <= w_maj st.

(** What the loops of [write_file] leave as they found it: the open-file
    table and, in every inode, all the fields but [size] (and the times). *)
Definition same_but_sizes (fs fs' : Filesystem) : Prop :=
  opened_file fs' = opened_file fs /\
  forall y, type (inode_at fs' y) = type (inode_at fs y) /\
            permissions (inode_at fs' y) = permissions (inode_at fs y) /\
            blocks (inode_at fs' y) = blocks (inode_at fs y) /\
            inode_rep_parent (inode_at fs' y) = inode_rep_parent (inode_at fs y).

(** ** Sessions

    All of them start from [forced_init 0 0]: inode 0 is the root, 1 is
    [/usr], 2 is [/home] (the current directory), 3 is [/usr/local]; inode 4
    is the first free one and every block is free. *)

Definition bytes_of (s : string) : list Z :=
  map (fun c => Z.of_N (N_of_ascii c)) (list_ascii_of_string s).

(** The command [wfile F MODE TEXT] of the shell: open, seek to the start
    ([rewrite], whence 0) or to the end ([add], whence 1), write, close. *)
Definition wfile (name : string) (whence : Z) (text : string) (cur : Z)
    (fs : Filesystem) : option Filesystem :=
  let '(fd, fs1) := open_file name cur fs in
  let fs2 := snd (seek_file fd 0 whence fs1) in
  match write_file fd (bytes_of text) (Z.of_nat (String.length text)) fs2 with
  | Some (_, fs3) => Some (snd (close_file fd fs3))
  | None => None
  end.

(** Scenarios 2 to 4 and 6 of the specification, in [/home]: [touch a];
    [wfile a rewrite hello], [wfile a add " world"]; [ln a b /home];
    [sym b ls]. *)
Definition session_touch : Filesystem :=
  snd (create_file 0 "a" "rw-" 2 (forced_init 0 0)).

Definition session_hello : Filesystem :=
  let fs1 := default session_touch (wfile "a" 0 "hello" 2 session_touch) in
  default fs1 (wfile "a" 1 " world" 2 fs1).

Definition session_ln : Filesystem :=
  snd (create_hard_link "b" "a" 2 2 session_hello).

Definition session_sym : Filesystem :=
  default session_ln (snd <$> create_symbolic_link 0 "ls" "b" 2 session_ln).

(** [touch a], then [chmod a wr-] or [chmod a ---]. *)
Definition chmod_session : Filesystem :=
  snd (change_permissions 0 "a" "wr-" 2 session_touch).

Definition session_no_permission : Filesystem :=
  snd (change_permissions 0 "a" "---" 2 session_touch).

(** [chmod home r-x] in the root. *)
Definition session_readonly_home : Filesystem :=
  snd (change_permissions 0 "home" "r-x" 0 (forced_init 0 0)).

(** [mkdir d], [mkdir c] inside [d], [chmod c r-x]. *)
Definition session_protected_child : Filesystem :=
  let fs1 := snd (create_directory 0 "d" 2 (forced_init 0 0)) in
  let fs2 := snd (create_directory 0 "c" 4 fs1) in
  snd (change_permissions 0 "c" "r-x" 4 fs2).

(** [mkdir d], [touch a] inside [d], [chmod a ---]. *)
Definition session_unreadable_child : Filesystem :=
  let fs1 := snd (create_directory 0 "d" 2 (forced_init 0 0)) in
  let fs2 := snd (create_file 0 "a" "rw-" 4 fs1) in
  snd (change_permissions 0 "a" "---" 4 fs2).

(** [a] of [session_hello] opened 64 times: no descriptor is left. *)
Definition session_table_full : Filesystem :=
  Nat.iter 64 (fun s => snd (open_file "a" 2 s)) session_hello.

(** A fresh image in which every data block is taken. *)
Definition full_disk : Filesystem :=
  with_free_blocks (replicate (Z.to_nat NUM_BLOCKS) 1) (forced_init 0 0).

(** [a] of [session_touch], opened: descriptor 0, cursor at the start of
    block 0. *)
Definition session_open : Filesystem := snd (open_file "a" 2 session_touch).

(** The blocks 0..1022 are taken, as after other files have filled them;
    [touch a] gets the last block, 1023, and [a] is opened. *)
Definition session_last_block : Filesystem :=
  let fs0 := with_free_blocks (replicate 1023 1 ++ [0]) (forced_init 0 0) in
  snd (open_file "a" 2 (snd (create_file 0 "a" "rw-" 2 fs0))).

(** [write(fd, b, n); seek(fd, 0, 0); read(fd, buf, n)] on the freshly
    created [a]; the result is [buf[0..n)]. *)
Definition round_trip_on (fs : Filesystem) (b : list Z) : option (list Z) :=
  let n := Z.of_nat (length b) in
  match write_file 0 b n fs with
  | None => None
  | Some (_, fs1) =>
      let fs2 := snd (seek_file 0 0 0 fs1) in
      let '(_, buf, _) := read_file 0 (replicate (S (length b)) 0) n fs2 in
      Some (take (length b) buf)
  end.

Definition round_trip (b : list Z) : option (list Z) := round_trip_on session_open b.

(** 512 bytes [a], then [b], then [c]. *)
Definition payload_abc : list Z := replicate 512 97 ++ [98; 99].

(** 512 bytes [a], then a zero byte, then [a]. *)
Definition payload_zero : list Z := replicate 512 97 ++ [0; 97].

(** 1019 times '/', then [homework]: 1027 characters. *)
Definition long_path : string :=
  string_of_list_ascii (replicate 1019 "/"%char) +:+ "homework".

(** The loops are unfolded by hand in the proofs. *)
Arguments to_size_t : simpl never.
Arguments to_int : simpl never.
Arguments block_start : simpl never.
Arguments block_end : simpl never.
Arguments write_loop : simpl never.
Arguments write_blocks : simpl never.
Arguments update_parents : simpl never.
Arguments read_loop : simpl never.
Arguments read_blocks : simpl never.
Arguments seek_loop : simpl never.
Arguments seek_blocks : simpl never.
Arguments for_loop : simpl never.
Arguments NUM_BLOCKS : simpl never.
Arguments NUM_INODES : simpl never.
Arguments NUM_DIRECTORY_ENTRIES : simpl never.
Arguments MAX_FILE_OPEN : simpl never.
Arguments MAX_FILE_NAME : simpl never.
Arguments sizeof_Filesystem : simpl never.

(** * Further definitions

    The shape of a state, the functions behind the command [pwd], and what
    the further properties are stated with. *)
(** ** The shape of the state and of a directory

    What the C types give for free and what the further properties assume
    of a state: every list has the length of the array it stands for. *)
Definition well_sized (fs : Filesystem) : bool :=
  Nat.eqb (length (inodes fs)) (Z.to_nat NUM_INODES)
  && Nat.eqb (length (directories fs)) (Z.to_nat NUM_INODES)
  && Nat.eqb (length (free_blocks fs)) (Z.to_nat NUM_BLOCKS)
  && Nat.eqb (length (opened_file fs)) (Z.to_nat MAX_FILE_OPEN)
  && forallb (fun n => Nat.eqb (length (blocks n)) (Z.to_nat NUM_BLOCKS)) (inodes fs)
  && forallb (fun d => Nat.eqb (length d) (Z.to_nat NUM_DIRECTORY_ENTRIES)) (directories fs).

(** The names of the occupied entries of a directory record, in order, and
    the directories in which no name is used twice. *)
Definition live_names (d : Directory) : list string :=
  map filename (List.filter (fun e => negb (inode_index e =? -1)) d).

Definition names_unique (d : Directory) : Prop :=
  NoDup (live_names (take (Z.to_nat NUM_DIRECTORY_ENTRIES) d)).

(** The chain of [inode_rep_parent] from inode [x] reaches inode 0 in at
    most [n] steps, through indices of the table only. *)
Fixpoint reaches_root (n : nat) (fs : Filesystem) (x : Z) : bool :=
  if x =? 0 then true
  else
    match n with
    | O => false
    | S n' =>
        let p := inode_rep_parent (inode_at fs x) in
        in_table x && in_table p && reaches_root n' fs p
    end.

(** [mkdir d], [touch a] inside [d], [a] opened, then [d] moved into
    itself: inode 4 is its own parent. *)
Definition session_cycle : Filesystem :=
  let fs1 := snd (create_directory 0 "d" 2 (forced_init 0 0)) in
  let fs2 := snd (create_file 0 "a" "rw-" 4 fs1) in
  let fs3 := snd (open_file "a" 4 fs2) in
  snd (move_directory 0 "d" 2 4 fs3).

(** [mkdir d], [touch a] inside [d], [mv a /home], [remdir d], then [a]
    opened: the file (inode 5) still counts [d] (inode 4) as its parent,
    and inode 4 is free, with parent -1. *)
Definition session_orphan : Filesystem :=
  let fs1 := snd (create_directory 0 "d" 2 (forced_init 0 0)) in
  let fs2 := snd (create_file 0 "a" "rw-" 4 fs1) in
  let fs3 := snd (move_file 0 "a" 4 2 fs2) in
  let fs4 := default fs3 (snd <$> delete_directory 0 3 "d" 2 fs3) in
  snd (open_file "a" 2 fs4).

(** ** The current directory: [changerRep], [generate_full_path] and the
    command [pwd] of the shell *)

Definition changerRep (path : string) (inode_dir : Z) (fs : Filesystem) : option Z :=
  match get_inode_from_path path inode_dir fs with
  | None => None
  | Some ino =>
      if ino =? -1 then Some inode_dir
      else if negb (in_table ino) then None
      else if negb (type (inode_at fs ino) =? 0) then Some inode_dir
      else Some ino
  end.

(** The search of [generate_full_path] in the record of the parent: the
    name of the first entry that holds [dir]. *)
Fixpoint find_name (dir : Z) (entries : list DirectoryEntry) : option string :=
  match entries with
  | [] => None
  | e :: rest => if inode_index e =? dir then Some (filename e) else find_name dir rest
  end.

(** The loop [while (dir != 0 && dir != -1)] of [generate_full_path].
    [path] is the C string in the caller's buffer, [path_size] the size of
    that buffer; [dirname] starts as "?" and gets the first
    [MAX_FILE_NAME - 1] characters of the name found; [temp] has 2048 bytes,
    so [snprintf] keeps 2047 characters.  [fuel] bounds the turns of the
    loop and [None] says that it was not enough. *)
Fixpoint full_path_loop (fuel : nat) (fs : Filesystem) (path_size : Z) (dir : Z)
    (path : string) : option string :=
  if (dir =? 0) || (dir =? -1) then Some path
  else
    match fuel with
    | O => None
    | S fuel' =>
        let parent := inode_rep_parent (inode_at fs dir) in
        if (parent <? 0) || (parent >=? NUM_DIRECTORY_ENTRIES) then Some path
        else
          let dirname :=
            match find_name dir (take (Z.to_nat NUM_DIRECTORY_ENTRIES) (dir_at fs parent)) with
            | Some f => strncpy_name (Z.to_nat (MAX_FILE_NAME - 1)) f
            | None => "?"%string
            end in
          if Z.of_nat (String.length path) + Z.of_nat (String.length dirname) + 2 <? path_size
          then
            let temp := strncpy_name 2047 ("/" +:+ dirname +:+ path) in
            full_path_loop fuel' fs path_size parent
              (strncpy_name (Z.to_nat (path_size - 1)) temp)
          else Some (strncpy_name (Z.to_nat (path_size - 1)) "[chemin trop long]")
    end.

(** [generate_full_path(current_dir, path, path_size)] for a buffer that
    is not NULL; [path0] is what the buffer holds before the call. *)
Definition generate_full_path (fuel : nat) (current_dir : Z) (path0 : string)
    (path_size : Z) (fs : Filesystem) : option string :=
  if path_size =? 0 then Some path0
  else full_path_loop fuel fs path_size current_dir EmptyString.

(** [pwd]: the line printed, without its newline. *)
Definition cmd_pwd (fuel : nat) (current_dir : Z) (fs : Filesystem) : option string :=
  match generate_full_path fuel current_dir EmptyString 2048 fs with
  | None => None
  | Some path =>
      Some ("/" +:+ match path with
                    | String c rest => if Ascii.eqb c "/" then rest else path
                    | EmptyString => path
                    end)
  end.

(** A name that the resolver reads back as one component: it is not
    empty, not [.] or [..], has no '/', and fits [dirname]. *)
Definition plain_name (f : string) : bool :=
  negb (String.eqb f "") && negb (String.eqb f ".") && negb (String.eqb f "..")
  && forallb (fun c => negb (Ascii.eqb c "/")) (list_ascii_of_string f)
  && (String.length f <=? Z.to_nat (MAX_FILE_NAME - 1))%nat.

(** The directories from [x] up to the root are linked both ways: [x] is
    an inode index, its parent is an index of the table, the first entry of
    the parent that holds [x] has a plain name, and that name resolves to
    [x] in the parent; at most [n] steps lead to the root. *)
Fixpoint rooted (n : nat) (fs : Filesystem) (x : Z) : bool :=
  if x =? 0 then true
  else
    match n with
    | O => false
    | S n' =>
        let p := inode_rep_parent (inode_at fs x) in
        (0 <=? x) && (x <? NUM_INODES) && (0 <=? p) && (p <? NUM_DIRECTORY_ENTRIES)
        && match find_name x (take (Z.to_nat NUM_DIRECTORY_ENTRIES) (dir_at fs p)) with
           | Some f => plain_name f && (rechInode f (dir_at fs p) =? x) && rooted n' fs p
           | None => false
           end
    end.

(** The names on the way from the root down to [x]. *)
Fixpoint names_to (n : nat) (fs : Filesystem) (x : Z) : list string :=
  if x =? 0 then []
  else
    match n with
    | O => []
    | S n' =>
        let p := inode_rep_parent (inode_at fs x) in
        match find_name x (take (Z.to_nat NUM_DIRECTORY_ENTRIES) (dir_at fs p)) with
        | Some f => names_to n' fs p ++ [f]
        | None => []
        end
    end.

(** [/n1/n2/.../nk] *)
Fixpoint slash_path (names : list string) : string :=
  match names with
  | [] => EmptyString
  | f :: rest => "/" +:+ f +:+ slash_path rest
  end.

(** [a] opened as in [session_open], then [write_file(0, "hi!", 3)]. *)
Definition session_written : Filesystem :=
  default session_open (snd <$> write_file 0 [104; 105; 33] 3 session_open).

(** Between [fs] and [fs'] nothing differs but the cursor of the
    descriptor [desc] and the position of the stream: every descriptor is
    bound to the inode it was bound to, the other slots, the inode table,
    the directories, the bitmap and the bytes of the image are the same. *)
Definition cursor_moved (desc : Z) (fs fs' : Filesystem) : Prop :=
  (forall k, inode (open_at fs' k) = inode (open_at fs k)) /\
  (forall k, k <> desc -> open_at fs' k = open_at fs k) /\
  length (opened_file fs') = length (opened_file fs) /\
  inodes fs' = inodes fs /\ directories fs' = directories fs /\
  free_blocks fs' = free_blocks fs /\
  data (file fs') = data (file fs) /\ len (file fs') = len (file fs).

(** * Properties *)

(** ** Arrays *)

Section Arrays.
Context {A : Type}.
Implicit Types (l : list A) (i j : Z) (x y d : A).

Lemma arr_set_length l i x : length (arr_set l i x) = length l.
Proof. unfold arr_set. destruct (i <? 0); [done | apply length_insert]. Qed.

Lemma arr_get_set_eq d l i x :
  0 <= i < Z.of_nat (length l) -> arr_get d (arr_set l i x) i = x.
Proof.
  intros Hi. unfold arr_get, arr_set.
  destruct (Z.ltb_spec i 0) as [?|_]; [lia|].
  rewrite list_lookup_insert_eq by lia. done.
Qed.

Lemma arr_get_set_ne d l i j x : i <> j -> arr_get d (arr_set l i x) j = arr_get d l j.
Proof.
  intros Hne. unfold arr_get, arr_set.
  destruct (Z.ltb_spec j 0) as [?|Hj]; [done|].
  destruct (Z.ltb_spec i 0) as [?|Hi]; [done|].
  rewrite list_lookup_insert_ne by lia. done.
Qed.

Lemma arr_set_set l i x y : arr_set (arr_set l i y) i x = arr_set l i x.
Proof.
  unfold arr_set. destruct (i <? 0); [done | apply list_insert_insert_eq].
Qed.

Lemma arr_set_get d l i : arr_set l i (arr_get d l i) = l.
Proof.
  unfold arr_set, arr_get. destruct (i <? 0); [done|].
  destruct (l !! Z.to_nat i) as [a|] eqn:E; simpl.
  - by apply list_insert_id.
  - apply list_insert_ge. by apply lookup_ge_None.
Qed.

Lemma arr_get_in_range d l i :
  arr_get d l i <> d -> 0 <= i < Z.of_nat (length l).
Proof.
  unfold arr_get. destruct (Z.ltb_spec i 0) as [?|Hi]; [done|].
  destruct (l !! Z.to_nat i) as [a|] eqn:E; simpl; [|done].
  intros _. apply lookup_lt_Some in E. lia.
Qed.

Lemma arr_get_take d l (n : nat) i :
  i < Z.of_nat n -> arr_get d (take n l) i = arr_get d l i.
Proof.
  intros Hi. unfold arr_get. destruct (Z.ltb_spec i 0) as [?|?]; [done|].
  rewrite lookup_take_lt by lia. done.
Qed.

End Arrays.

(** ** The scans of the tables *)

Lemma first_zero_spec l s i :
  first_zero l s = i -> i <> -1 -> 0 <= s ->
  s <= i < s + Z.of_nat (length l) /\ l !! Z.to_nat (i - s) = Some 0.
Proof.
  revert s. induction l as [|b l IH]; intros s H Hne Hs; simpl in *; [congruence|].
  destruct (Z.eqb_spec b 0) as [->|Hb].
  - subst i. replace (s - s) with 0 by lia. split; [lia | done].
  - destruct (IH (s + 1) H Hne ltac:(lia)) as [Hr Hl]. split; [lia|].
    replace (Z.to_nat (i - s)) with (S (Z.to_nat (i - (s + 1)))) by lia. done.
Qed.

Lemma first_zero_none l s :
  0 <= s -> first_zero l s = -1 -> forall b, b ∈ l -> b <> 0.
Proof.
  revert s. induction l as [|c l IH]; intros s Hs H b Hb; simpl in *.
  - by apply not_elem_of_nil in Hb.
  - destruct (Z.eqb_spec c 0) as [->|Hc]; [lia|].
    apply elem_of_cons in Hb as [->|Hb]; [done | by eapply (IH (s + 1)); [lia|..]].
Qed.

Lemma first_free_inode_spec l s i :
  first_free_inode l s = i -> i <> -1 -> 0 <= s ->
  s <= i < s + Z.of_nat (length l) /\
  exists n, l !! Z.to_nat (i - s) = Some n /\ size n = -1.
Proof.
  revert s. induction l as [|b l IH]; intros s H Hne Hs; simpl in *; [congruence|].
  destruct (Z.eqb_spec (size b) (-1)) as [Hb|Hb].
  - subst i. replace (s - s) with 0 by lia. split; [lia | by exists b].
  - destruct (IH (s + 1) H Hne ltac:(lia)) as [Hr Hl]. split; [lia|].
    replace (Z.to_nat (i - s)) with (S (Z.to_nat (i - (s + 1)))) by lia. done.
Qed.

Lemma first_free_slot_spec l s i :
  first_free_slot l s = i -> i <> -1 -> 0 <= s ->
  s <= i < s + Z.of_nat (length l) /\
  exists o, l !! Z.to_nat (i - s) = Some o /\ inode o = -1.
Proof.
  revert s. induction l as [|b l IH]; intros s H Hne Hs; simpl in *; [congruence|].
  destruct (Z.eqb_spec (inode b) (-1)) as [Hb|Hb].
  - subst i. replace (s - s) with 0 by lia. split; [lia | by exists b].
  - destruct (IH (s + 1) H Hne ltac:(lia)) as [Hr Hl]. split; [lia|].
    replace (Z.to_nat (i - s)) with (S (Z.to_nat (i - (s + 1)))) by lia. done.
Qed.

Lemma first_free_slot_found l s k o :
  0 <= s -> l !! k = Some o -> inode o = -1 -> first_free_slot l s <> -1.
Proof.
  revert s k. induction l as [|b l IH]; intros s k Hs Hk Ho; simpl in *; [done|].
  destruct (Z.eqb_spec (inode b) (-1)) as [Hb|Hb]; [lia|].
  destruct k as [|k]; simpl in Hk; [congruence|].
  eapply IH; [lia | done | done].
Qed.

Lemma rechEntree_from_spec d s k :
  rechEntree_from d s = k -> k <> -1 -> 0 <= s ->
  s <= k < s + Z.of_nat (length d) /\
  exists e, d !! Z.to_nat (k - s) = Some e /\ inode_index e = -1.
Proof.
  revert s. induction d as [|b d IH]; intros s H Hne Hs; simpl in *; [congruence|].
  destruct (Z.eqb_spec (inode_index b) (-1)) as [Hb|Hb].
  - subst k. replace (s - s) with 0 by lia. split; [lia | by exists b].
  - destruct (IH (s + 1) H Hne ltac:(lia)) as [Hr Hl]. split; [lia|].
    replace (Z.to_nat (k - s)) with (S (Z.to_nat (k - (s + 1)))) by lia. done.
Qed.

(** ** Records and the block allocator *)

Lemma with_inodes_id fs : with_inodes (inodes fs) fs = fs.
Proof. by destruct fs. Qed.

Lemma with_free_blocks_id fs : with_free_blocks (free_blocks fs) fs = fs.
Proof. by destruct fs. Qed.

Lemma set_size_undo v n : size n = -1 -> set_size (-1) (set_size v n) = n.
Proof. destruct n; simpl; intros ->; done. Qed.

Lemma allocate_block_none fs :
  first_zero (take (Z.to_nat NUM_BLOCKS) (free_blocks fs)) 0 = -1 ->
  allocate_block fs = (-1, fs).
Proof. intros H. unfold allocate_block. by rewrite H. Qed.

Lemma allocate_block_fail fs fs' : allocate_block fs = (-1, fs') -> fs' = fs.
Proof.
  unfold allocate_block.
  destruct (Z.eqb_spec (first_zero (take (Z.to_nat NUM_BLOCKS) (free_blocks fs)) 0) (-1));
    intros H; inversion H; congruence.
Qed.

(** A block that was just allocated and is given back leaves the bitmap
    as it was. *)
Lemma allocate_then_free fs b fs' :
  allocate_block fs = (b, fs') -> b <> -1 -> free_block b fs' = fs.
Proof.
  unfold allocate_block.
  set (i := first_zero _ 0).
  destruct (Z.eqb_spec i (-1)) as [?|Hi]; intros H Hb; inversion H; subst; [done|].
  destruct (first_zero_spec _ 0 i eq_refl Hi ltac:(lia)) as [Hr Hl].
  rewrite length_take in Hr. rewrite Z.sub_0_r in Hl.
  apply lookup_take_Some in Hl as [Hl _].
  unfold free_block.
  replace ((0 <=? i) && (i <? NUM_BLOCKS)) with true
    by (symmetry; apply andb_true_iff; unfold NUM_BLOCKS in *; lia).
  destruct fs; unfold with_free_blocks; simpl in *. f_equal.
  rewrite arr_set_set. unfold arr_set.
  destruct (Z.ltb_spec i 0); [lia|]. by apply list_insert_id.
Qed.

Lemma allocate_block_inodes fs : inodes (snd (allocate_block fs)) = inodes fs.
Proof. unfold allocate_block. by destruct (_ =? -1). Qed.

(** ** Reading the state after an update *)

Lemma inode_at_upd_inode fs i j f :
  inode_at (upd_inode i f fs) j =
  if decide (i = j /\ 0 <= i < Z.of_nat (length (inodes fs)))
  then f (inode_at fs i) else inode_at fs j.
Proof.
  unfold upd_inode, inode_at; simpl.
  destruct (decide _) as [[-> Hr]|Hn].
  - by rewrite arr_get_set_eq.
  - destruct (decide (i = j)) as [->|Hne].
    + unfold arr_set, arr_get. destruct (Z.ltb_spec j 0); [done|].
      rewrite list_insert_ge by lia. done.
    + by rewrite arr_get_set_ne.
Qed.

Lemma inode_at_upd_inode_eq fs i f :
  0 <= i < Z.of_nat (length (inodes fs)) ->
  inode_at (upd_inode i f fs) i = f (inode_at fs i).
Proof. intros H. rewrite inode_at_upd_inode. by rewrite decide_True. Qed.

Lemma inode_at_upd_inode_ne fs i j f :
  i <> j -> inode_at (upd_inode i f fs) j = inode_at fs j.
Proof. intros H. rewrite inode_at_upd_inode. rewrite decide_False; [done | tauto]. Qed.

Lemma inode_at_upd_dir fs i f j : inode_at (upd_dir i f fs) j = inode_at fs j.
Proof. done. Qed.

Lemma inode_at_upd_open fs i f j : inode_at (upd_open i f fs) j = inode_at fs j.
Proof. done. Qed.

Lemma open_at_upd_open_eq fs i f :
  0 <= i < Z.of_nat (length (opened_file fs)) ->
  open_at (upd_open i f fs) i = f (open_at fs i).
Proof. intros H. unfold upd_open, open_at; simpl. by rewrite arr_get_set_eq. Qed.

(** A field that [f] keeps is kept by [upd_inode i f], whatever [i]. *)
Lemma upd_inode_keeps {B} (g : Inode -> B) fs i j f :
  (forall n, g (f n) = g n) -> g (inode_at (upd_inode i f fs) j) = g (inode_at fs j).
Proof.
  intros Hg. rewrite inode_at_upd_inode.
  destruct (decide _) as [[-> _]|_]; [apply Hg | done].
Qed.


Lemma inode_at_ext fs1 fs2 y : inodes fs1 = inodes fs2 -> inode_at fs1 y = inode_at fs2 y.
Proof. unfold inode_at. by intros ->. Qed.

Lemma dir_at_upd_dir_eq fs i f :
  0 <= i < Z.of_nat (length (directories fs)) ->
  dir_at (upd_dir i f fs) i = f (dir_at fs i).
Proof. intros H. unfold upd_dir, dir_at; simpl. by rewrite arr_get_set_eq. Qed.

Lemma dir_at_upd_dir_ne fs i j f : i <> j -> dir_at (upd_dir i f fs) j = dir_at fs j.
Proof. intros H. unfold upd_dir, dir_at; simpl. by rewrite arr_get_set_ne. Qed.

Lemma directories_upd_dir_length fs i f :
  length (directories (upd_dir i f fs)) = length (directories fs).
Proof. unfold upd_dir; simpl. apply arr_set_length. Qed.

Lemma upd_inode_reserve_undo fs i :
  0 <= i < Z.of_nat (length (inodes fs)) ->
  size (inode_at fs i) = -1 ->
  upd_inode i (set_size (-1)) (upd_inode i (set_size 0) fs) = fs.
Proof.
  intros Hi Hs. unfold upd_inode, inode_at. destruct fs as [f ino r ds fb c o]; simpl in *.
  unfold with_inodes; simpl. f_equal.
  rewrite arr_get_set_eq by done. rewrite arr_set_set.
  rewrite set_size_undo by done. apply arr_set_get.
Qed.

Lemma first_free_inode_at fs i :
  first_free_inode (take (Z.to_nat NUM_INODES) (inodes fs)) 0 = i -> i <> -1 ->
  0 <= i < Z.of_nat (length (inodes fs)) /\ i < NUM_INODES /\ size (inode_at fs i) = -1.
Proof.
  intros H Hne.
  destruct (first_free_inode_spec _ 0 i H Hne ltac:(lia)) as [Hr (n & Hn & Hs)].
  rewrite length_take in Hr. rewrite Z.sub_0_r in Hn.
  apply lookup_take_Some in Hn as [Hn Hlt].
  split; [lia|]. split; [lia|].
  unfold inode_at, arr_get. destruct (Z.ltb_spec i 0); [lia|]. by rewrite Hn.
Qed.

(** A directory with a free slot is a record of the table. *)
Lemma rechEntree_in_range fs parent :
  rechEntree fs parent <> -1 ->
  0 <= parent < Z.of_nat (length (directories fs)) /\
  0 <= rechEntree fs parent < Z.of_nat (length (dir_at fs parent)).
Proof.
  intros Hne. unfold rechEntree in *.
  destruct (rechEntree_from_spec _ 0 _ eq_refl Hne ltac:(lia)) as [Hr (e & He & Hi)].
  rewrite length_take in Hr. apply lookup_take_Some in He as [He _].
  split; [|lia].
  apply (arr_get_in_range zero_dir). fold (dir_at fs parent). intros E.
  rewrite E in He. unfold zero_dir in He.
  apply lookup_replicate in He as [-> _]. done.
Qed.

(** ** Hard links and delete_file (C1) *)

(** C1 at the session of scenario 4: [a] and [b] name inode 4 and the
    invariant holds; after [rm a] the entry [b] is still there and still
    holds 4, but inode 4 is free, its block is free, the invariant is
    broken and [b] cannot be opened. *)
Theorem delete_file_leaves_hard_link_dangling :
  rechInode "a" (dir_at session_ln 2) = 4 /\
  rechInode "b" (dir_at session_ln 2) = 4 /\
  type (inode_at session_ln 4) = 1 /\
  entries_live session_ln = true /\
  fst (delete_file 0 "a" 2 session_ln) = Done /\
  rechInode "b" (dir_at (snd (delete_file 0 "a" 2 session_ln)) 2) = 4 /\
  type (inode_at (snd (delete_file 0 "a" 2 session_ln)) 4) = -1 /\
  size (inode_at (snd (delete_file 0 "a" 2 session_ln)) 4) = -1 /\
  arr_get 1 (free_blocks (snd (delete_file 0 "a" 2 session_ln))) 0 = 0 /\
  entries_live (snd (delete_file 0 "a" 2 session_ln)) = false /\
  fst (open_file "b" 2 (snd (delete_file 0 "a" 2 session_ln))) = -1.
Proof. vm_compute. repeat split; reflexivity. Qed.

(** ** The inode of a symbolic link (C2) *)

(** Every successful call gives the new inode the same size, whatever the
    target path; the other fields are the ones of the specification. *)
Lemma create_symbolic_link_inode now link target parent fs i fs' :
  create_symbolic_link now link target parent fs = Some (i, fs') -> i <> -1 ->
  let n := inode_at fs' i in
  type n = 2 /\ size n = sizeof_pointer + 1 /\
  arr_get (-1) (blocks n) 0 = fst (allocate_block fs) /\
  fst (allocate_block fs) <> -1 /\
  permissions n = ["r"; "w"; "x"]%char /\ link_count n = 1.
Proof.
  unfold create_symbolic_link.
  destruct (negb _); [intros H; inversion H; lia|].
  destruct (get_inode_from_path target parent fs) as [path_inode|]; [|done].
  destruct (path_inode =? -1); [intros H; inversion H; lia|].
  set (i0 := first_free_inode (take (Z.to_nat NUM_INODES) (inodes fs)) 0).
  destruct (Z.eqb_spec i0 (-1)) as [|Hi]; [intros H; inversion H; lia|].
  destruct (_ =? -1); [intros H; inversion H; lia|].
  pose proof (allocate_block_inodes fs) as Ha.
  destruct (allocate_block fs) as [b fs1]. cbn [fst snd] in *.
  destruct (Z.eqb_spec b (-1)) as [|Hb]; [intros H; inversion H; lia|].
  intros H _. apply (inj Some) in H. apply pair_equal_spec in H as [<- <-].
  destruct (first_free_inode_at fs i0 eq_refl Hi) as (Hr & _ & _).
  cbv zeta. rewrite inode_at_upd_dir.
  change (inode_at (with_file ?f ?x) i0) with (inode_at x i0).
  rewrite inode_at_upd_inode_eq by (rewrite Ha; exact Hr).
  cbn [type size blocks permissions link_count set_blocks set_permissions
       set_link_count set_inode_rep_parent set_modification_time
       set_creation_time set_type set_size].
  split; [reflexivity|]. split; [reflexivity|]. split; [|done].
  apply arr_get_set_eq. rewrite length_replicate. unfold NUM_BLOCKS. lia.
Qed.

(** C2 at [sym b ls] after scenario 4: the call succeeds, the new inode 5
    is a symlink with one block, permissions rwx and one link, but its size
    is 9, the size of a pointer plus 1, where the target path [b] has
    length 1. *)
Theorem create_symbolic_link_size_is_pointer_size :
  create_symbolic_link 0 "ls" "b" 2 session_ln = Some (5, session_sym) /\
  type (inode_at session_sym 5) = 2 /\
  arr_get (-1) (blocks (inode_at session_sym 5)) 0 = 1 /\
  permissions (inode_at session_sym 5) = ["r"; "w"; "x"]%char /\
  link_count (inode_at session_sym 5) = 1 /\
  size (inode_at session_sym 5) = 9 /\
  Z.of_nat (String.length "b") + 1 = 2.
Proof. vm_compute. repeat split; reflexivity. Qed.

(** ** Permissions (C3) *)

Lemma strchr_occurs s c : c <> NUL -> strchr s c = true <-> occurs_before_nul s c.
Proof.
  intros Hc. induction s as [|a s IH]; simpl.
  - split; [done|]. intros (k & Hk & _). by destruct k.
  - destruct (Ascii.eqb_spec a NUL) as [->|Ha].
    + split; [done|]. intros (k & Hk & Hj). destruct k as [|k]; simpl in Hk.
      * congruence.
      * exfalso. by apply (Hj O); [lia|].
    + destruct (Ascii.eqb_spec a c) as [->|Hac].
      * split; [|done]. intros _. exists O. split; [done|]. intros j Hj. lia.
      * rewrite IH. split.
        -- intros (k & Hk & Hj). exists (S k). split; [done|].
           intros [|j] Hlt; simpl; [congruence | apply Hj; lia].
        -- intros (k & Hk & Hj). destruct k as [|k]; simpl in Hk; [congruence|].
           exists k. split; [done|]. intros j Hlt. apply (Hj (S j)). lia.
Qed.

(** C3, as the code has it: [has_permission] grants [perm] exactly when the
    inode index is in range, [perm] is one of the letters r, w, x, and the
    letter occurs at any position of the permission field with no NUL byte
    before it.  The position of the letter plays no part. *)
Theorem has_permission_iff_letter_occurs (fs : Filesystem) (i : Z) (perm : ascii) :
  has_permission fs i perm = 1 <->
  0 <= i < NUM_INODES /\
  (perm = "r"%char \/ perm = "w"%char \/ perm = "x"%char) /\
  occurs_before_nul (permissions (inode_at fs i)) perm.
Proof.
  unfold has_permission.
  destruct (Z.ltb_spec i 0) as [?|Hlo]; simpl; [split; [done | lia]|].
  destruct (Z.geb_spec i NUM_INODES) as [?|Hhi]; simpl; [split; [done | lia]|].
  set (p := permissions (inode_at fs i)).
  assert (Hr : "r"%char <> NUL) by done.
  assert (Hw : "w"%char <> NUL) by done.
  assert (Hx : "x"%char <> NUL) by done.
  destruct (Ascii.eqb_spec perm "r") as [->|Nr]; simpl.
  { destruct (strchr p "r") eqn:E; simpl.
    - split; [|done]. intros _. split; [lia|]. split; [auto|]. by apply strchr_occurs.
    - split; [done|]. intros (_ & _ & Ho). apply strchr_occurs in Ho; congruence. }
  destruct (Ascii.eqb_spec perm "w") as [->|Nw]; simpl.
  { destruct (strchr p "w") eqn:E; simpl.
    - split; [|done]. intros _. split; [lia|]. split; [auto|]. by apply strchr_occurs.
    - split; [done|]. intros (_ & _ & Ho). apply strchr_occurs in Ho; congruence. }
  destruct (Ascii.eqb_spec perm "x") as [->|Nx]; simpl.
  { destruct (strchr p "x") eqn:E; simpl.
    - split; [|done]. intros _. split; [lia|]. split; [auto|]. by apply strchr_occurs.
    - split; [done|]. intros (_ & _ & Ho). apply strchr_occurs in Ho; congruence. }
  split; [done|]. intros (_ & [?|[?|?]] & _); congruence.
Qed.

(** C3 as stated fails: after [chmod a wr-] the read permission is granted
    on the inode of [a] although position 0 of its field holds w. *)
Lemma has_permission_not_by_position :
  has_permission chmod_session 4 "r" = 1 /\
  letter_at_position chmod_session 4 "r" = false /\
  permissions (inode_at chmod_session 4) = ["w"; "r"; "-"]%char.
Proof. vm_compute. done. Qed.

(** ** The count and the sizes of write_file (C4) *)

(** One turn of the parent loop. *)
Lemma update_parents_S n x maj fs :
  update_parents (S n) x maj fs =
  if x =? 0 then Some fs
  else if in_table x && in_table (inode_rep_parent (inode_at fs x))
       then update_parents n (inode_rep_parent (inode_at fs x)) maj
              (upd_inode (inode_rep_parent (inode_at fs x))
                 (fun k => set_size (size k + maj) k) fs)
       else None.
Proof. reflexivity. Qed.

Lemma in_table_spec i : in_table i = true <-> 0 <= i < NUM_INODES.
Proof. unfold in_table. rewrite andb_true_iff, Z.leb_le, Z.ltb_lt. done. Qed.

Lemma update_parents_fuel n m x maj maj' fs fs1 fs2 fs' :
  (forall y, inode_rep_parent (inode_at fs1 y) = inode_rep_parent (inode_at fs y)) ->
  (forall y, inode_rep_parent (inode_at fs2 y) = inode_rep_parent (inode_at fs y)) ->
  update_parents n x maj fs1 = Some fs' ->
  is_Some (update_parents m x maj' fs2) ->
  parent_chain n fs x = parent_chain m fs x.
Proof.
  revert m x fs1 fs2 fs'. induction n as [|n IH]; intros m x fs1 fs2 fs' H1 H2 Hn Hm.
  - unfold update_parents in Hn. destruct (Z.eqb_spec x 0) as [->|Hx]; [|done].
    by destruct m.
  - rewrite update_parents_S in Hn.
    destruct m as [|m].
    + unfold update_parents in Hm. destruct (Z.eqb_spec x 0) as [->|Hx]; [done|].
      by destruct Hm.
    + rewrite update_parents_S in Hm.
      cbn [parent_chain]. destruct (Z.eqb_spec x 0) as [->|Hx]; [done|].
      rewrite H1 in Hn. rewrite H2 in Hm.
      destruct (in_table x && in_table _); [|done]. f_equal.
      eapply IH; [| | exact Hn | exact Hm].
      * intros y. rewrite (upd_inode_keeps inode_rep_parent) by done. apply H1.
      * intros y. rewrite (upd_inode_keeps inode_rep_parent) by done. apply H2.
Qed.

Lemma update_parents_closer n x maj fs fs1 fs' y :
  (forall z, inode_rep_parent (inode_at fs1 z) = inode_rep_parent (inode_at fs z)) ->
  update_parents n x maj fs1 = Some fs' ->
  y ∈ parent_chain n fs x ->
  exists m fs2 fs2',
    (forall z, inode_rep_parent (inode_at fs2 z) = inode_rep_parent (inode_at fs z)) /\
    update_parents m y maj fs2 = Some fs2' /\
    (length (parent_chain m fs y) < length (parent_chain n fs x))%nat.
Proof.
  revert x fs1 fs'. induction n as [|n IH]; intros x fs1 fs' H1 Hn Hy.
  - cbn [parent_chain] in Hy. destruct (x =? 0); by apply not_elem_of_nil in Hy.
  - rewrite update_parents_S in Hn.
    cbn [parent_chain] in *. destruct (Z.eqb_spec x 0) as [->|Hx].
    { by apply not_elem_of_nil in Hy. }
    rewrite H1 in Hn.
    set (p := inode_rep_parent (inode_at fs x)) in *.
    destruct (in_table x && in_table p); [|done].
    assert (H1' : forall z, inode_rep_parent
                (inode_at (upd_inode p (fun k => set_size (size k + maj) k) fs1) z)
              = inode_rep_parent (inode_at fs z)).
    { intros z. rewrite (upd_inode_keeps inode_rep_parent) by done. apply H1. }
    apply elem_of_cons in Hy as [->|Hy].
    + exists n, (upd_inode p (fun k => set_size (size k + maj) k) fs1), fs'.
      split; [exact H1'|]. split; [exact Hn|]. simpl. lia.
    + destruct (IH _ _ _ H1' Hn Hy) as (m & fs2 & fs2' & Ha & Hb & Hc).
      exists m, fs2, fs2'. split; [exact Ha|]. split; [exact Hb|]. simpl. lia.
Qed.

Lemma update_parents_not_self n x maj fs fs1 fs' :
  (forall z, inode_rep_parent (inode_at fs1 z) = inode_rep_parent (inode_at fs z)) ->
  update_parents n x maj fs1 = Some fs' ->
  x ∉ parent_chain n fs x.
Proof.
  intros H1 Hn Hx.
  destruct (update_parents_closer _ _ _ _ _ _ _ H1 Hn Hx) as (m & fs2 & fs2' & Ha & Hb & Hc).
  rewrite (update_parents_fuel n m x maj maj fs fs1 fs2 fs' H1 Ha Hn) in Hc; [lia|].
  by rewrite Hb.
Qed.

(** What the parent loop does: every inode of the chain that is in the
    table grows by [maj_size], once; the others keep their size. *)
Lemma update_parents_sizes n x maj fs fs1 fs' :
  (forall z, inode_rep_parent (inode_at fs1 z) = inode_rep_parent (inode_at fs z)) ->
  update_parents n x maj fs1 = Some fs' ->
  forall y,
    size (inode_at fs' y) =
    size (inode_at fs1 y)
    + (if decide (y ∈ parent_chain n fs x /\ 0 <= y < Z.of_nat (length (inodes fs1)))
       then maj else 0).
Proof.
  revert x fs1 fs'. induction n as [|n IH]; intros x fs1 fs' H1 Hn y.
  - unfold update_parents in Hn. cbn [parent_chain].
    destruct (Z.eqb_spec x 0) as [->|Hx]; [|done]. inversion Hn; subst.
    rewrite decide_False; [lia|]. intros [H _]. by apply not_elem_of_nil in H.
  - rewrite update_parents_S in Hn.
    cbn [parent_chain]. destruct (Z.eqb_spec x 0) as [->|Hx].
    { inversion Hn; subst. rewrite decide_False; [lia|].
      intros [H _]. by apply not_elem_of_nil in H. }
    rewrite H1 in Hn.
    set (p := inode_rep_parent (inode_at fs x)) in *.
    destruct (in_table x && in_table p); [|done].
    set (fs2 := upd_inode p (fun k => set_size (size k + maj) k) fs1) in *.
    assert (H1' : forall z, inode_rep_parent (inode_at fs2 z)
                            = inode_rep_parent (inode_at fs z)).
    { intros z. unfold fs2. rewrite (upd_inode_keeps inode_rep_parent) by done. apply H1. }
    assert (Hlen : length (inodes fs2) = length (inodes fs1))
      by (unfold fs2, upd_inode; simpl; apply arr_set_length).
    pose proof (update_parents_not_self _ _ _ _ _ _ H1' Hn) as Hnot.
    rewrite (IH _ _ _ H1' Hn y). rewrite Hlen.
    unfold fs2 at 1. rewrite inode_at_upd_inode.
    destruct (decide (p = y /\ 0 <= p < Z.of_nat (length (inodes fs1)))) as [[-> Hr]|Hn1].
    + rewrite decide_False by tauto.
      rewrite decide_True by (split; [apply list_elem_of_here | exact Hr]).
      simpl. lia.
    + destruct (decide (y ∈ parent_chain n fs p /\ 0 <= y < Z.of_nat (length (inodes fs1))))
        as [[Hin Hr]|Hn2].
      * rewrite decide_True by (split; [by apply list_elem_of_further | exact Hr]). lia.
      * rewrite decide_False; [lia|]. intros [Hin Hr].
        apply elem_of_cons in Hin as [->|Hin]; tauto.
Qed.

Lemma write_keeps_upd fs ino st fs1 maj1 :
  write_keeps fs ino st ->
  length (inodes fs1) = length (inodes (w_fs st)) ->
  (forall y, inode_rep_parent (inode_at fs1 y) = inode_rep_parent (inode_at (w_fs st) y)) ->
  (forall y, y <> ino -> size (inode_at fs1 y) = size (inode_at (w_fs st) y)) ->
  (0 <= ino < Z.of_nat (length (inodes fs)) ->
   size (inode_at fs1 ino) - maj1 = size (inode_at (w_fs st) ino) - w_maj st) ->
  w_maj st <= maj1 ->
  forall l j t, write_keeps fs ino (mkW fs1 l j maj1 t).
Proof.
  intros (Hl & Hp & Hs & Hi & Hm) Hl1 Hp1 Hs1 Hi1 Hm1 l j t.
  unfold write_keeps; cbn [w_fs w_maj].
  split; [congruence|]. split; [intros y; rewrite Hp1; apply Hp|].
  split; [intros y Hy; rewrite Hs1 by done; by apply Hs|].
  split; [intros Hr; specialize (Hi Hr); specialize (Hi1 Hr); lia | lia].
Qed.

Lemma write_step_keeps fs ino texte st :
  write_keeps fs ino st -> write_keeps fs ino (write_step ino texte st).
Proof.
  intros Hk. unfold write_step.
  destruct (fread1 _) as [r f1].
  set (tmp := match r with Some c => c | None => w_tmp st end).
  destruct (tmp =? 0).
  - apply (write_keeps_upd fs ino st); [exact Hk | | | | | lia].
    + unfold with_file, upd_inode, with_inodes; simpl. apply arr_set_length.
    + intros y. change (inode_at (with_file ?f ?x) y) with (inode_at x y).
      by rewrite (upd_inode_keeps inode_rep_parent).
    + intros y Hy. change (inode_at (with_file ?f ?x) y) with (inode_at x y).
      by rewrite inode_at_upd_inode_ne.
    + intros Hr. change (inode_at (with_file ?f ?x) ino) with (inode_at x ino).
      destruct Hk as (Hl & _). rewrite inode_at_upd_inode_eq by lia. simpl. lia.
  - apply (write_keeps_upd fs ino st); [exact Hk | done | done | done | | lia].
    intros _. reflexivity.
Qed.

Lemma write_loop_keeps n fs ino texte sz nb st :
  write_keeps fs ino st -> write_keeps fs ino (write_loop n ino texte sz nb st).
Proof.
  revert st. induction n as [|n IH]; intros st Hk; [exact Hk|].
  change (write_loop (S n) ino texte sz nb st) with
    (if (w_j st <? sz) && (to_size_t (w_lecteur st) <=? block_end nb)
     then write_loop n ino texte sz nb (write_step ino texte st) else st).
  destruct (_ && _); [|exact Hk]. apply IH. by apply write_step_keeps.
Qed.

Lemma write_blocks_keeps n fs ino texte sz bi st :
  write_keeps fs ino st -> write_keeps fs ino (write_blocks n ino texte sz bi st).
Proof.
  revert bi st. induction n as [|n IH]; intros bi st Hk; [exact Hk|].
  change (write_blocks (S n) ino texte sz bi st) with
    (if w_j st <? sz then
        let block_index := bi + 1 in
        let nb0 := arr_get (-1) (blocks (inode_at (w_fs st) ino)) block_index in
        let '(num_block, fs1) :=
          if nb0 =? -1 then
            let '(b, fsa) := allocate_block (w_fs st) in
            (b, upd_inode ino (fun n => set_blocks (arr_set (blocks n) block_index b) n) fsa)
          else (nb0, w_fs st) in
        if num_block =? -1
        then mkW fs1 (w_lecteur st) (w_j st) (w_maj st) (w_tmp st)
        else
          let st1 := mkW fs1 (to_int (block_start num_block))
                         (w_j st) (w_maj st) (w_tmp st) in
          write_blocks n ino texte sz block_index
            (write_loop (Z.to_nat (sz - w_j st1)) ino texte sz num_block st1)
      else st).
  destruct (w_j st <? sz); [|exact Hk]. cbv zeta.
  set (nb0 := arr_get (-1) (blocks (inode_at (w_fs st) ino)) (bi + 1)).
  assert (Hfs1 : forall fs1 l,
            (fs1 = w_fs st \/
             fs1 = upd_inode ino (fun n => set_blocks
                       (arr_set (blocks n) (bi + 1) (fst (allocate_block (w_fs st)))) n)
                     (snd (allocate_block (w_fs st)))) ->
            write_keeps fs ino (mkW fs1 l (w_j st) (w_maj st) (w_tmp st))).
  { intros fs1 l [->| ->].
    - apply (write_keeps_upd fs ino st); [exact Hk | done | done | done | | lia].
      intros _. reflexivity.
    - pose proof (allocate_block_inodes (w_fs st)) as Ha.
      apply (write_keeps_upd fs ino st); [exact Hk | | | | | lia].
      + unfold upd_inode, with_inodes; simpl. rewrite arr_set_length. by rewrite Ha.
      + intros y. rewrite (upd_inode_keeps inode_rep_parent) by done.
        by rewrite (inode_at_ext _ _ y Ha).
      + intros y Hy. rewrite (upd_inode_keeps size) by done.
        by rewrite (inode_at_ext _ _ y Ha).
      + intros _. rewrite (upd_inode_keeps size) by done.
        by rewrite (inode_at_ext _ _ ino Ha). }
  destruct (nb0 =? -1).
  - destruct (allocate_block (w_fs st)) as [b fsa] eqn:Ea. cbn [fst snd] in Hfs1.
    destruct (b =? -1); [apply Hfs1; by right|].
    apply IH. apply write_loop_keeps. apply Hfs1. by right.
  - destruct (nb0 =? -1); [apply Hfs1; by left|].
    apply IH. apply write_loop_keeps. apply Hfs1. by left.
Qed.

(** For every call of [write_file] that returns a count: the count is not
    negative, the file grows by it, and so does every inode of the table on
    the chain of parents of the file, each one once.  This part of C4 holds
    whatever the bytes and the blocks. *)
Lemma write_file_sizes desc texte n fs ret fs' :
  write_file desc texte n fs = Some (ret, fs') -> ret <> -1 ->
  let ino := inode (open_at fs desc) in
  0 <= ret /\
  (0 <= ino < Z.of_nat (length (inodes fs)) ->
   size (inode_at fs' ino) = size (inode_at fs ino) + ret) /\
  (forall d, d ∈ parent_chain (Z.to_nat NUM_INODES) fs ino ->
             0 <= d < Z.of_nat (length (inodes fs)) ->
             size (inode_at fs' d) = size (inode_at fs d) + ret).
Proof.
  intros H Hret ino. unfold write_file in H. fold ino in H.
  destruct (bad_descriptor fs desc); [inversion H; lia|].
  destruct (n <? 0); [inversion H; lia|].
  destruct (has_permission fs ino "w" =? 0); [inversion H; lia|].
  destruct (negb _); [inversion H; lia|].
  destruct (find_block _ 0 _ 0) as [bi nb].
  destruct (bi =? -1); [inversion H; lia|].
  set (st2 := write_blocks _ ino texte n bi _) in H.
  assert (Hk : write_keeps fs ino st2).
  { apply write_blocks_keeps, write_loop_keeps.
    unfold write_keeps; cbn [w_fs w_maj]. repeat split; try done. intros _. lia. }
  destruct Hk as (Hl & Hp & Hs & Hi & Hm).
  destruct (update_parents _ ino (w_maj st2) (w_fs st2)) as [fs2|] eqn:Eu; [|done].
  inversion H; subst ret fs'. clear H.
  pose proof (update_parents_sizes _ _ _ fs _ _ Hp Eu) as Hsz.
  pose proof (update_parents_not_self _ _ _ fs _ _ Hp Eu) as Hself.
  split; [exact Hm|]. split.
  - intros Hr. rewrite inode_at_upd_open, Hsz, decide_False by tauto.
    rewrite Hi by exact Hr. lia.
  - intros d Hd Hr. rewrite inode_at_upd_open, Hsz.
    rewrite decide_True by (split; [exact Hd | lia]).
    rewrite Hs; [lia|]. intros ->. contradiction.
Qed.

Lemma zero_bytes_ext f f' c n :
  (forall q, c <= q -> byte_at f' q = byte_at f q) ->
  zero_bytes f' c n = zero_bytes f c n.
Proof.
  revert c. induction n as [|n IH]; intros c H; simpl; [reflexivity|].
  rewrite H by lia. rewrite IH; [reflexivity|]. intros q Hq. apply H. lia.
Qed.

Lemma block_end_bound nb : 0 <= block_end nb < 2 ^ 64.
Proof. unfold block_end, to_size_t. apply Z.mod_pos_bound. lia. Qed.

(** One turn of the loop at an offset inside the image. *)
Lemma write_step_inside ino texte st :
  0 <= w_lecteur st < len (file (w_fs st)) ->
  let st' := write_step ino texte st in
  w_lecteur st' = w_lecteur st + 1 /\
  w_j st' = w_j st + 1 /\
  w_maj st' = w_maj st + (if byte_at (file (w_fs st)) (w_lecteur st) =? 0 then 1 else 0) /\
  len (file (w_fs st')) = len (file (w_fs st)) /\
  (forall q, q <> w_lecteur st ->
     byte_at (file (w_fs st')) q = byte_at (file (w_fs st)) q).
Proof.
  intros [Hlo Hhi]. unfold write_step, fseek_set, fread1.
  destruct (Z.ltb_spec (w_lecteur st) 0) as [?|_]; [lia|]. cbn [pos len data].
  destruct (Z.ltb_spec (w_lecteur st) (len (file (w_fs st)))) as [_|?]; [|lia].
  unfold fseek_cur, fwrite1. cbn [pos len data].
  replace (w_lecteur st + 1 + -1) with (w_lecteur st) by lia.
  destruct (Z.ltb_spec (w_lecteur st) 0) as [?|_]; [lia|]. cbn [pos len data].
  fold (byte_at (file (w_fs st)) (w_lecteur st)).
  cbn [w_lecteur w_j w_maj w_fs].
  split; [reflexivity|]. split; [reflexivity|].
  split; [destruct (_ =? 0); lia|].
  assert (Hfile : forall x, file (with_file
      {| data := <[w_lecteur st:=arr_get 0 texte (w_j st)]> (data (file (w_fs st)));
         len := Z.max (len (file (w_fs st))) (w_lecteur st + 1);
         pos := w_lecteur st + 1 |} x)
      = {| data := <[w_lecteur st:=arr_get 0 texte (w_j st)]> (data (file (w_fs st)));
           len := Z.max (len (file (w_fs st))) (w_lecteur st + 1);
           pos := w_lecteur st + 1 |}) by reflexivity.
  rewrite Hfile. cbn [len data]. split; [lia|].
  intros q Hq. unfold byte_at. cbn [data]. by rewrite lookup_insert_ne.
Qed.

Lemma write_loop_inside (m : nat) ino texte sz nb st :
  0 <= w_lecteur st ->
  w_lecteur st + Z.of_nat m <= len (file (w_fs st)) ->
  w_lecteur st + Z.of_nat m <= block_end nb ->
  w_j st + Z.of_nat m = sz ->
  let st' := write_loop m ino texte sz nb st in
  w_lecteur st' = w_lecteur st + Z.of_nat m /\
  w_j st' = sz /\
  w_maj st' = w_maj st + zero_bytes (file (w_fs st)) (w_lecteur st) m.
Proof.
  revert st. induction m as [|m IH]; intros st Hlo Hlen Hend Hj.
  - change (write_loop 0 ino texte sz nb st) with st. cbv zeta.
    cbn [zero_bytes]. split; [lia|]. split; lia.
  - change (write_loop (S m) ino texte sz nb st) with
      (if (w_j st <? sz) && (to_size_t (w_lecteur st) <=? block_end nb)
       then write_loop m ino texte sz nb (write_step ino texte st) else st).
    pose proof (block_end_bound nb) as Hb.
    assert (Hs : to_size_t (w_lecteur st) = w_lecteur st)
      by (unfold to_size_t; apply Z.mod_small; lia).
    rewrite Hs.
    destruct (Z.ltb_spec (w_j st) sz) as [_|?]; [|lia].
    destruct (Z.leb_spec (w_lecteur st) (block_end nb)) as [_|?]; [|lia].
    cbn [andb].
    destruct (write_step_inside ino texte st ltac:(lia)) as (H1 & H2 & H3 & H4 & H5).
    cbv zeta in IH.
    destruct (IH (write_step ino texte st)) as (I1 & I2 & I3); [lia | lia | lia | lia |].
    cbv zeta. rewrite I1, I2, I3, H1, H3.
    split; [lia|]. split; [reflexivity|].
    cbn [zero_bytes].
    rewrite (zero_bytes_ext (file (w_fs st)) (file (w_fs (write_step ino texte st))))
      by (intros q Hq; apply H5; lia).
    lia.
Qed.

Lemma write_blocks_done n ino texte sz bi st :
  sz <= w_j st -> write_blocks n ino texte sz bi st = st.
Proof.
  intros H. destruct n as [|n]; [reflexivity|].
  unfold write_blocks. destruct (Z.ltb_spec (w_j st) sz); [lia | reflexivity].
Qed.

(** For a write that stays inside the block of the cursor and inside the
    image, the value returned is the number of offsets of
    [cursor, cursor + n) that held a zero byte before the call. *)
Lemma write_file_count_inside_block desc texte n fs ret fs' bi nb :
  write_file desc texte n fs = Some (ret, fs') -> ret <> -1 ->
  let c := tete_lecture (open_at fs desc) in
  find_block (take (Z.to_nat NUM_BLOCKS) (blocks (inode_at fs (inode (open_at fs desc)))))
             0 c 0 = (bi, nb) ->
  0 <= c -> c + n <= block_end nb -> c + n <= len (file fs) ->
  ret = zero_bytes (file fs) c (Z.to_nat n).
Proof.
  intros H Hret c Hfind Hc Hend Hlen. unfold write_file in H.
  destruct (bad_descriptor fs desc); [inversion H; lia|].
  destruct (Z.ltb_spec n 0) as [?|Hn]; [inversion H; lia|].
  destruct (has_permission fs _ "w" =? 0); [inversion H; lia|].
  destruct (negb _); [inversion H; lia|].
  fold c in H. rewrite Hfind in H.
  destruct (bi =? -1); [inversion H; lia|].
  set (st0 := mkW fs c 0 0 0) in H.
  destruct (write_loop_inside (Z.to_nat n) (inode (open_at fs desc)) texte n nb st0)
    as (H1 & H2 & H3); cbn [st0 w_lecteur w_j w_fs]; try lia.
  rewrite write_blocks_done in H by lia.
  destruct (update_parents _ _ _ _) as [fs2|]; [|done].
  inversion H; subst. rewrite H3. reflexivity.
Qed.

(** C4 at two writes.  On the fresh file, 514 bytes with a zero at index
    512: 514 is returned and added to the size of the file and of [/home]
    and [/], but only 513 offsets were written, all of them zero before.
    On a file in the last block, 513 bytes: the probe of the byte after the
    image reads nothing and counts the stale zero; 513 is returned, 512
    offsets were written and the image has kept its length. *)
Theorem write_file_counts_the_byte_past_the_block :
  option_map fst (write_file 0 payload_zero 514 session_open) = Some 514 /\
  option_map (fun r => written_offsets (snd r))
             (write_file 0 payload_zero 514 session_open) = Some 513%nat /\
  written_offsets session_open = 0%nat /\
  option_map (fun r => (size (inode_at (snd r) 4), size (inode_at (snd r) 2),
                        size (inode_at (snd r) 0)))
             (write_file 0 payload_zero 514 session_open) = Some (514, 514, 514) /\
  option_map fst (write_file 0 (replicate 513 97) 513 session_last_block) = Some 513 /\
  option_map (fun r => written_offsets (snd r))
             (write_file 0 (replicate 513 97) 513 session_last_block) = Some 512%nat /\
  written_offsets session_last_block = 0%nat /\
  option_map (fun r => len (file (snd r)))
             (write_file 0 (replicate 513 97) 513 session_last_block)
    = Some (len (file session_last_block)).
Proof. vm_compute. repeat split; reflexivity. Qed.

(** ** Write, seek, read (C5) *)

Lemma same_but_sizes_refl fs : same_but_sizes fs fs.
Proof. split; [reflexivity | intros y; repeat split]. Qed.

Lemma same_but_sizes_trans fs1 fs2 fs3 :
  same_but_sizes fs1 fs2 -> same_but_sizes fs2 fs3 -> same_but_sizes fs1 fs3.
Proof.
  intros [Ho1 H1] [Ho2 H2]. split; [congruence|]. intros y.
  destruct (H1 y) as (A1 & B1 & C1 & D1). destruct (H2 y) as (A2 & B2 & C2 & D2).
  repeat split; congruence.
Qed.

Lemma same_but_sizes_set_size fs i (g : Z -> Z) :
  same_but_sizes fs (upd_inode i (fun n => set_size (g (size n)) n) fs).
Proof.
  split; [reflexivity|]. intros y.
  repeat split; by rewrite (upd_inode_keeps _).
Qed.

Lemma same_but_sizes_with_file fs fs' f :
  same_but_sizes fs fs' -> same_but_sizes fs (with_file f fs').
Proof. intros [Ho H]. split; [exact Ho | exact H]. Qed.

Lemma write_step_same ino texte st :
  same_but_sizes (w_fs st) (w_fs (write_step ino texte st)).
Proof.
  unfold write_step. destruct (fread1 _) as [r f1]. cbn [w_fs].
  apply same_but_sizes_with_file. destruct (_ =? 0).
  - apply (same_but_sizes_set_size (w_fs st) ino (fun z => z + 1)).
  - apply same_but_sizes_refl.
Qed.

Lemma write_loop_same n ino texte sz nb st :
  same_but_sizes (w_fs st) (w_fs (write_loop n ino texte sz nb st)).
Proof.
  revert st. induction n as [|n IH]; intros st; [apply same_but_sizes_refl|].
  change (write_loop (S n) ino texte sz nb st) with
    (if (w_j st <? sz) && (to_size_t (w_lecteur st) <=? block_end nb)
     then write_loop n ino texte sz nb (write_step ino texte st) else st).
  destruct (_ && _); [|apply same_but_sizes_refl].
  eapply same_but_sizes_trans; [apply write_step_same | apply IH].
Qed.

Lemma update_parents_same n x maj fs fs' :
  update_parents n x maj fs = Some fs' ->
  same_but_sizes fs fs' /\ file fs' = file fs.
Proof.
  revert x fs. induction n as [|n IH]; intros x fs H.
  - unfold update_parents in H. destruct (x =? 0); [|done].
    inversion H; subst. split; [apply same_but_sizes_refl | reflexivity].
  - rewrite update_parents_S in H.
    destruct (x =? 0).
    + inversion H; subst. split; [apply same_but_sizes_refl | reflexivity].
    + destruct (in_table x && in_table _); [|done].
      destruct (IH _ _ H) as [Hs Hf]. split; [|exact Hf].
      eapply same_but_sizes_trans; [|exact Hs].
      apply (same_but_sizes_set_size fs _ (fun z => z + maj)).
Qed.

(** The bytes of the image after the writing loop inside a block. *)
Lemma write_loop_content (m : nat) ino texte sz nb st :
  0 <= w_lecteur st ->
  w_lecteur st + Z.of_nat m <= len (file (w_fs st)) ->
  w_lecteur st + Z.of_nat m <= block_end nb ->
  w_j st + Z.of_nat m = sz ->
  let st' := write_loop m ino texte sz nb st in
  len (file (w_fs st')) = len (file (w_fs st)) /\
  forall q, byte_at (file (w_fs st')) q =
            if decide (w_lecteur st <= q < w_lecteur st + Z.of_nat m)
            then arr_get 0 texte (w_j st + (q - w_lecteur st))
            else byte_at (file (w_fs st)) q.
Proof.
  revert st. induction m as [|m IH]; intros st Hlo Hlen Hend Hj.
  - change (write_loop 0 ino texte sz nb st) with st. cbv zeta.
    split; [reflexivity|]. intros q. rewrite decide_False by lia. reflexivity.
  - change (write_loop (S m) ino texte sz nb st) with
      (if (w_j st <? sz) && (to_size_t (w_lecteur st) <=? block_end nb)
       then write_loop m ino texte sz nb (write_step ino texte st) else st).
    pose proof (block_end_bound nb) as Hb.
    assert (Hs : to_size_t (w_lecteur st) = w_lecteur st)
      by (unfold to_size_t; apply Z.mod_small; lia).
    rewrite Hs.
    destruct (Z.ltb_spec (w_j st) sz) as [_|?]; [|lia].
    destruct (Z.leb_spec (w_lecteur st) (block_end nb)) as [_|?]; [|lia].
    cbn [andb].
    destruct (write_step_inside ino texte st ltac:(lia)) as (H1 & H2 & H3 & H4 & H5).
    cbv zeta in IH.
    destruct (IH (write_step ino texte st)) as (I1 & I2); [lia | lia | lia | lia |].
    cbv zeta. split; [lia|]. intros q. rewrite I2, H1, H2.
    destruct (decide (w_lecteur st + 1 <= q < w_lecteur st + 1 + Z.of_nat m)) as [Hq|Hq].
    + rewrite decide_True by lia. f_equal. lia.
    + destruct (decide (q = w_lecteur st)) as [->|Hne].
      * rewrite decide_True by lia. replace (w_lecteur st - w_lecteur st) with 0 by lia.
        rewrite Z.add_0_r. clear -Hlo Hlen.
        unfold write_step, fseek_set, fread1.
        destruct (Z.ltb_spec (w_lecteur st) 0) as [?|_]; [lia|]. cbn [pos len data].
        destruct (Z.ltb_spec (w_lecteur st) (len (file (w_fs st)))) as [_|?]; [|lia].
        unfold fseek_cur, fwrite1. cbn [pos len data].
        replace (w_lecteur st + 1 + -1) with (w_lecteur st) by lia.
        destruct (Z.ltb_spec (w_lecteur st) 0) as [?|_]; [lia|].
        unfold byte_at. cbn [pos len data w_fs].
        change (data (file (with_file ?f ?x))) with (data f). cbn [data].
        by rewrite lookup_insert_eq.
      * rewrite decide_False by lia. apply H5. exact Hne.
Qed.

(** The state after a write that stays inside the block of the cursor. *)
Lemma write_file_inside_block desc texte n fs ret fs' bi nb :
  write_file desc texte n fs = Some (ret, fs') -> ret <> -1 ->
  let c := tete_lecture (open_at fs desc) in
  let ino := inode (open_at fs desc) in
  find_block (take (Z.to_nat NUM_BLOCKS) (blocks (inode_at fs ino))) 0 c 0 = (bi, nb) ->
  0 <= c -> c + n <= block_end nb -> c + n <= len (file fs) ->
  opened_file fs' = arr_set (opened_file fs) desc (mkOpen ino (c + n)) /\
  same_but_sizes fs (with_opened_file (opened_file fs) fs') /\
  len (file fs') = len (file fs) /\
  forall q, byte_at (file fs') q =
            if decide (c <= q < c + n) then arr_get 0 texte (q - c)
            else byte_at (file fs) q.
Proof.
  intros H Hret c ino Hfind Hc Hend Hlen. unfold write_file in H.
  destruct (bad_descriptor fs desc); [inversion H; lia|].
  destruct (Z.ltb_spec n 0) as [?|Hn]; [inversion H; lia|].
  fold ino in H.
  destruct (has_permission fs ino "w" =? 0); [inversion H; lia|].
  destruct (negb _); [inversion H; lia|].
  fold c in H. rewrite Hfind in H.
  destruct (bi =? -1); [inversion H; lia|].
  set (st0 := mkW fs c 0 0 0) in H.
  set (st1 := write_loop (Z.to_nat n) ino texte n nb st0) in *.
  assert (I : w_lecteur st1 = c + Z.of_nat (Z.to_nat n) /\ w_j st1 = n /\
              w_maj st1 = 0 + zero_bytes (file fs) c (Z.to_nat n))
    by (apply (write_loop_inside (Z.to_nat n) ino texte n nb st0);
        unfold st0; cbn [w_lecteur w_j w_fs]; lia).
  destruct I as (H1 & H2 & H3).
  assert (L : len (file (w_fs st1)) = len (file fs) /\
              forall q, byte_at (file (w_fs st1)) q =
                if decide (c <= q < c + Z.of_nat (Z.to_nat n))
                then arr_get 0 texte (0 + (q - c)) else byte_at (file fs) q)
    by (apply (write_loop_content (Z.to_nat n) ino texte n nb st0);
        unfold st0; cbn [w_lecteur w_j w_fs]; lia).
  destruct L as (L1 & L2).
  assert (Hsame : same_but_sizes fs (w_fs st1))
    by apply (write_loop_same (Z.to_nat n) ino texte n nb st0).
  rewrite write_blocks_done in H by lia.
  destruct (update_parents _ _ _ _) as [fs2|] eqn:Eu; [|done].
  destruct (update_parents_same _ _ _ _ _ Eu) as [Hs2 Hf2].
  pose proof (same_but_sizes_trans _ _ _ Hsame Hs2) as [Ho Hi].
  inversion H; subst ret fs'. clear H.
  assert (Hopen : open_at fs2 desc = open_at fs desc)
    by (unfold open_at; by rewrite Ho).
  split; [|split; [|split]].
  - unfold upd_open. cbn [opened_file with_opened_file].
    rewrite Ho, Hopen, H1. f_equal. f_equal. lia.
  - split; [reflexivity | exact Hi].
  - change (file (upd_open ?i ?f ?x)) with (file x). rewrite Hf2. exact L1.
  - intros q. change (file (upd_open ?i ?f ?x)) with (file x). rewrite Hf2, L2.
    replace (c + Z.of_nat (Z.to_nat n)) with (c + n) by lia.
    destruct (decide _); [f_equal; lia | reflexivity].
Qed.

(** [seek_file(desc, 0, 0)] puts the cursor at the start of [blocks[0]]. *)
Lemma seek_file_to_start desc fs :
  bad_descriptor fs desc = false ->
  seek_file desc 0 0 fs =
  (Done, upd_open desc
           (fun o => mkOpen (inode o)
              (to_int (block_start
                 (arr_get (-1) (blocks (inode_at fs (inode (open_at fs desc)))) 0))))
           fs).
Proof.
  intros Hbad. unfold seek_file. rewrite Hbad.
  change (0 <? 0) with false. change (0 =? 0) with true. cbv iota.
  rewrite Nat.add_1_r. reflexivity.
Qed.

Lemma read_step_inside st :
  0 <= r_lecteur st < len (r_file st) ->
  read_step st =
  mkR (mkImage (data (r_file st)) (len (r_file st)) (r_lecteur st + 1))
      (r_lecteur st + 1) (r_j st + 1)
      (arr_set (r_texte st) (r_j st) (byte_at (r_file st) (r_lecteur st))).
Proof.
  intros [Hlo Hhi]. unfold read_step, fseek_set, fread1.
  destruct (Z.ltb_spec (r_lecteur st) 0) as [?|_]; [lia|]. cbn [pos len data].
  destruct (Z.ltb_spec (r_lecteur st) (len (r_file st))) as [_|?]; [|lia].
  reflexivity.
Qed.

(** The buffer after the reading loop inside a block. *)
Lemma read_loop_inside (m : nat) sz nb st :
  0 <= r_lecteur st ->
  r_lecteur st + Z.of_nat m <= len (r_file st) ->
  r_lecteur st + Z.of_nat m <= block_end nb ->
  r_j st + Z.of_nat m = sz ->
  0 <= r_j st ->
  let st' := read_loop m sz nb st in
  r_j st' = sz /\
  length (r_texte st') = length (r_texte st) /\
  forall k, 0 <= k < Z.of_nat (length (r_texte st)) ->
    arr_get 0 (r_texte st') k =
    if decide (r_j st <= k < sz)
    then byte_at (r_file st) (r_lecteur st + (k - r_j st))
    else arr_get 0 (r_texte st) k.
Proof.
  revert st. induction m as [|m IH]; intros st Hlo Hlen Hend Hj Hj0.
  - change (read_loop 0 sz nb st) with st. cbv zeta.
    split; [lia|]. split; [reflexivity|]. intros k Hk.
    rewrite decide_False by lia. reflexivity.
  - change (read_loop (S m) sz nb st) with
      (if (r_j st <? sz) && (to_size_t (r_lecteur st) <=? block_end nb)
       then read_loop m sz nb (read_step st) else st).
    pose proof (block_end_bound nb) as Hb.
    assert (Hs : to_size_t (r_lecteur st) = r_lecteur st)
      by (unfold to_size_t; apply Z.mod_small; lia).
    rewrite Hs.
    destruct (Z.ltb_spec (r_j st) sz) as [_|?]; [|lia].
    destruct (Z.leb_spec (r_lecteur st) (block_end nb)) as [_|?]; [|lia].
    cbn [andb]. rewrite read_step_inside by lia.
    set (st1 := mkR _ _ _ _).
    cbv zeta in IH.
    assert (I : r_j (read_loop m sz nb st1) = sz /\
                length (r_texte (read_loop m sz nb st1)) = length (r_texte st1) /\
                forall k, 0 <= k < Z.of_nat (length (r_texte st1)) ->
                  arr_get 0 (r_texte (read_loop m sz nb st1)) k =
                  if decide (r_j st1 <= k < sz)
                  then byte_at (r_file st1) (r_lecteur st1 + (k - r_j st1))
                  else arr_get 0 (r_texte st1) k)
      by (apply IH; unfold st1; cbn [r_lecteur r_file r_j len]; lia).
    destruct I as (I1 & I2 & I3).
    cbv zeta. rewrite I1, I2. unfold st1 at 1. cbn [r_texte].
    rewrite arr_set_length.
    split; [reflexivity|]. split; [reflexivity|]. intros k Hk.
    rewrite I3 by (unfold st1; cbn [r_texte]; rewrite arr_set_length; exact Hk).
    unfold st1. cbn [r_lecteur r_file r_j r_texte].
    destruct (decide (r_j st + 1 <= k < sz)) as [Hq|Hq].
    + rewrite decide_True by lia. unfold byte_at. cbn [data].
      replace (r_lecteur st + 1 + (k - (r_j st + 1))) with (r_lecteur st + (k - r_j st))
        by lia.
      reflexivity.
    + destruct (decide (k = r_j st)) as [->|Hne].
      * rewrite decide_True by lia. rewrite arr_get_set_eq by lia.
        replace (r_lecteur st + (r_j st - r_j st)) with (r_lecteur st) by lia.
        reflexivity.
      * rewrite decide_False by lia. by rewrite arr_get_set_ne.
Qed.

Lemma read_blocks_done n bl sz bi st :
  sz <= r_j st -> read_blocks n bl sz bi st = (Done, st).
Proof.
  intros H. destruct n as [|n]; [reflexivity|].
  unfold read_blocks. destruct (Z.ltb_spec (r_j st) sz); [lia | reflexivity].
Qed.

(** [read_file] from a cursor with [n] bytes left in its block: the buffer
    gets the [n] bytes under the cursor. *)
Lemma read_file_inside_block desc texte n fs bi nb :
  bad_descriptor fs desc = false -> 0 <= n ->
  let c := tete_lecture (open_at fs desc) in
  let ino := inode (open_at fs desc) in
  (negb (type (inode_at fs ino) =? 1) && negb (type (inode_at fs ino) =? 2)) = false ->
  has_permission fs ino "r" <> 0 ->
  find_block (take (Z.to_nat NUM_BLOCKS) (blocks (inode_at fs ino))) 0 c 0 = (bi, nb) ->
  bi <> -1 ->
  0 <= c -> c + n <= block_end nb -> c + n <= len (file fs) ->
  n < Z.of_nat (length texte) ->
  let buf := snd (fst (read_file desc texte n fs)) in
  length buf = length texte /\
  forall k, 0 <= k < n -> arr_get 0 buf k = byte_at (file fs) (c + k).
Proof.
  intros Hbad Hn c ino Hty Hperm Hfind Hbi Hc Hend Hlen Hbuf.
  unfold read_file. rewrite Hbad.
  destruct (Z.ltb_spec n 0) as [?|_]; [lia|]. fold ino. rewrite Hty.
  destruct (Z.eqb_spec (has_permission fs ino "r") 0) as [?|_]; [done|].
  fold c. rewrite Hfind.
  destruct (Z.eqb_spec bi (-1)) as [?|_]; [done|].
  set (st0 := mkR (file fs) c 0 texte).
  assert (I : r_j (read_loop (Z.to_nat n) n nb st0) = n /\
              length (r_texte (read_loop (Z.to_nat n) n nb st0)) = length texte /\
              forall k, 0 <= k < Z.of_nat (length texte) ->
                arr_get 0 (r_texte (read_loop (Z.to_nat n) n nb st0)) k =
                if decide (0 <= k < n) then byte_at (file fs) (c + (k - 0))
                else arr_get 0 texte k)
    by (apply (read_loop_inside (Z.to_nat n) n nb st0);
        unfold st0; cbn [r_lecteur r_j r_file r_texte]; lia).
  destruct I as (H1 & H2 & H3).
  rewrite read_blocks_done by lia.
  cbv zeta. cbn [fst snd]. rewrite arr_set_length.
  split; [exact H2|]. intros k Hk.
  rewrite arr_get_set_ne by lia.
  rewrite H3 by lia. rewrite decide_True by lia. f_equal. lia.
Qed.

Lemma zero_bytes_nonneg f c n : 0 <= zero_bytes f c n.
Proof.
  revert c. induction n as [|n IH]; intros c; cbn [zero_bytes]; [lia|].
  specialize (IH (c + 1)). destruct (_ =? 0); lia.
Qed.

Lemma has_permission_ext fs fs' i perm :
  permissions (inode_at fs' i) = permissions (inode_at fs i) ->
  has_permission fs' i perm = has_permission fs i perm.
Proof. intros H. unfold has_permission. by rewrite H. Qed.

Lemma update_parents_at_root n maj fs : update_parents n 0 maj fs = Some fs.
Proof. by destruct n. Qed.

(** Two steps are enough when the parent of the parent is the root, the
    inode and its parent being in the table. *)
Lemma update_parents_grandchild n x maj fs :
  in_table x = true -> in_table (inode_rep_parent (inode_at fs x)) = true ->
  inode_rep_parent (inode_at fs (inode_rep_parent (inode_at fs x))) = 0 ->
  is_Some (update_parents (S (S n)) x maj fs).
Proof.
  intros Hx Hp Hpp. rewrite update_parents_S.
  destruct (x =? 0); [done|]. rewrite Hx, Hp. cbn [andb].
  set (p := inode_rep_parent (inode_at fs x)) in *.
  set (fs1 := upd_inode p _ fs).
  rewrite update_parents_S.
  destruct (p =? 0); [done|].
  unfold fs1 at 1 2 4. rewrite (upd_inode_keeps inode_rep_parent) by done.
  rewrite Hpp, Hp. change (in_table 0) with true. cbn [andb].
  rewrite update_parents_at_root. done.
Qed.

(** A write inside the block returns when the parent of the parent of the
    file is the root. *)
Lemma write_file_inside_block_returns desc texte n fs bi nb :
  let c := tete_lecture (open_at fs desc) in
  let ino := inode (open_at fs desc) in
  bad_descriptor fs desc = false -> 0 <= n ->
  has_permission fs ino "w" <> 0 -> type (inode_at fs ino) = 1 ->
  find_block (take (Z.to_nat NUM_BLOCKS) (blocks (inode_at fs ino))) 0 c 0 = (bi, nb) ->
  bi <> -1 ->
  0 <= c -> c + n <= block_end nb -> c + n <= len (file fs) ->
  in_table (inode_rep_parent (inode_at fs ino)) = true ->
  inode_rep_parent (inode_at fs (inode_rep_parent (inode_at fs ino))) = 0 ->
  exists ret fs', write_file desc texte n fs = Some (ret, fs') /\ ret <> -1.
Proof.
  intros c ino Hbad Hn Hw Hty Hfind Hbi Hc Hend Hlen Hpt Hpp.
  assert (Hit : in_table ino = true).
  { unfold has_permission in Hw. unfold in_table.
    destruct (Z.ltb_spec ino 0); [done|].
    destruct (Z.geb_spec ino NUM_INODES); [done|].
    apply andb_true_iff. split; [apply Z.leb_le | apply Z.ltb_lt]; lia. }
  unfold write_file. rewrite Hbad.
  destruct (Z.ltb_spec n 0) as [?|_]; [lia|]. fold ino.
  destruct (Z.eqb_spec (has_permission fs ino "w") 0) as [?|_]; [done|].
  rewrite Hty. change (negb (1 =? 1)) with false. cbv iota.
  fold c. rewrite Hfind.
  destruct (Z.eqb_spec bi (-1)) as [?|_]; [done|].
  set (st0 := mkW fs c 0 0 0).
  set (st1 := write_loop (Z.to_nat n) ino texte n nb st0).
  assert (I : w_lecteur st1 = c + Z.of_nat (Z.to_nat n) /\ w_j st1 = n /\
              w_maj st1 = 0 + zero_bytes (file fs) c (Z.to_nat n))
    by (apply (write_loop_inside (Z.to_nat n) ino texte n nb st0);
        unfold st0; cbn [w_lecteur w_j w_fs]; lia).
  destruct I as (H1 & H2 & H3).
  assert (Hsame : same_but_sizes fs (w_fs st1))
    by apply (write_loop_same (Z.to_nat n) ino texte n nb st0).
  rewrite write_blocks_done by lia.
  destruct Hsame as [_ Hi].
  assert (Hpar : forall y, inode_rep_parent (inode_at (w_fs st1) y)
                           = inode_rep_parent (inode_at fs y))
    by (intros y; apply Hi).
  destruct (update_parents_grandchild 254 ino (w_maj st1) (w_fs st1)) as [fs2 E].
  { exact Hit. }
  { by rewrite Hpar. }
  { by rewrite !Hpar. }
  change (Z.to_nat NUM_INODES) with (S (S 254)).
  rewrite E.
  eexists _, _. split; [reflexivity|].
  pose proof (zero_bytes_nonneg (file fs) c (Z.to_nat n)). lia.
Qed.

(** A file open at the start of its first block, in a directory right under
    the root: a string that fits in the block, whatever its bytes, is read
    back as it was written. *)
Lemma round_trip_on_inside_block fs (b : list Z) ino c :
  let n := Z.of_nat (length b) in
  (0 < length (opened_file fs))%nat ->
  open_at fs 0 = mkOpen ino c -> ino <> -1 ->
  type (inode_at fs ino) = 1 ->
  has_permission fs ino "w" <> 0 -> has_permission fs ino "r" <> 0 ->
  find_block (take (Z.to_nat NUM_BLOCKS) (blocks (inode_at fs ino))) 0 c 0 = (0, 0) ->
  to_int (block_start (arr_get (-1) (blocks (inode_at fs ino)) 0)) = c ->
  0 <= c -> c + n <= block_end 0 -> c + n <= len (file fs) ->
  in_table (inode_rep_parent (inode_at fs ino)) = true ->
  inode_rep_parent (inode_at fs (inode_rep_parent (inode_at fs ino))) = 0 ->
  round_trip_on fs b = Some b.
Proof.
  intros n Hopen Ho Hino Hty Hw Hr Hfind Hstart Hc Hend Hlen Hpt Hpp.
  assert (Hbad : bad_descriptor fs 0 = false).
  { unfold bad_descriptor. rewrite Ho. cbn [inode].
    destruct (Z.eqb_spec ino (-1)); [done|]. reflexivity. }
  unfold round_trip_on. fold n.
  (* the write *)
  destruct (write_file_inside_block_returns 0 b n fs 0 0) as (ret & fs1 & W & Hret);
    rewrite ?Ho; cbn [inode tete_lecture]; try assumption; try lia.
  rewrite W.
  destruct (write_file_inside_block 0 b n fs ret fs1 0 0 W Hret)
    as (Ho1 & [_ Hi1] & Hl1 & Hby1);
    rewrite ?Ho; cbn [inode tete_lecture]; try assumption.
  rewrite Ho in Ho1, Hby1. cbn [inode tete_lecture] in Ho1, Hby1.
  assert (Hopen1 : open_at fs1 0 = mkOpen ino (c + n)).
  { unfold open_at. rewrite Ho1. apply arr_get_set_eq. lia. }
  assert (Hbad1 : bad_descriptor fs1 0 = false).
  { unfold bad_descriptor. rewrite Hopen1. cbn [inode].
    destruct (Z.eqb_spec ino (-1)); [done|]. reflexivity. }
  destruct (Hi1 ino) as (Hty1 & Hperm1 & Hbl1 & _).
  change (inode_at (with_opened_file (opened_file fs) fs1) ino)
    with (inode_at fs1 ino) in Hty1, Hperm1, Hbl1.
  (* the seek *)
  rewrite (seek_file_to_start 0 fs1 Hbad1). cbn [snd].
  rewrite Hopen1. cbn [inode]. rewrite Hbl1, Hstart.
  set (fs2 := upd_open 0 _ fs1).
  assert (Hopen2 : open_at fs2 0 = mkOpen ino c).
  { unfold fs2. rewrite open_at_upd_open_eq.
    - by rewrite Hopen1.
    - rewrite Ho1, arr_set_length. lia. }
  assert (Hbad2 : bad_descriptor fs2 0 = false).
  { unfold bad_descriptor. rewrite Hopen2. cbn [inode].
    destruct (Z.eqb_spec ino (-1)); [done|]. reflexivity. }
  assert (Hin2 : inode_at fs2 ino = inode_at fs1 ino) by apply inode_at_upd_open.
  (* the read *)
  destruct (read_file_inside_block 0 (replicate (S (length b)) 0) n fs2 0 0)
    as (Hlb & Hbuf);
    rewrite ?Hopen2; cbn [inode tete_lecture]; rewrite ?Hin2;
    change (file fs2) with (file fs1);
    rewrite ?Hty1, ?Hbl1, ?Hty, ?Hl1, ?length_replicate;
    try assumption; try reflexivity; try lia.
  { rewrite (has_permission_ext fs fs2 ino "r") by (by rewrite Hin2). exact Hr. }
  destruct (read_file 0 (replicate (S (length b)) 0) n fs2) as [[rep buf] fs3].
  cbn [fst snd] in Hlb, Hbuf. rewrite Hopen2 in Hbuf. cbn [tete_lecture] in Hbuf.
  change (file fs2) with (file fs1) in Hbuf.
  f_equal. apply list_eq. intros i.
  destruct (decide (i < length b)%nat) as [Hi|Hi].
  - rewrite lookup_take_lt by exact Hi.
    destruct (lookup_lt_is_Some_2 buf i) as [x Hx]; [rewrite Hlb, length_replicate; lia|].
    destruct (lookup_lt_is_Some_2 b i Hi) as [y Hy].
    rewrite Hx, Hy. f_equal.
    specialize (Hbuf (Z.of_nat i) ltac:(lia)).
    rewrite Hby1 in Hbuf. rewrite decide_True in Hbuf by lia.
    replace (c + Z.of_nat i - c) with (Z.of_nat i) in Hbuf by lia.
    unfold arr_get in Hbuf.
    destruct (Z.ltb_spec (Z.of_nat i) 0) as [?|_]; [lia|].
    rewrite Nat2Z.id, Hx, Hy in Hbuf. exact Hbuf.
  - rewrite lookup_take_ge by lia. symmetry. apply lookup_ge_None. lia.
Qed.

(** On the freshly created file of [session_open], every string of at most
    512 bytes comes back. *)
Lemma round_trip_inside_block (b : list Z) :
  (length b <= 512)%nat -> round_trip b = Some b.
Proof.
  intros Hb. unfold round_trip.
  assert (Fend : block_end 0 = sizeof_Filesystem + 512) by (vm_compute; reflexivity).
  assert (Flen : len (file session_open) = sizeof_Filesystem + 524288)
    by (vm_compute; reflexivity).
  apply (round_trip_on_inside_block session_open b 4 sizeof_Filesystem).
  - vm_compute. lia.
  - vm_compute. reflexivity.
  - discriminate.
  - vm_compute. reflexivity.
  - vm_compute. discriminate.
  - vm_compute. discriminate.
  - vm_compute. reflexivity.
  - vm_compute. reflexivity.
  - vm_compute. discriminate.
  - rewrite Fend. lia.
  - rewrite Flen. lia.
  - vm_compute. reflexivity.
  - vm_compute. reflexivity.
Qed.

(** C5 at a 514-byte string: the writing loop runs to the first byte after
    the block ([lecteur <= ...] where the search of the block has [<]), so
    byte 512 lands on the first byte of the next block, where byte 513
    replaces it; what is read back has [c] at index 512, not [b].  A string
    of at most 513 bytes comes back as written. *)
Theorem round_trip_fails_across_blocks :
  round_trip payload_abc = Some (replicate 512 97 ++ [99; 99]) /\
  round_trip payload_abc <> Some payload_abc /\
  round_trip (bytes_of "hello") = Some (bytes_of "hello") /\
  round_trip (replicate 512 97) = Some (replicate 512 97) /\
  round_trip (replicate 512 97 ++ [98]) = Some (replicate 512 97 ++ [98]).
Proof.
  assert (E : round_trip payload_abc = Some (replicate 512 97 ++ [99; 99]))
    by (vm_compute; reflexivity).
  split; [exact E|]. split; [|repeat split; vm_compute; reflexivity].
  intros H. rewrite E in H. vm_compute in H. discriminate H.
Qed.

(** ** Failure and mutation (C6) *)

(** A test of the source whose failing branch returns at once with the
    state untouched. *)
Ltac failing_test :=
  match goal with
  | |- context [if ?b then _ else _] =>
      destruct b eqn:?; [right; first [reflexivity | right; reflexivity] |]
  end.

(** [create_file] undoes what it did before it returns -1. *)
Lemma create_file_fails now name perms d fs fs1 :
  create_file now name perms d fs = (-1, fs1) -> fs1 = fs.
Proof.
  unfold create_file.
  destruct (_ =? 0); [intros H; by inversion H|].
  destruct (negb _); [intros H; by inversion H|].
  set (i := first_free_inode (take (Z.to_nat NUM_INODES) (inodes fs)) 0).
  destruct (Z.eqb_spec i (-1)) as [|Hi]; [intros H; by inversion H|].
  destruct (first_free_inode_at fs i eq_refl Hi) as (Hr & _ & Hs).
  destruct (allocate_block (upd_inode i (set_size 0) fs)) as [block fs2] eqn:Ea.
  destruct (Z.eqb_spec block (-1)) as [->|Hb].
  - apply allocate_block_fail in Ea. subst fs2.
    rewrite upd_inode_reserve_undo by assumption. intros H. by inversion H.
  - destruct (_ =? -1).
    + rewrite (allocate_then_free _ _ _ Ea Hb).
      rewrite upd_inode_reserve_undo by assumption. intros H. by inversion H.
    + intros H. apply (f_equal fst) in H. cbn [fst] in H. lia.
Qed.

(** [create_directory] returns -1 from its tests only. *)
Lemma create_directory_fails now name d fs fs1 :
  create_directory now name d fs = (-1, fs1) -> fs1 = fs.
Proof.
  unfold create_directory.
  destruct (Z.eqb_spec (first_free_inode (take (Z.to_nat NUM_INODES) (inodes fs)) 0) (-1))
    as [|Hi]; [intros H; by inversion H|].
  destruct (negb _); [intros H; by inversion H|].
  destruct (_ =? -1); [intros H; by inversion H|].
  intros H. apply (f_equal fst) in H. cbn [fst] in H. lia.
Qed.

(** [write_file] returns -1 from its tests only, before any store. *)
Lemma write_file_fails desc texte n fs r fs' :
  write_file desc texte n fs = Some (r, fs') -> 0 <= r \/ (r = -1 /\ fs' = fs).
Proof.
  intros H. unfold write_file in H.
  set (ino := inode (open_at fs desc)) in *.
  destruct (bad_descriptor fs desc); [right; by inversion H|].
  destruct (n <? 0); [right; by inversion H|].
  destruct (has_permission fs ino "w" =? 0); [right; by inversion H|].
  destruct (negb _); [right; by inversion H|].
  destruct (find_block _ 0 _ 0) as [bi nb].
  destruct (bi =? -1); [right; by inversion H|].
  set (st2 := write_blocks _ ino texte n bi _) in H.
  assert (Hk : write_keeps fs ino st2).
  { apply write_blocks_keeps, write_loop_keeps.
    unfold write_keeps; cbn [w_fs w_maj]. repeat split; try done. intros _. lia. }
  destruct Hk as (_ & _ & _ & _ & Hm).
  destruct (update_parents _ ino (w_maj st2) (w_fs st2)) as [fs2|]; [|done].
  inversion H; subst r fs'. left. exact Hm.
Qed.

(** C6, for the operations that keep it.  Each of [move_file],
    [delete_file], [create_directory], [move_directory],
    [create_hard_link], [create_symbolic_link], [change_permissions],
    [open_file] and [close_file] either succeeds completely, returning 0,
    an index or [Done] with every store of the operation made (the state
    after the call is the one written out below), or fails, returning -1 or
    reporting [Erreur], before it has changed anything: the whole state, so
    the inode table, the directory tables and the block bitmap, is then
    what it was before the call.  Each of [delete_directory], [write_file],
    [copy_file] and [copy_directory] either reports success (0, a count, an
    index) or fails, returning -1, before it has changed anything.
    [delete_directory] and [copy_directory] fail at once when one of their
    tests does; past the tests they return, or have no result ([None]: the
    directories form a cycle, or a parent loop of [write_file] has no
    result); so have [create_symbolic_link] when the resolver of the target
    path leaves the table, and [write_file] and [copy_file] by the parent
    loop. *)
Theorem failed_operation_leaves_the_state (now : Z) (fs : Filesystem) :
  (forall fuel dirname parent,
     let d := rechInode dirname (dir_at fs parent) in
     if (d =? -1) || negb (type (inode_at fs d) =? 0) || (has_permission fs d "w" =? 0)
     then delete_directory now (S fuel) dirname parent fs = Some (-1, fs)
     else delete_directory now (S fuel) dirname parent fs = None \/
          exists fs', delete_directory now (S fuel) dirname parent fs = Some (0, fs')) /\
  (forall name src dst,
     let i := rechInode name (dir_at fs src) in
     move_file now name src dst fs
       = (Done,
          upd_inode i (set_modification_time now)
            (upd_dir src (remove_entry name i)
               (upd_dir dst (fill_entry (rechEntree fs dst) name i) fs))) \/
     move_file now name src dst fs = (Erreur, fs)) /\
  (forall name dir,
     let i := rechInode name (dir_at fs dir) in
     delete_file now name dir fs
       = (Done,
          upd_dir dir (remove_entry name i)
            (upd_inode i
               (fun n => set_inode_rep_parent (-1)
                          (set_link_count 0
                            (set_modification_time now
                              (set_creation_time now
                                (set_type (-1) (set_size (-1) n))))))
               (release_blocks i fs))) \/
     delete_file now name dir fs = (Erreur, fs)) /\
  (forall name dir,
     let i := first_free_inode (take (Z.to_nat NUM_INODES) (inodes fs)) 0 in
     (i <> -1 /\
      create_directory now name dir fs
        = (i,
           upd_dir dir (fill_entry (rechEntree fs dir) name i)
             (upd_dir i
                (fun _ => replicate (Z.to_nat NUM_DIRECTORY_ENTRIES)
                                    (mkEntry EmptyString (-1)))
                (upd_inode i
                   (fun n => set_blocks (replicate (Z.to_nat NUM_BLOCKS) (-1))
                              (set_link_count 1
                                (set_permissions (strncpy 3 "rwx")
                                  (set_modification_time now
                                    (set_creation_time now
                                      (set_inode_rep_parent dir
                                        (set_type 0 (set_size 0 n))))))))
                   fs)))) \/
     create_directory now name dir fs = (-1, fs)) /\
  (forall name src dst,
     let i := rechInode name (dir_at fs src) in
     move_directory now name src dst fs
       = (0,
          upd_inode i (fun n => set_modification_time now (set_inode_rep_parent dst n))
            (upd_dir src (remove_entry name i)
               (upd_dir dst (fill_entry (rechEntree fs dst) name i) fs))) \/
     move_directory now name src dst fs = (-1, fs)) /\
  (forall link name src dst,
     let i := rechInode name (dir_at fs src) in
     create_hard_link link name src dst fs
       = (0,
          upd_inode i (fun n => set_link_count (link_count n + 1) n)
            (upd_dir dst (fill_entry (rechEntree fs dst) link i) fs)) \/
     create_hard_link link name src dst fs = (-1, fs)) /\
  (forall link target dir,
     let i := first_free_inode (take (Z.to_nat NUM_INODES) (inodes fs)) 0 in
     let b := fst (allocate_block fs) in
     let fs2 :=
       upd_inode i
         (fun n => set_blocks (arr_set (replicate (Z.to_nat NUM_BLOCKS) (-1)) 0 b)
                    (set_permissions (strncpy 3 "rwx")
                      (set_link_count 1
                        (set_inode_rep_parent dir
                          (set_modification_time now
                            (set_creation_time now
                              (set_type 2
                                (set_size (to_int (sizeof_pointer + 1)) n))))))))
         (snd (allocate_block fs)) in
     create_symbolic_link now link target dir fs = None \/
     (i <> -1 /\ b <> -1 /\
      create_symbolic_link now link target dir fs
        = Some (i,
                upd_dir dir (fill_entry (rechEntree fs dir) link i)
                  (with_file (write_string_at b 0 target (file fs2)) fs2))) \/
     create_symbolic_link now link target dir fs = Some (-1, fs)) /\
  (forall name perms dir,
     let i := rechInode name (dir_at fs dir) in
     change_permissions now name perms dir fs
       = (0,
          upd_inode i (fun n => set_modification_time now
                                  (set_permissions (strncpy 3 perms) n)) fs) \/
     change_permissions now name perms dir fs = (-1, fs)) /\
  (forall name dir,
     let i := rechInode name (dir_at fs dir) in
     let desc := first_free_slot (take (Z.to_nat MAX_FILE_OPEN) (opened_file fs)) 0 in
     (desc <> -1 /\
      open_file name dir fs
        = (desc,
           upd_open desc
             (fun _ => mkOpen i (to_int (block_start (arr_get (-1) (blocks (inode_at fs i)) 0))))
             fs)) \/
     open_file name dir fs = (-1, fs)) /\
  (forall desc,
     close_file desc fs = (Done, upd_open desc (fun _ => mkOpen (-1) (-1)) fs) \/
     close_file desc fs = (Erreur, fs)) /\
  (forall desc texte n,
     write_file desc texte n fs = None \/
     (exists r fs', write_file desc texte n fs = Some (r, fs') /\ 0 <= r) \/
     write_file desc texte n fs = Some (-1, fs)) /\
  (forall content0 filename newname src dst,
     copy_file now content0 filename newname src dst fs = None \/
     (exists i fs', copy_file now content0 filename newname src dst fs = Some (i, fs')
                    /\ i <> -1) \/
     copy_file now content0 filename newname src dst fs = Some (-1, fs)) /\
  (forall fuel garbage dirname newname src dst,
     let d := rechInode dirname (dir_at fs src) in
     if (d =? -1) || negb (type (inode_at fs d) =? 0) || (has_permission fs d "r" =? 0)
        || negb (rechInode newname (dir_at fs dst) =? -1)
        || (has_permission fs dst "w" =? 0)
     then copy_directory (S fuel) now garbage dirname newname src dst fs = Some (-1, fs)
     else
       copy_directory (S fuel) now garbage dirname newname src dst fs = None \/
       (exists i fs',
          copy_directory (S fuel) now garbage dirname newname src dst fs = Some (i, fs')
          /\ i <> -1) \/
       copy_directory (S fuel) now garbage dirname newname src dst fs = Some (-1, fs)).
Proof.
  split; [|split; [|split; [|split; [|split; [|split; [|split; [|split; [|split;
    [|split; [|split; [|split]]]]]]]]]]].
  - intros fuel dirname parent d. cbn [delete_directory]. fold d.
    destruct (d =? -1); [reflexivity|].
    destruct (negb (type (inode_at fs d) =? 0)); [reflexivity|].
    destruct (has_permission fs d "w" =? 0); [reflexivity|]. cbn [orb].
    destruct (for_loop _ _ _ _) as [fs1|]; [|left; reflexivity].
    right. eexists. reflexivity.
  - intros name src dst i. subst i. unfold move_file. do 5 failing_test.
    left. reflexivity.
  - intros name dir i. subst i. unfold delete_file. do 2 failing_test.
    left. reflexivity.
  - intros name dir i. subst i. unfold create_directory.
    destruct (Z.eqb_spec (first_free_inode (take (Z.to_nat NUM_INODES) (inodes fs)) 0) (-1))
      as [|Hi]; [right; reflexivity|].
    do 2 failing_test. left. split; [exact Hi | reflexivity].
  - intros name src dst i. subst i. unfold move_directory. do 6 failing_test.
    left. reflexivity.
  - intros link name src dst i. subst i. unfold create_hard_link. do 3 failing_test.
    left. reflexivity.
  - intros link target dir i b fs2. subst fs2 b i. unfold create_symbolic_link.
    failing_test.
    destruct (get_inode_from_path target dir fs) as [path_inode|]; [|left; reflexivity].
    failing_test.
    destruct (Z.eqb_spec (first_free_inode (take (Z.to_nat NUM_INODES) (inodes fs)) 0) (-1))
      as [|Hi]; [right; right; reflexivity|].
    failing_test.
    destruct (allocate_block fs) as [b fs1] eqn:Ea. cbn [fst snd].
    destruct (Z.eqb_spec b (-1)) as [->|Hb].
    + right. right. by rewrite (allocate_block_fail _ _ Ea).
    + right. left. split; [exact Hi|]. split; [exact Hb | reflexivity].
  - intros name perms dir i. subst i. unfold change_permissions. failing_test.
    left. reflexivity.
  - intros name dir i desc. subst i desc. unfold open_file. do 2 failing_test.
    destruct (Z.eqb_spec (first_free_slot (take (Z.to_nat MAX_FILE_OPEN) (opened_file fs)) 0) (-1))
      as [|Hd]; [right; reflexivity | left; split; [exact Hd | reflexivity]].
  - intros desc. unfold close_file. failing_test. left. reflexivity.
  - intros desc texte n.
    destruct (write_file desc texte n fs) as [[r fs']|] eqn:E; [|left; reflexivity].
    right. destruct (write_file_fails _ _ _ _ _ _ E) as [Hr|[-> ->]].
    + left. eexists _, _. split; [reflexivity | exact Hr].
    + right. reflexivity.
  - intros content0 filename newname src dst. unfold copy_file. do 4 failing_test.
    destruct (create_file now newname _ dst fs) as [i fs1] eqn:Ec.
    destruct (Z.eqb_spec i (-1)) as [->|Hi].
    + right. right. by rewrite (create_file_fails _ _ _ _ _ _ Ec).
    + destruct (open_file newname dst _) as [fd1 fs3].
      destruct (open_file filename src fs3) as [fd2 fs4].
      destruct (read_file fd2 _ _ fs4) as [[rep content1] fs5].
      destruct (write_file fd1 content1 _ fs5) as [[r fs6]|]; [|left; reflexivity].
      right. left. eexists _, _. split; [reflexivity | exact Hi].
  - intros fuel garbage dirname newname src dst d. cbn [copy_directory]. fold d.
    destruct (d =? -1); [reflexivity|].
    destruct (negb (type (inode_at fs d) =? 0)); [reflexivity|].
    destruct (has_permission fs d "r" =? 0); [reflexivity|].
    destruct (negb (rechInode newname (dir_at fs dst) =? -1)); [reflexivity|].
    destruct (has_permission fs dst "w" =? 0); [reflexivity|]. cbn [orb].
    destruct (create_directory now newname dst fs) as [i fs1] eqn:Ec.
    destruct (Z.eqb_spec i (-1)) as [->|Hi].
    + right. right. by rewrite (create_directory_fails _ _ _ _ _ Ec).
    + destruct (for_loop _ _ _ _) as [fs2|]; [|left; reflexivity].
      right. left. eexists _, _. split; [reflexivity | exact Hi].
Qed.

(** C6 as stated fails on [seek_file] and [read_file], which report an
    error after they have moved the cursor, and on [delete_directory],
    [write_file], [copy_file] and [copy_directory], which can report
    success with part of their work done.
    - A seek of 600 bytes from the start of the one-block file [a] reports
      the error after the cursor has moved 513 bytes.
    - A read of 600 bytes from the start of [a] reports that the end of the
      file is passed after the cursor has moved 513 bytes and the buffer
      has been written.
    - [remdir d] when the sub-directory [c] is write-protected returns 0
      and frees [d], the inner call on [c] having failed: inode 5 of [c]
      stays allocated and no directory names it any more.
    - A write of 600 bytes into a file whose block is the last free one
      returns 513: the first block is filled, no second block is found,
      and the size of the file is 513.
    - [copy_file a x] when the 64 descriptors are taken returns the inode
      5 of the new file [x], whose size is that of [a], 11, while none of
      the bytes of [a] (its first is 104) is in the block of [x].
    - [copy_directory d e] when the file [a] of [d] is not readable returns
      the inode 6 of the new directory [e], which holds no [a]. *)
Lemma operations_that_are_not_atomic :
  (fst (seek_file 0 600 0 session_open) = Erreur /\
   tete_lecture (open_at session_open 0) = sizeof_Filesystem /\
   tete_lecture (open_at (snd (seek_file 0 600 0 session_open)) 0) = sizeof_Filesystem + 513 /\
   snd (seek_file 0 600 0 session_open) <> session_open) /\
  (fst (fst (read_file 0 (replicate 601 7) 600 session_open)) = Erreur /\
   tete_lecture (open_at (snd (read_file 0 (replicate 601 7) 600 session_open)) 0)
     = sizeof_Filesystem + 513 /\
   take 3 (snd (fst (read_file 0 (replicate 601 7) 600 session_open))) = [0; 0; 0]) /\
  (option_map fst (delete_directory 0 3 "d" 2 session_protected_child) = Some 0 /\
   option_map (fun r => (type (inode_at (snd r) 4), type (inode_at (snd r) 5),
                         size (inode_at (snd r) 5), rechInode "d" (dir_at (snd r) 2)))
              (delete_directory 0 3 "d" 2 session_protected_child)
     = Some (-1, 0, 0, -1)) /\
  (option_map fst (write_file 0 (replicate 600 97) 600 session_last_block) = Some 513 /\
   option_map (fun r => (size (inode_at (snd r) 4), arr_get 7 (blocks (inode_at (snd r) 4)) 1))
              (write_file 0 (replicate 600 97) 600 session_last_block)
     = Some (513, -1)) /\
  (fst (open_file "a" 2 session_table_full) = -1 /\
   size (inode_at session_table_full 4) = 11 /\
   byte_at (file session_table_full)
           (block_start (arr_get (-1) (blocks (inode_at session_table_full 4)) 0)) = 104 /\
   option_map fst (copy_file 0 [] "a" "x" 2 2 session_table_full) = Some 5 /\
   option_map (fun r => (rechInode "x" (dir_at (snd r) 2), type (inode_at (snd r) 5),
                         size (inode_at (snd r) 5),
                         byte_at (file (snd r))
                                 (block_start (arr_get (-1) (blocks (inode_at (snd r) 5)) 0))))
              (copy_file 0 [] "a" "x" 2 2 session_table_full)
     = Some (5, 1, 11, 0)) /\
  (rechInode "a" (dir_at session_unreadable_child 4) = 5 /\
   has_permission session_unreadable_child 5 "r" = 0 /\
   option_map fst (copy_directory 2 0 (fun _ => []) "d" "e" 2 2 session_unreadable_child)
     = Some 6 /\
   option_map (fun r => (rechInode "e" (dir_at (snd r) 2), type (inode_at (snd r) 6),
                         rechInode "a" (dir_at (snd r) 6)))
              (copy_directory 2 0 (fun _ => []) "d" "e" 2 2 session_unreadable_child)
     = Some (6, 0, -1)).
Proof.
  split.
  { split; [vm_compute; reflexivity|]. split; [vm_compute; reflexivity|].
    split; [vm_compute; reflexivity|]. intros H.
    apply (f_equal (fun fs => tete_lecture (open_at fs 0))) in H.
    vm_compute in H. discriminate H. }
  split; [vm_compute; repeat split; reflexivity|].
  split; [vm_compute; split; reflexivity|].
  split; [vm_compute; split; reflexivity|].
  split; vm_compute; repeat split; reflexivity.
Qed.

(** ** Rollback of create_file (C7) *)

(** C7: when [create_file] has reserved an inode (the parent is writable,
    the name is free, a free inode exists) and then finds no free block or
    no free slot in the parent, it returns -1 and the whole state, so the
    inode table and the block bitmap, is what it was before the call; the
    reserved inode is free again. *)
Theorem create_file_rolls_back (now : Z) (name perms : string) (dir_inode : Z)
    (fs : Filesystem) :
  has_permission fs dir_inode "w" <> 0 ->
  rechInode name (dir_at fs dir_inode) = -1 ->
  first_free_inode (take (Z.to_nat NUM_INODES) (inodes fs)) 0 <> -1 ->
  first_zero (take (Z.to_nat NUM_BLOCKS) (free_blocks fs)) 0 = -1
    \/ rechEntree fs dir_inode = -1 ->
  let r := create_file now name perms dir_inode fs in
  fst r = -1 /\ snd r = fs /\
  inodes (snd r) = inodes fs /\ free_blocks (snd r) = free_blocks fs /\
  size (inode_at (snd r)
          (first_free_inode (take (Z.to_nat NUM_INODES) (inodes fs)) 0)) = -1.
Proof.
  intros Hperm Hname Hino Hfail.
  set (i := first_free_inode (take (Z.to_nat NUM_INODES) (inodes fs)) 0) in *.
  destruct (first_free_inode_at fs i eq_refl Hino) as (Hr & _ & Hs).
  assert (E : create_file now name perms dir_inode fs = (-1, fs)).
  { unfold create_file.
    destruct (Z.eqb_spec (has_permission fs dir_inode "w") 0) as [?|_]; [done|].
    rewrite Hname. simpl. fold i.
    destruct (Z.eqb_spec i (-1)) as [?|_]; [done|].
    destruct (allocate_block (upd_inode i (set_size 0) fs)) as [block fs2] eqn:Ea.
    destruct (Z.eqb_spec block (-1)) as [->|Hb].
    - apply allocate_block_fail in Ea. subst fs2.
      by rewrite upd_inode_reserve_undo.
    - destruct Hfail as [Hz|He].
      + rewrite allocate_block_none in Ea by done. congruence.
      + assert (rechEntree fs2 dir_inode = rechEntree fs dir_inode) as ->.
        { unfold allocate_block in Ea.
          destruct (_ =? -1) in Ea; inversion Ea; subst; done. }
        rewrite He. simpl.
        rewrite (allocate_then_free _ _ _ Ea Hb).
        by rewrite upd_inode_reserve_undo. }
  simpl. rewrite E. simpl. done.
Qed.

Lemma create_file_rolls_back_witness :
  fst (create_file 0 "a" "rw-" 2 full_disk) = -1 /\
  snd (create_file 0 "a" "rw-" 2 full_disk) = full_disk /\
  inodes (snd (create_file 0 "a" "rw-" 2 full_disk)) = inodes full_disk /\
  free_blocks (snd (create_file 0 "a" "rw-" 2 full_disk)) = free_blocks full_disk /\
  size (inode_at (snd (create_file 0 "a" "rw-" 2 full_disk))
          (first_free_inode (take (Z.to_nat NUM_INODES) (inodes full_disk)) 0)) = -1.
Proof.
  apply (create_file_rolls_back 0 "a" "rw-" 2 full_disk).
  - vm_compute. discriminate.
  - vm_compute. reflexivity.
  - vm_compute. discriminate.
  - left. vm_compute. reflexivity.
Defined.

(** ** The path resolver (C8) *)

Lemma split_slash_take_token s :
  exists tl, split_slash s = fst (take_token s) :: tl /\
             List.filter nonempty tl = components (snd (take_token s)).
Proof.
  induction s as [|c s (tl & E & F)]; simpl.
  - exists []. split; reflexivity.
  - destruct (Ascii.eqb c "/").
    + exists (split_slash s). split; reflexivity.
    + rewrite E. destruct (take_token s) as [t r]. simpl in *.
      exists tl. split; [reflexivity | exact F].
Qed.

Lemma take_token_length s :
  (String.length (snd (take_token s)) <= String.length s)%nat.
Proof.
  induction s as [|c s IH]; simpl; [lia|].
  destruct (Ascii.eqb c "/"); simpl; [lia|].
  destruct (take_token s) as [t r]. simpl in *. lia.
Qed.

(** What [strtok] returns, in terms of the components. *)
Lemma strtok_components s :
  match strtok s with
  | None => components s = []
  | Some (t, rest) =>
      components s = t :: components rest /\
      (String.length rest < String.length s)%nat
  end.
Proof.
  unfold strtok. induction s as [|c s IH]; [reflexivity|].
  cbn [skip_delim]. destruct (Ascii.eqb c "/") eqn:Ec.
  - assert (Hc : components (String c s) = components s)
      by (unfold components; simpl; rewrite Ec; reflexivity).
    rewrite Hc.
    destruct (skip_delim s) as [|c' s'] eqn:Es; [exact IH|].
    destruct (take_token (String c' s')) as [t r]. destruct IH as [IH1 IH2].
    split; [exact IH1 | simpl; lia].
  - destruct (split_slash_take_token s) as (tl & E & F).
    pose proof (take_token_length s) as Hl.
    unfold components. cbn [take_token split_slash]. rewrite Ec, E.
    destruct (take_token s) as [t r]. cbn [fst snd] in *.
    split; [simpl; by rewrite F | simpl; lia].
Qed.

(** The loop of the source against the resolver of the specification: the
    same inode when the walk stays in the table, no result otherwise. *)
Lemma walk_path_resolve fs (fuel : nat) s ino :
  (String.length s < fuel)%nat ->
  walk_path fuel fs s ino =
  if walk_in_table fs (components s) ino
  then Some (default (-1) (resolve fs (components s) ino)) else None.
Proof.
  revert s ino. induction fuel as [|fuel IH]; intros s ino Hf; [lia|].
  cbn [walk_path]. pose proof (strtok_components s) as Hs.
  destruct (strtok s) as [[t rest]|].
  - destruct Hs as [-> Hl]. cbn [resolve walk_in_table].
    unfold resolve_component, strcmp0.
    destruct (String.eqb t "."); [apply IH; lia|].
    destruct (in_table ino); cbn [negb andb]; [|reflexivity].
    destruct (String.eqb t ".."); [apply IH; lia|].
    destruct (rechInode t (dir_at fs ino) =? -1); [reflexivity | apply IH; lia].
  - rewrite Hs. reflexivity.
Qed.

Lemma strncpy_name_length n s : (String.length (strncpy_name n s) <= n)%nat.
Proof.
  revert s. induction n as [|n IH]; intros [|c s]; simpl; try lia.
  specialize (IH s). lia.
Qed.

Lemma strncpy_name_short n s : (String.length s <= n)%nat -> strncpy_name n s = s.
Proof.
  revert s. induction n as [|n IH]; intros [|c s]; simpl; intros H; try reflexivity; try lia.
  rewrite IH by lia. reflexivity.
Qed.

Lemma resolve_app fs ts1 ts2 cur :
  resolve fs (ts1 ++ ts2) cur =
  match resolve fs ts1 cur with
  | None => None
  | Some mid => resolve fs ts2 mid
  end.
Proof.
  revert cur. induction ts1 as [|t ts1 IH]; intros cur; simpl; [reflexivity|].
  destruct (resolve_component fs cur t); [apply IH | reflexivity].
Qed.

Lemma walk_in_table_app fs ts1 ts2 cur :
  walk_in_table fs (ts1 ++ ts2) cur =
  walk_in_table fs ts1 cur
  && match resolve fs ts1 cur with
     | None => true
     | Some mid => walk_in_table fs ts2 mid
     end.
Proof.
  revert cur. induction ts1 as [|t ts1 IH]; intros cur; [reflexivity|].
  cbn [app walk_in_table resolve]. unfold resolve_component.
  destruct (String.eqb t "."); [apply IH|].
  destruct (in_table cur); cbn [andb]; [|reflexivity].
  destruct (String.eqb t ".."); [apply IH|].
  destruct (_ =? -1); [reflexivity | apply IH].
Qed.

(** C8, as the code has it: the resolver works on the first 1023
    characters of [path] (its local copy).  It starts from inode 0 when
    [path] begins with '/' and from [current_dir] otherwise, and takes the
    components of the copy in turn: '.' keeps the inode, '..' moves to its
    [inode_rep_parent], any other name is looked up in the directory record
    of the inode; the result is -1 as soon as a lookup fails.  This holds
    when every '..' and every lookup is taken at an index of the table;
    otherwise the resolver reads outside [fs.inodes] or [fs.directories] and
    has no defined result.  When the last component is a name found in the
    directory reached so far, the result is the inode of that entry,
    whatever its type: a symlink is not followed. *)
Theorem get_inode_from_path_resolves (path : string) (current_dir : Z)
    (fs : Filesystem) :
  get_inode_from_path path current_dir fs
    = (if walk_in_table fs (components (strncpy_name 1023 path))
                        (if starts_with_slash path then 0 else current_dir)
       then Some (default (-1)
                    (resolve fs (components (strncpy_name 1023 path))
                             (if starts_with_slash path then 0 else current_dir)))
       else None)
  /\ ((String.length path <= 1023)%nat ->
      walk_in_table fs (components path)
                    (if starts_with_slash path then 0 else current_dir) = true ->
      get_inode_from_path path current_dir fs = Some (resolve_path fs path current_dir))
  /\ (forall ts t cur i,
        components (strncpy_name 1023 path) = ts ++ [t] ->
        walk_in_table fs (ts ++ [t])
                      (if starts_with_slash path then 0 else current_dir) = true ->
        resolve fs ts (if starts_with_slash path then 0 else current_dir) = Some cur ->
        t <> "."%string -> t <> ".."%string ->
        rechInode t (dir_at fs cur) = i -> i <> -1 ->
        type (inode_at fs i) = 2 ->
        get_inode_from_path path current_dir fs = Some i).
Proof.
  assert (E : get_inode_from_path path current_dir fs
    = (if walk_in_table fs (components (strncpy_name 1023 path))
                        (if starts_with_slash path then 0 else current_dir)
       then Some (default (-1)
                    (resolve fs (components (strncpy_name 1023 path))
                             (if starts_with_slash path then 0 else current_dir)))
       else None)).
  { unfold get_inode_from_path. rewrite walk_path_resolve by lia.
    destruct path as [|c p]; reflexivity. }
  split; [exact E|]. split.
  - intros Hl Hin. rewrite E. unfold resolve_path.
    rewrite strncpy_name_short by exact Hl. by rewrite Hin.
  - intros ts t cur i Hc Hin Hr Hdot Hdd Hi Hne _.
    rewrite E, Hc, Hin, resolve_app, Hr. cbn [resolve]. unfold resolve_component.
    destruct (String.eqb_spec t "."); [done|].
    destruct (String.eqb_spec t ".."); [done|].
    rewrite Hi. destruct (Z.eqb_spec i (-1)); [done | reflexivity].
Qed.

Lemma get_inode_from_path_resolves_witness :
  get_inode_from_path "/usr/./local/../../home" 2 session_sym
    = Some (resolve_path session_sym "/usr/./local/../../home" 2) /\
  get_inode_from_path "../home//ls" 2 session_sym = Some 5.
Proof.
  destruct (get_inode_from_path_resolves "/usr/./local/../../home" 2 session_sym)
    as (_ & H1 & _).
  destruct (get_inode_from_path_resolves "../home//ls" 2 session_sym)
    as (_ & _ & H2).
  split.
  - apply H1; [vm_compute; lia | vm_compute; reflexivity].
  - apply (H2 [".."; "home"]%string "ls"%string 2 5).
    + vm_compute. reflexivity.
    + vm_compute. reflexivity.
    + vm_compute. reflexivity.
    + discriminate.
    + discriminate.
    + vm_compute. reflexivity.
    + discriminate.
    + vm_compute. reflexivity.
Defined.

(** C8 as stated fails on a path longer than the local copy: the last
    component of [long_path] is [homework], which the root does not hold, yet
    the resolver answers 2, the inode of [home]. *)
Lemma get_inode_from_path_truncates :
  String.length long_path = 1027%nat /\
  rechInode "homework" (dir_at (forced_init 0 0) 0) = -1 /\
  resolve_path (forced_init 0 0) long_path 0 = -1 /\
  get_inode_from_path long_path 0 (forced_init 0 0) = Some 2.
Proof. vm_compute. repeat split; reflexivity. Qed.

(** The walk that leaves the table.  After [touch a], [ln a b /home] and
    [rm a] the entry [b] names the free inode 4, whose parent is -1: on
    [b/../..] the second [..] makes the source read [fs.inodes[-1]], and the
    resolver has no result. *)
Lemma get_inode_from_path_leaves_the_table :
  let fs := snd (delete_file 0 "a" 2 session_ln) in
  rechInode "b" (dir_at fs 2) = 4 /\
  inode_rep_parent (inode_at fs 4) = -1 /\
  get_inode_from_path "b/.." 2 fs = Some (-1) /\
  walk_in_table fs ["b"; ".."; ".."]%string 2 = false /\
  get_inode_from_path "b/../.." 2 fs = None.
Proof. vm_compute. repeat split; reflexivity. Qed.

(** ** open_file and the permissions (C9) *)

Lemma first_free_slot_least l s i :
  first_free_slot l s = i -> i <> -1 -> 0 <= s ->
  forall (k : nat) o, Z.of_nat k < i - s -> l !! k = Some o -> inode o <> -1.
Proof.
  revert s. induction l as [|c l IH]; intros s H Hne Hs k o Hk Ho; simpl in *; [congruence|].
  destruct (Z.eqb_spec (inode c) (-1)) as [Hc|Hc]; [lia|].
  destruct k as [|k]; simpl in Ho; [congruence|].
  apply (IH (s + 1) H Hne ltac:(lia) k o); [lia | exact Ho].
Qed.

Lemma open_at_upd_open fs i f k :
  open_at (upd_open i f fs) k =
  if decide (i = k /\ 0 <= i < Z.of_nat (length (opened_file fs)))
  then f (open_at fs i) else open_at fs k.
Proof.
  unfold upd_open, open_at; simpl.
  destruct (decide _) as [[-> Hr]|Hn].
  - by rewrite arr_get_set_eq.
  - destruct (decide (i = k)) as [->|Hne].
    + unfold arr_set, arr_get. destruct (Z.ltb_spec k 0); [done|].
      rewrite list_insert_ge by lia. done.
    + by rewrite arr_get_set_ne.
Qed.

Lemma first_free_slot_of_table fs k :
  0 <= k < MAX_FILE_OPEN -> inode (open_at fs k) = -1 ->
  let desc := first_free_slot (take (Z.to_nat MAX_FILE_OPEN) (opened_file fs)) 0 in
  0 <= desc < MAX_FILE_OPEN /\ 0 <= desc < Z.of_nat (length (opened_file fs)).
Proof.
  intros Hk Hfree desc.
  assert (Hl : exists o, opened_file fs !! Z.to_nat k = Some o /\ inode o = -1).
  { unfold open_at, arr_get in Hfree. destruct (Z.ltb_spec k 0); [lia|].
    destruct (opened_file fs !! Z.to_nat k) as [o|] eqn:E; simpl in Hfree; [|done].
    by exists o. }
  destruct Hl as (o & Ho & Hi).
  assert (Hne : desc <> -1).
  { apply (first_free_slot_found _ 0 (Z.to_nat k) o); [lia | | done].
    rewrite lookup_take_lt; [done | lia]. }
  destruct (first_free_slot_spec _ 0 desc eq_refl Hne ltac:(lia)) as [Hr _].
  rewrite length_take in Hr. lia.
Qed.

Lemma read_file_without_r desc texte n fs :
  bad_descriptor fs desc = false ->
  (negb (type (inode_at fs (inode (open_at fs desc))) =? 1)
   && negb (type (inode_at fs (inode (open_at fs desc))) =? 2)) = false ->
  has_permission fs (inode (open_at fs desc)) "r" = 0 ->
  read_file desc texte n fs = (Erreur, texte, fs).
Proof.
  intros Hbad Hty Hr. unfold read_file. rewrite Hbad.
  destruct (n <? 0); [reflexivity|]. rewrite Hty, Hr. reflexivity.
Qed.

Lemma write_file_without_w desc texte n fs :
  bad_descriptor fs desc = false ->
  has_permission fs (inode (open_at fs desc)) "w" = 0 ->
  write_file desc texte n fs = Some (-1, fs).
Proof.
  intros Hbad Hw. unfold write_file. rewrite Hbad.
  destruct (n <? 0); [reflexivity|]. rewrite Hw. reflexivity.
Qed.

(** C9: a name that resolves to a file or symlink inode is opened as soon
    as one slot of the open-file table is free: the descriptor returned is
    a valid index, the lowest one whose slot was free before the call, and
    that slot now holds the inode; the other slots and the rest of the
    state are as they were; the permission field of the inode plays no part
    (any other field gives the same descriptor); the permissions are
    enforced by [read_file] (r) and [write_file] (w), which fail on the
    descriptor and leave the state as it is. *)
Theorem open_file_checks_no_permission (name : string) (parent : Z) (fs : Filesystem)
    (i k : Z) :
  rechInode name (dir_at fs parent) = i -> i <> -1 ->
  type (inode_at fs i) = 1 \/ type (inode_at fs i) = 2 ->
  0 <= k < MAX_FILE_OPEN -> inode (open_at fs k) = -1 ->
  let desc := fst (open_file name parent fs) in
  let fs' := snd (open_file name parent fs) in
  0 <= desc < MAX_FILE_OPEN /\
  inode (open_at fs' desc) = i /\
  (forall p, fst (open_file name parent (upd_inode i (set_permissions p) fs)) = desc) /\
  (forall texte n, has_permission fs' i "r" = 0 ->
     read_file desc texte n fs' = (Erreur, texte, fs')) /\
  (forall texte n, has_permission fs' i "w" = 0 ->
     write_file desc texte n fs' = Some (-1, fs')) /\
  inode (open_at fs desc) = -1 /\
  desc <= k /\
  (forall j, 0 <= j < desc -> inode (open_at fs j) <> -1) /\
  (forall j, j <> desc -> open_at fs' j = open_at fs j) /\
  fs' = with_opened_file (opened_file fs') fs.
Proof.
  intros Hi Hne Hty Hk Hfree.
  destruct (first_free_slot_of_table fs k Hk Hfree) as [Hd Hdl].
  set (d := first_free_slot (take (Z.to_nat MAX_FILE_OPEN) (opened_file fs)) 0) in *.
  assert (Hty' : (negb (type (inode_at fs i) =? 1) && negb (type (inode_at fs i) =? 2)) = false).
  { destruct Hty as [-> | ->]; reflexivity. }
  assert (E : open_file name parent fs =
              (d, upd_open d (fun _ => mkOpen i
                     (to_int (block_start (arr_get (-1) (blocks (inode_at fs i)) 0)))) fs)).
  { unfold open_file. rewrite Hi.
    destruct (Z.eqb_spec i (-1)); [lia|]. rewrite Hty'. fold d.
    destruct (Z.eqb_spec d (-1)); [lia | reflexivity]. }
  assert (Hdn : d <> -1) by lia.
  assert (Hwas : inode (open_at fs d) = -1).
  { destruct (first_free_slot_spec _ 0 d eq_refl Hdn ltac:(lia)) as [_ (o & Ho & Hf)].
    rewrite Z.sub_0_r in Ho. apply lookup_take_Some in Ho as [Ho _].
    unfold open_at, arr_get. destruct (Z.ltb_spec d 0); [lia|]. by rewrite Ho. }
  assert (Hlow : forall j, 0 <= j < d -> inode (open_at fs j) <> -1).
  { intros j Hj.
    destruct (lookup_lt_is_Some_2 (opened_file fs) (Z.to_nat j) ltac:(lia)) as [o Ho].
    unfold open_at, arr_get. destruct (Z.ltb_spec j 0); [lia|]. rewrite Ho. cbn [default].
    apply (first_free_slot_least _ 0 d eq_refl Hdn ltac:(lia) (Z.to_nat j) o); [lia|].
    rewrite lookup_take_lt; [exact Ho | unfold MAX_FILE_OPEN in *; lia]. }
  intros desc fs'. subst desc fs'. rewrite E.
  unfold fst, snd.
  set (fs' := upd_open d _ fs).
  assert (Ho : open_at fs' d = mkOpen i
            (to_int (block_start (arr_get (-1) (blocks (inode_at fs i)) 0)))).
  { unfold fs'. by rewrite open_at_upd_open_eq. }
  assert (Hbad : bad_descriptor fs' d = false).
  { unfold bad_descriptor. rewrite Ho. unfold inode.
    destruct (Z.gtb_spec d MAX_FILE_OPEN); [lia|].
    destruct (Z.ltb_spec d 0); [lia|].
    destruct (Z.eqb_spec i (-1)); [lia | reflexivity]. }
  assert (Hino : inode (open_at fs' d) = i) by (by rewrite Ho).
  split; [exact Hd|]. split; [exact Hino|].
  split; [|split; [|split; [|split; [|split; [|split; [|split]]]]]].
  - intros p. unfold open_file.
    change (dir_at (upd_inode i (set_permissions p) fs) parent) with (dir_at fs parent).
    rewrite Hi. destruct (Z.eqb_spec i (-1)); [lia|].
    rewrite (upd_inode_keeps type) by reflexivity. rewrite Hty'.
    change (opened_file (upd_inode i (set_permissions p) fs)) with (opened_file fs).
    fold d. destruct (Z.eqb_spec d (-1)); [lia | reflexivity].
  - intros texte n Hr. apply read_file_without_r; rewrite ?Hino; [exact Hbad | exact Hty' | exact Hr].
  - intros texte n Hw. apply write_file_without_w; rewrite ?Hino; [exact Hbad | exact Hw].
  - exact Hwas.
  - destruct (Z.le_gt_cases d k) as [?|Hgt]; [assumption|].
    exfalso. apply (Hlow k); [lia | exact Hfree].
  - exact Hlow.
  - intros j Hj. unfold fs'. rewrite open_at_upd_open.
    rewrite decide_False; [reflexivity|]. intros [? _]. congruence.
  - reflexivity.
Qed.

Lemma open_file_checks_no_permission_witness :
  fst (open_file "a" 2 session_no_permission) = 0 /\
  read_file 0 [0; 0] 1 (snd (open_file "a" 2 session_no_permission))
    = (Erreur, [0; 0], snd (open_file "a" 2 session_no_permission)) /\
  write_file 0 [104] 1 (snd (open_file "a" 2 session_no_permission))
    = Some (-1, snd (open_file "a" 2 session_no_permission)) /\
  inode (open_at session_no_permission 0) = -1.
Proof.
  destruct (open_file_checks_no_permission "a" 2 session_no_permission 4 0)
    as (_ & _ & _ & Hr & Hw & Hwas & _).
  - vm_compute. reflexivity.
  - discriminate.
  - left. vm_compute. reflexivity.
  - unfold MAX_FILE_OPEN. lia.
  - vm_compute. reflexivity.
  - assert (E : fst (open_file "a" 2 session_no_permission) = 0)
      by (vm_compute; reflexivity).
    rewrite E in Hr, Hw, Hwas. split; [exact E|]. split; [|split].
    + apply Hr. vm_compute. reflexivity.
    + apply Hw. vm_compute. reflexivity.
    + exact Hwas.
Defined.

(** ** create_directory and the permissions of the parent (C10) *)

(** C10: in a parent directory that lacks the write permission,
    [create_file] fails and changes nothing, while [create_directory], given
    a free inode, a free name and a free slot, succeeds: it returns the first
    free inode, makes it a directory of that parent with permissions rwx,
    and fills the slot of the parent with the name. *)
Theorem create_directory_checks_no_permission (now : Z) (name perms : string)
    (parent : Z) (fs : Filesystem) :
  has_permission fs parent "w" = 0 ->
  size (inode_at fs parent) <> -1 ->
  first_free_inode (take (Z.to_nat NUM_INODES) (inodes fs)) 0 <> -1 ->
  rechInode name (dir_at fs parent) = -1 ->
  rechEntree fs parent <> -1 ->
  let i := first_free_inode (take (Z.to_nat NUM_INODES) (inodes fs)) 0 in
  let fs' := snd (create_directory now name parent fs) in
  create_file now name perms parent fs = (-1, fs) /\
  fst (create_directory now name parent fs) = i /\
  0 <= i < NUM_INODES /\
  type (inode_at fs' i) = 0 /\
  inode_rep_parent (inode_at fs' i) = parent /\
  permissions (inode_at fs' i) = ["r"; "w"; "x"]%char /\
  entry_at (dir_at fs' parent) (rechEntree fs parent)
    = mkEntry (strncpy_name (Z.to_nat MAX_FILE_NAME) name) i.
Proof.
  intros Hperm Hlive Hino Hname Hslot i fs'.
  destruct (first_free_inode_at fs i eq_refl Hino) as (Hr & Hlt & Hs).
  destruct (rechEntree_in_range fs parent Hslot) as [Hp Hk].
  assert (Hip : i <> parent) by (intros ->; congruence).
  split.
  { unfold create_file. rewrite Hperm. reflexivity. }
  assert (E : create_directory now name parent fs =
    (i, upd_dir parent (fill_entry (rechEntree fs parent) name i)
          (upd_dir i (fun _ => replicate (Z.to_nat NUM_DIRECTORY_ENTRIES)
                                         (mkEntry EmptyString (-1)))
             (upd_inode i
                (fun n => set_blocks (replicate (Z.to_nat NUM_BLOCKS) (-1))
                           (set_link_count 1
                             (set_permissions (strncpy 3 "rwx")
                               (set_modification_time now
                                 (set_creation_time now
                                   (set_inode_rep_parent parent
                                     (set_type 0 (set_size 0 n)))))))) fs)))).
  { unfold create_directory. fold i.
    destruct (Z.eqb_spec i (-1)); [lia|]. rewrite Hname.
    destruct (Z.eqb_spec (rechEntree fs parent) (-1)); [lia | reflexivity]. }
  subst fs'. rewrite E. unfold fst, snd.
  split; [reflexivity|]. split; [lia|].
  rewrite !inode_at_upd_dir, inode_at_upd_inode_eq by exact Hr.
  split; [reflexivity|]. split; [reflexivity|]. split; [reflexivity|].
  rewrite dir_at_upd_dir_eq by (rewrite directories_upd_dir_length; exact Hp).
  rewrite dir_at_upd_dir_ne by exact Hip.
  change (dir_at (upd_inode i _ fs) parent) with (dir_at fs parent).
  unfold entry_at, fill_entry. by rewrite arr_get_set_eq.
Qed.

Lemma create_directory_checks_no_permission_witness :
  create_file 0 "d" "rw-" 2 session_readonly_home = (-1, session_readonly_home) /\
  fst (create_directory 0 "d" 2 session_readonly_home) = 4.
Proof.
  destruct (create_directory_checks_no_permission 0 "d" "rw-" 2 session_readonly_home)
    as (H1 & H2 & _).
  - vm_compute. reflexivity.
  - vm_compute. discriminate.
  - vm_compute. discriminate.
  - vm_compute. reflexivity.
  - vm_compute. discriminate.
  - split; [exact H1|]. rewrite H2. vm_compute. reflexivity.
Defined.

(** * Further properties of the code *)
(** * Further properties of the code *)

(** ** The block allocator *)

Lemma first_zero_least l s i :
  first_zero l s = i -> i <> -1 -> 0 <= s ->
  forall (k : nat) b, Z.of_nat k < i - s -> l !! k = Some b -> b <> 0.
Proof.
  revert s. induction l as [|c l IH]; intros s H Hne Hs k b Hk Hb; simpl in *; [congruence|].
  destruct (Z.eqb_spec c 0) as [->|Hc]; [lia|].
  destruct k as [|k]; simpl in Hb; [congruence|].
  apply (IH (s + 1) H Hne ltac:(lia) k b); [lia | exact Hb].
Qed.

Lemma first_zero_found l s (k : nat) :
  0 <= s -> l !! k = Some 0 ->
  first_zero l s <> -1 /\ first_zero l s <= s + Z.of_nat k.
Proof.
  revert s k. induction l as [|c l IH]; intros s k Hs Hk; simpl in *; [done|].
  destruct (Z.eqb_spec c 0) as [->|Hc]; [lia|].
  destruct k as [|k]; simpl in Hk; [congruence|].
  destruct (IH (s + 1) k ltac:(lia) Hk). lia.
Qed.

(** What a call of [allocate_block] does, in terms of the bitmap. *)
Lemma allocate_block_spec fs b fs' :
  allocate_block fs = (b, fs') -> b <> -1 ->
  0 <= b < NUM_BLOCKS /\
  free_blocks fs !! Z.to_nat b = Some 0 /\
  (forall (k : nat) v, (k < Z.to_nat b)%nat -> free_blocks fs !! k = Some v -> v <> 0) /\
  fs' = with_free_blocks (<[Z.to_nat b := 1]> (free_blocks fs)) fs.
Proof.
  unfold allocate_block. set (i := first_zero _ 0).
  destruct (Z.eqb_spec i (-1)) as [?|Hi]; intros H Hb; inversion H; subst; [done|].
  destruct (first_zero_spec _ 0 i eq_refl Hi ltac:(lia)) as [Hr Hl].
  rewrite length_take in Hr. rewrite Z.sub_0_r in Hl.
  apply lookup_take_Some in Hl as [Hl Hlt].
  split; [unfold NUM_BLOCKS in *; lia|]. split; [exact Hl|]. split.
  - intros k v Hk Hv.
    apply (first_zero_least _ 0 i eq_refl Hi ltac:(lia) k v); [lia|].
    rewrite lookup_take_lt by lia. exact Hv.
  - unfold arr_set. destruct (Z.ltb_spec i 0); [lia | reflexivity].
Qed.

(** X1: [allocate_block] is first fit.  It returns -1, and changes nothing,
    exactly when none of the first [NUM_BLOCKS] entries of the bitmap is 0;
    otherwise it returns the lowest index that holds 0, sets that entry to 1
    and changes nothing else. *)
Theorem allocate_block_first_fit (fs : Filesystem) :
  let b := fst (allocate_block fs) in
  let fs' := snd (allocate_block fs) in
  (b = -1 ->
   fs' = fs /\
   forall (k : nat) v, (k < Z.to_nat NUM_BLOCKS)%nat -> free_blocks fs !! k = Some v -> v <> 0) /\
  (b <> -1 ->
   0 <= b < NUM_BLOCKS /\
   free_blocks fs !! Z.to_nat b = Some 0 /\
   (forall (k : nat) v, (k < Z.to_nat b)%nat -> free_blocks fs !! k = Some v -> v <> 0) /\
   fs' = with_free_blocks (<[Z.to_nat b := 1]> (free_blocks fs)) fs).
Proof.
  intros b fs'. subst b fs'.
  destruct (allocate_block fs) as [b fs'] eqn:E. cbn [fst snd]. split.
  - intros ->. split; [by apply allocate_block_fail in E|].
    intros k v Hk Hv. unfold allocate_block in E.
    set (i := first_zero _ 0) in E.
    destruct (Z.eqb_spec i (-1)) as [Hi|Hi]; [|inversion E; congruence].
    apply (first_zero_none _ 0 ltac:(lia) Hi).
    apply (list_elem_of_lookup_2 _ k). by rewrite lookup_take_lt.
  - intros Hb. by apply allocate_block_spec.
Qed.

Lemma allocate_block_first_fit_witness :
  fst (allocate_block (forced_init 0 0)) = 0 /\
  free_blocks (snd (allocate_block (forced_init 0 0))) !! 0%nat = Some 1 /\
  snd (allocate_block full_disk) = full_disk.
Proof.
  destruct (allocate_block_first_fit (forced_init 0 0)) as [_ H].
  destruct (allocate_block_first_fit full_disk) as [H' _].
  assert (E : fst (allocate_block (forced_init 0 0)) = 0) by (vm_compute; reflexivity).
  split; [exact E|]. split.
  - destruct H as (_ & _ & _ & ->); [rewrite E; discriminate|].
    rewrite E. vm_compute. reflexivity.
  - apply H'. vm_compute. reflexivity.
Defined.

(** X2: [free_block] ignores an index outside the bitmap; a block of the bitmap
    that is given back is found by the next [allocate_block], which returns
    it or a lower free block. *)
Theorem free_block_then_allocate (b : Z) (fs : Filesystem) :
  (b < 0 \/ NUM_BLOCKS <= b -> free_block b fs = fs) /\
  (0 <= b < NUM_BLOCKS -> (Z.to_nat b < length (free_blocks fs))%nat ->
   0 <= fst (allocate_block (free_block b fs)) <= b).
Proof.
  split.
  - intros H. unfold free_block.
    destruct (Z.leb_spec 0 b); destruct (Z.ltb_spec b NUM_BLOCKS); simpl; try reflexivity.
    exfalso. lia.
  - intros Hb Hl. unfold free_block.
    destruct (Z.leb_spec 0 b); [|exfalso; lia].
    destruct (Z.ltb_spec b NUM_BLOCKS); [|exfalso; lia]. simpl.
    destruct (allocate_block _) as [b' fs'] eqn:E. cbn [fst].
    assert (Hz : take (Z.to_nat NUM_BLOCKS)
                   (free_blocks (with_free_blocks (arr_set (free_blocks fs) b 0) fs))
                 !! Z.to_nat b = Some 0).
    { rewrite lookup_take_lt by lia. cbn [free_blocks with_free_blocks].
      unfold arr_set. destruct (Z.ltb_spec b 0); [lia|].
      by apply list_lookup_insert_eq. }
    destruct (first_zero_found _ 0 _ ltac:(lia) Hz) as [Hne Hle].
    unfold allocate_block in E.
    destruct (Z.eqb_spec (first_zero (take (Z.to_nat NUM_BLOCKS)
      (free_blocks (with_free_blocks (arr_set (free_blocks fs) b 0) fs))) 0) (-1)) as [?|_];
      [done|].
    inversion E; subst.
    destruct (first_zero_spec _ 0 _ eq_refl Hne ltac:(lia)) as [Hr _].
    cbn [free_blocks with_free_blocks] in *. lia.
Qed.

Lemma free_block_then_allocate_witness :
  free_block 1024 full_disk = full_disk /\
  0 <= fst (allocate_block (free_block 7 full_disk)) <= 7.
Proof.
  destruct (free_block_then_allocate 1024 full_disk) as [H1 _].
  destruct (free_block_then_allocate 7 full_disk) as [_ H2].
  split.
  - apply H1. right. unfold NUM_BLOCKS. lia.
  - apply H2; [unfold NUM_BLOCKS; lia | vm_compute; lia].
Defined.

(** X3: Two successive calls of [allocate_block] never hand out the same
    block: the second block is above the first. *)
Theorem allocate_block_twice (fs fs1 fs2 : Filesystem) (b1 b2 : Z) :
  allocate_block fs = (b1, fs1) -> b1 <> -1 ->
  allocate_block fs1 = (b2, fs2) -> b2 <> -1 ->
  b1 < b2.
Proof.
  intros E1 H1 E2 H2.
  destruct (allocate_block_spec _ _ _ E1 H1) as (Hr1 & Hz1 & Hlow1 & ->).
  destruct (allocate_block_spec _ _ _ E2 H2) as (Hr2 & Hz2 & _ & _).
  cbn [free_blocks with_free_blocks] in Hz2.
  destruct (Z.lt_trichotomy b1 b2) as [?|[->|Hlt]]; [done | |].
  - rewrite list_lookup_insert_eq in Hz2; [congruence|].
    by apply lookup_lt_Some in Hz1.
  - rewrite list_lookup_insert_ne in Hz2 by lia.
    exfalso. apply (Hlow1 (Z.to_nat b2) 0); [lia | exact Hz2 | reflexivity].
Qed.

Lemma allocate_block_twice_witness :
  fst (allocate_block (forced_init 0 0))
  < fst (allocate_block (snd (allocate_block (forced_init 0 0)))).
Proof.
  apply (allocate_block_twice (forced_init 0 0)
           (snd (allocate_block (forced_init 0 0)))
           (snd (allocate_block (snd (allocate_block (forced_init 0 0)))))).
  - vm_compute. reflexivity.
  - vm_compute. discriminate.
  - vm_compute. reflexivity.
  - vm_compute. discriminate.
Defined.
(** ** The shape of the state *)

Lemma well_sized_spec fs :
  well_sized fs = true ->
  length (inodes fs) = Z.to_nat NUM_INODES /\
  length (directories fs) = Z.to_nat NUM_INODES /\
  length (free_blocks fs) = Z.to_nat NUM_BLOCKS /\
  length (opened_file fs) = Z.to_nat MAX_FILE_OPEN /\
  (forall i, length (blocks (inode_at fs i)) = Z.to_nat NUM_BLOCKS) /\
  (forall i, length (dir_at fs i) = Z.to_nat NUM_DIRECTORY_ENTRIES).
Proof.
  unfold well_sized. rewrite !andb_true_iff, !Nat.eqb_eq, !forallb_forall.
  intros [[[[[H1 H2] H3] H4] H5] H6]. repeat split; try assumption.
  - intros i. unfold inode_at, arr_get. destruct (i <? 0); [reflexivity|].
    destruct (inodes fs !! Z.to_nat i) as [n|] eqn:E; simpl; [|reflexivity].
    apply Nat.eqb_eq, H5. apply list_elem_of_In. by apply list_elem_of_lookup_2 in E.
  - intros i. unfold dir_at, arr_get. destruct (i <? 0); [apply length_replicate|].
    destruct (directories fs !! Z.to_nat i) as [n|] eqn:E; simpl; [|reflexivity].
    apply Nat.eqb_eq, H6. apply list_elem_of_In. by apply list_elem_of_lookup_2 in E.
Qed.

Lemma rechInode_full d name :
  length d = Z.to_nat NUM_DIRECTORY_ENTRIES -> rechInode name d = rechInode_from name d.
Proof. intros H. unfold rechInode. rewrite take_ge by lia. reflexivity. Qed.

(** ** The scans of a directory record *)

Lemma rechInode_from_spec name l :
  (rechInode_from name l = -1 ->
   forall (k : nat) e, l !! k = Some e -> filename e = name -> inode_index e = -1) /\
  (rechInode_from name l <> -1 ->
   exists (k : nat) e,
     l !! k = Some e /\ filename e = name /\ inode_index e = rechInode_from name l /\
     forall (j : nat) e', (j < k)%nat -> l !! j = Some e' -> filename e' = name ->
                          inode_index e' = -1).
Proof.
  induction l as [|a l [IH1 IH2]]; simpl.
  - split; [intros _ k e Hk; by destruct k | done].
  - unfold strcmp0.
    destruct (String.eqb_spec name (filename a)) as [Ha|Ha];
      destruct (Z.eqb_spec (inode_index a) (-1)) as [Hi|Hi]; simpl.
    + split.
      * intros H [|k] e Hk He; simpl in Hk; [by inversion Hk; subst | by apply (IH1 H k)].
      * intros H. destruct (IH2 H) as (k & e & Hk & He & Hi' & Hj).
        exists (S k), e. repeat split; try assumption.
        intros [|j] e' Hlt Hj' He'; simpl in Hj'; [by inversion Hj'; subst|].
        apply (Hj j); [lia | done | done].
    + split; [done|]. intros _. exists O, a. repeat split; [done|]. intros j e' Hj. lia.
    + split.
      * intros H [|k] e Hk He; simpl in Hk; [by inversion Hk; subst | by apply (IH1 H k)].
      * intros H. destruct (IH2 H) as (k & e & Hk & He & Hi' & Hj).
        exists (S k), e. repeat split; try assumption.
        intros [|j] e' Hlt Hj' He'; simpl in Hj'; [by inversion Hj'; subst|].
        apply (Hj j); [lia | done | done].
    + split.
      * intros H [|k] e Hk He; simpl in Hk; [inversion Hk; subst; congruence | by apply (IH1 H k)].
      * intros H. destruct (IH2 H) as (k & e & Hk & He & Hi' & Hj).
        exists (S k), e. repeat split; try assumption.
        intros [|j] e' Hlt Hj' He'; simpl in Hj'; [inversion Hj'; subst; congruence|].
        apply (Hj j); [lia | done | done].
Qed.

(** X4: [rechInode] reads the first [NUM_DIRECTORY_ENTRIES] entries and returns
    the inode of the first one that bears the name and whose inode is not
    -1; an entry whose inode is -1 is passed over even when its name is the
    one searched.  It returns -1 exactly when there is no such entry. *)
Theorem rechInode_first_live (name : string) (dir : Directory) :
  (rechInode name dir = -1 ->
   forall (k : nat) e, (k < Z.to_nat NUM_DIRECTORY_ENTRIES)%nat ->
     dir !! k = Some e -> filename e = name -> inode_index e = -1) /\
  (rechInode name dir <> -1 ->
   exists (k : nat) e,
     (k < Z.to_nat NUM_DIRECTORY_ENTRIES)%nat /\
     dir !! k = Some e /\ filename e = name /\ inode_index e = rechInode name dir /\
     forall (j : nat) e', (j < k)%nat -> dir !! j = Some e' -> filename e' = name ->
                          inode_index e' = -1).
Proof.
  unfold rechInode.
  destruct (rechInode_from_spec name (take (Z.to_nat NUM_DIRECTORY_ENTRIES) dir)) as [H1 H2].
  split.
  - intros H k e Hk He Hn. apply (H1 H k e); [|exact Hn].
    rewrite lookup_take_lt by exact Hk. exact He.
  - intros H. destruct (H2 H) as (k & e & Hk & He & Hi & Hj).
    apply lookup_take_Some in Hk as [Hk Hlt].
    exists k, e. repeat split; try assumption.
    intros j e' Hjk Hj' He'. apply (Hj j e' Hjk); [|exact He'].
    rewrite lookup_take_lt by lia. exact Hj'.
Qed.

Lemma rechInode_first_live_witness :
  exists (k : nat) e,
    (k < Z.to_nat NUM_DIRECTORY_ENTRIES)%nat /\
    dir_at session_ln 2 !! k = Some e /\ filename e = "b"%string /\
    inode_index e = rechInode "b" (dir_at session_ln 2) /\
    forall (j : nat) e', (j < k)%nat -> dir_at session_ln 2 !! j = Some e' ->
                         filename e' = "b"%string -> inode_index e' = -1.
Proof.
  destruct (rechInode_first_live "b" (dir_at session_ln 2)) as [_ H].
  apply H. vm_compute. discriminate.
Defined.
(** ** Filling and clearing a slot of a directory *)

Lemma rechInode_from_insert_dead name l (k : nat) e nm i :
  l !! k = Some e -> inode_index e = -1 -> name <> nm \/ i = -1 ->
  rechInode_from name (<[k:=mkEntry nm i]> l) = rechInode_from name l.
Proof.
  revert k. induction l as [|a l IH]; intros k Hk He Hn; [done|].
  destruct k as [|k]; simpl in *.
  - inversion Hk; subst a. unfold strcmp0. rewrite He, andb_false_r.
    destruct Hn as [Hn| ->]; [|by rewrite andb_false_r].
    destruct (String.eqb_spec name nm); [done | reflexivity].
  - destruct (strcmp0 name (filename a) && _); [done | by apply (IH k)].
Qed.

Lemma rechInode_from_insert_new nm l (k : nat) i :
  (k < length l)%nat -> rechInode_from nm l = -1 -> i <> -1 ->
  rechInode_from nm (<[k:=mkEntry nm i]> l) = i.
Proof.
  revert k. induction l as [|a l IH]; intros k Hk H Hi; simpl in *; [lia|].
  destruct k as [|k]; simpl.
  - unfold strcmp0. rewrite String.eqb_refl.
    destruct (Z.eqb_spec i (-1)); [done | reflexivity].
  - destruct (Z.eqb_spec (inode_index a) (-1)) as [Ha|Ha].
    + rewrite andb_false_r in *. apply IH; [lia | done | done].
    + rewrite andb_true_r in *. destruct (strcmp0 nm (filename a)); [done|].
      apply IH; [lia | done | done].
Qed.

Lemma rechInode_from_live name l :
  rechInode_from name l <> -1 -> name ∈ live_names l.
Proof.
  unfold live_names. induction l as [|a l IH]; simpl; [done|]. unfold strcmp0.
  destruct (Z.eqb_spec (inode_index a) (-1)) as [Ha|Ha]; simpl.
  - rewrite andb_false_r. exact IH.
  - rewrite andb_true_r. destruct (String.eqb_spec name (filename a)) as [->|Hn].
    + intros _. apply list_elem_of_here.
    + intros H. apply list_elem_of_further. by apply IH.
Qed.

Lemma remove_entry_take name ino l (n : nat) :
  take n (remove_entry name ino l) = remove_entry name ino (take n l).
Proof.
  revert n. induction l as [|a l IH]; intros [|n]; simpl; try reflexivity.
  destruct (_ && _); simpl; [reflexivity | by rewrite IH].
Qed.

Lemma remove_entry_length name ino l : length (remove_entry name ino l) = length l.
Proof.
  induction l as [|a l IH]; simpl; [reflexivity|].
  destruct (_ && _); simpl; [reflexivity | by rewrite IH].
Qed.

Lemma rechInode_from_remove_other n name ino l :
  n <> name -> rechInode_from n (remove_entry name ino l) = rechInode_from n l.
Proof.
  intros Hn. induction l as [|a l IH]; simpl; [reflexivity|]. unfold strcmp0 in *.
  destruct (Z.eqb_spec (inode_index a) ino) as [Ha|Ha]; simpl.
  - destruct (String.eqb_spec name (filename a)) as [Hf|Hf]; simpl.
    + rewrite andb_false_r. destruct (String.eqb_spec n (filename a)); [congruence|].
      reflexivity.
    + by rewrite IH.
  - by rewrite IH.
Qed.

Lemma rechInode_from_cons_live name a l :
  name = filename a -> inode_index a <> -1 ->
  rechInode_from name (a :: l) = inode_index a.
Proof.
  intros -> Ha. cbn [rechInode_from]. unfold strcmp0. rewrite String.eqb_refl.
  destruct (Z.eqb_spec (inode_index a) (-1)); [done | reflexivity].
Qed.

Lemma rechInode_from_cons_skip name a l :
  name <> filename a \/ inode_index a = -1 ->
  rechInode_from name (a :: l) = rechInode_from name l.
Proof.
  intros H. cbn [rechInode_from]. unfold strcmp0.
  destruct (String.eqb_spec name (filename a)); destruct (Z.eqb_spec (inode_index a) (-1));
    try reflexivity. tauto.
Qed.

Lemma remove_entry_cons_hit name a l :
  name = filename a ->
  remove_entry name (inode_index a) (a :: l) = mkEntry EmptyString (-1) :: l.
Proof.
  intros ->. cbn [remove_entry]. unfold strcmp0.
  by rewrite Z.eqb_refl, String.eqb_refl.
Qed.

Lemma remove_entry_cons_skip name ino a l :
  inode_index a <> ino \/ name <> filename a ->
  remove_entry name ino (a :: l) = a :: remove_entry name ino l.
Proof.
  intros H. cbn [remove_entry]. unfold strcmp0.
  destruct (Z.eqb_spec (inode_index a) ino); destruct (String.eqb_spec name (filename a));
    try reflexivity. tauto.
Qed.

Lemma live_names_cons a l :
  live_names (a :: l) =
  if inode_index a =? -1 then live_names l else filename a :: live_names l.
Proof. unfold live_names. cbn [List.filter]. by destruct (inode_index a =? -1). Qed.

Lemma rechInode_from_remove_same name l :
  rechInode_from name l <> -1 -> NoDup (live_names l) ->
  rechInode_from name (remove_entry name (rechInode_from name l) l) = -1.
Proof.
  induction l as [|a l IH]; [done|]. intros Hne Hnd. rewrite live_names_cons in Hnd.
  destruct (decide (name = filename a /\ inode_index a <> -1)) as [[Hf Ha]|Hn].
  - rewrite (rechInode_from_cons_live _ _ _ Hf Ha), (remove_entry_cons_hit _ _ _ Hf).
    rewrite rechInode_from_cons_skip by (by right).
    destruct (Z.eqb_spec (inode_index a) (-1)); [done|].
    apply NoDup_cons in Hnd as [Hnotin _].
    destruct (decide (rechInode_from name l = -1)) as [E|E]; [exact E|].
    exfalso. apply Hnotin. rewrite <- Hf. by apply rechInode_from_live.
  - assert (Hs : name <> filename a \/ inode_index a = -1).
    { destruct (decide (name = filename a)); [|by left].
      destruct (decide (inode_index a = -1)); [by right | tauto]. }
    rewrite (rechInode_from_cons_skip _ _ _ Hs) in *.
    rewrite remove_entry_cons_skip.
    + rewrite (rechInode_from_cons_skip _ _ _ Hs). apply IH; [exact Hne|].
      destruct (inode_index a =? -1); [exact Hnd | by apply NoDup_cons in Hnd as [_ ?]].
    + destruct Hs as [?|Ha]; [by right | left; congruence].
Qed.

(** Clearing the slot that was just filled. *)
Lemma remove_entry_insert name i l (k : nat) :
  (k < length l)%nat -> rechInode_from name l = -1 -> i <> -1 ->
  remove_entry name i (<[k:=mkEntry name i]> l) = <[k:=mkEntry EmptyString (-1)]> l.
Proof.
  revert k. induction l as [|a l IH]; intros k Hk H Hi; simpl in *; [lia|].
  destruct k as [|k]; simpl.
  - unfold strcmp0. rewrite Z.eqb_refl, String.eqb_refl. reflexivity.
  - unfold strcmp0 in *.
    destruct (Z.eqb_spec (inode_index a) (-1)) as [Ha|Ha].
    + rewrite andb_false_r in H.
      destruct (Z.eqb_spec (inode_index a) i) as [?|_]; [congruence|]. simpl.
      f_equal. apply IH; [lia | done | done].
    + rewrite andb_true_r in H.
      destruct (String.eqb_spec name (filename a)) as [?|_]; [done|].
      rewrite andb_false_r. f_equal. apply IH; [lia | done | done].
Qed.

(** The slot that [rechEntree] returns, in a directory record of full
    length. *)
Lemma rechEntree_slot fs d :
  rechEntree fs d <> -1 ->
  0 <= d < Z.of_nat (length (directories fs)) /\
  0 <= rechEntree fs d < NUM_DIRECTORY_ENTRIES /\
  exists e, dir_at fs d !! Z.to_nat (rechEntree fs d) = Some e /\ inode_index e = -1.
Proof.
  intros Hne. destruct (rechEntree_in_range fs d Hne) as [Hd _].
  split; [exact Hd|]. unfold rechEntree in *.
  destruct (rechEntree_from_spec _ 0 _ eq_refl Hne ltac:(lia)) as [Hr (e & He & Hi)].
  rewrite length_take in Hr. rewrite Z.sub_0_r in He.
  apply lookup_take_Some in He as [He Hlt].
  split; [unfold NUM_DIRECTORY_ENTRIES in *; lia|]. by exists e.
Qed.

Lemma rechInode_fill_entry_new fs d name i :
  rechEntree fs d <> -1 -> (String.length name <= Z.to_nat MAX_FILE_NAME)%nat ->
  rechInode name (dir_at fs d) = -1 -> i <> -1 ->
  rechInode name (fill_entry (rechEntree fs d) name i (dir_at fs d)) = i.
Proof.
  intros Hk Hl Hn Hi. destruct (rechEntree_slot fs d Hk) as (_ & Hr & e & He & _).
  unfold fill_entry, rechInode, arr_set in *.
  destruct (Z.ltb_spec (rechEntree fs d) 0); [lia|].
  rewrite strncpy_name_short by exact Hl.
  rewrite take_insert_lt by (unfold NUM_DIRECTORY_ENTRIES in *; lia).
  apply rechInode_from_insert_new; [|exact Hn | exact Hi].
  apply lookup_lt_Some in He. rewrite length_take.
  unfold NUM_DIRECTORY_ENTRIES in *. lia.
Qed.

Lemma rechInode_fill_entry_other fs d name i n :
  rechEntree fs d <> -1 -> n <> strncpy_name (Z.to_nat MAX_FILE_NAME) name ->
  rechInode n (fill_entry (rechEntree fs d) name i (dir_at fs d)) = rechInode n (dir_at fs d).
Proof.
  intros Hk Hn. destruct (rechEntree_slot fs d Hk) as (_ & Hr & e & He & Hi).
  unfold fill_entry, rechInode, arr_set in *.
  destruct (Z.ltb_spec (rechEntree fs d) 0); [lia|].
  rewrite take_insert_lt by (unfold NUM_DIRECTORY_ENTRIES in *; lia).
  apply (rechInode_from_insert_dead _ _ _ e); [|exact Hi | by left].
  rewrite lookup_take_lt by (unfold NUM_DIRECTORY_ENTRIES in *; lia). exact He.
Qed.

(** ** create_file *)

(** The state that a successful [create_file] builds. *)
Lemma create_file_success now name perms d fs i fs' :
  create_file now name perms d fs = (i, fs') -> i <> -1 ->
  let b := first_zero (take (Z.to_nat NUM_BLOCKS) (free_blocks fs)) 0 in
  let k := rechEntree fs d in
  has_permission fs d "w" <> 0 /\ rechInode name (dir_at fs d) = -1 /\
  i = first_free_inode (take (Z.to_nat NUM_INODES) (inodes fs)) 0 /\
  b <> -1 /\ k <> -1 /\
  fs' = upd_inode i
          (fun n => set_permissions (strncpy 3 perms)
                     (set_inode_rep_parent d
                       (set_modification_time now
                         (set_creation_time now
                           (set_type 1 (set_blocks (arr_set (blocks n) 0 b) n))))))
          (upd_dir d (fill_entry k name i)
             (with_free_blocks (arr_set (free_blocks fs) b 1)
                (upd_inode i (set_size 0) fs))).
Proof.
  intros H Hi b k. unfold create_file in H.
  destruct (Z.eqb_spec (has_permission fs d "w") 0) as [?|Hw]; [inversion H; lia|].
  destruct (Z.eqb_spec (rechInode name (dir_at fs d)) (-1)) as [Hn|?]; [|inversion H; lia].
  cbn [negb] in H.
  set (i0 := first_free_inode (take (Z.to_nat NUM_INODES) (inodes fs)) 0) in *.
  destruct (Z.eqb_spec i0 (-1)) as [?|Hi0]; [inversion H; lia|].
  unfold allocate_block in H.
  change (free_blocks (upd_inode i0 (set_size 0) fs)) with (free_blocks fs) in H.
  fold b in H.
  destruct (Z.eqb_spec b (-1)) as [Hb|Hb].
  { rewrite Z.eqb_refl in H. inversion H; lia. }
  destruct (Z.eqb_spec b (-1)) as [?|_]; [done|].
  change (rechEntree (with_free_blocks (arr_set (free_blocks fs) b 1)
                        (upd_inode i0 (set_size 0) fs)) d) with k in H.
  destruct (Z.eqb_spec k (-1)) as [?|Hk]; [inversion H; lia|].
  inversion H; subst. repeat split; assumption.
Qed.

(** X5: A file that was just created is found under its name, when the name
    fits the [filename] field; the other names of the directory resolve as
    before and the other directories are as they were. *)
Theorem create_file_then_lookup (now : Z) (name perms : string) (d : Z)
    (fs : Filesystem) (i : Z) (fs' : Filesystem) :
  create_file now name perms d fs = (i, fs') -> i <> -1 ->
  (String.length name < Z.to_nat MAX_FILE_NAME)%nat ->
  rechInode name (dir_at fs' d) = i /\
  (forall n, n <> name -> rechInode n (dir_at fs' d) = rechInode n (dir_at fs d)) /\
  (forall d', d' <> d -> dir_at fs' d' = dir_at fs d').
Proof.
  intros H Hi Hl.
  apply Nat.lt_le_incl in Hl.
  destruct (create_file_success _ _ _ _ _ _ _ H Hi) as (_ & Hn & _ & _ & Hk & ->).
  destruct (rechEntree_slot fs d Hk) as (Hd & _).
  assert (E : dir_at (upd_inode i
          (fun n => set_permissions (strncpy 3 perms)
                     (set_inode_rep_parent d
                       (set_modification_time now
                         (set_creation_time now
                           (set_type 1 (set_blocks (arr_set (blocks n) 0
                              (first_zero (take (Z.to_nat NUM_BLOCKS) (free_blocks fs)) 0)) n))))))
          (upd_dir d (fill_entry (rechEntree fs d) name i)
             (with_free_blocks (arr_set (free_blocks fs)
                 (first_zero (take (Z.to_nat NUM_BLOCKS) (free_blocks fs)) 0) 1)
                (upd_inode i (set_size 0) fs)))) d
            = fill_entry (rechEntree fs d) name i (dir_at fs d)).
  { apply (dir_at_upd_dir_eq (with_free_blocks _ (upd_inode i (set_size 0) fs))). exact Hd. }
  rewrite E. split; [by apply rechInode_fill_entry_new|]. split.
  - intros n Hne. apply rechInode_fill_entry_other; [exact Hk|].
    by rewrite strncpy_name_short.
  - intros d' Hd'.
    apply (dir_at_upd_dir_ne (with_free_blocks _ (upd_inode i (set_size 0) fs))). congruence.
Qed.

Lemma create_file_then_lookup_witness :
  rechInode "a" (dir_at session_touch 2) = 4 /\
  rechInode "usr" (dir_at session_touch 0) = 1.
Proof.
  destruct (create_file_then_lookup 0 "a" "rw-" 2 (forced_init 0 0) 4 session_touch)
    as (H1 & _ & H3).
  - vm_compute. reflexivity.
  - discriminate.
  - vm_compute. lia.
  - split; [exact H1|]. rewrite H3 by discriminate. vm_compute. reflexivity.
Defined.

(** X6: The inode that a successful [create_file] returns was free; it becomes
    a file of size 0 of the directory, with the first three characters of
    the permission string and one block, the lowest free one, which the call
    marks taken.  [link_count] is not written and no other inode changes. *)
Theorem create_file_new_inode (now : Z) (name perms : string) (d : Z)
    (fs : Filesystem) (i : Z) (fs' : Filesystem) :
  create_file now name perms d fs = (i, fs') -> i <> -1 ->
  let b := fst (allocate_block fs) in
  0 <= i < NUM_INODES /\ size (inode_at fs i) = -1 /\
  type (inode_at fs' i) = 1 /\ size (inode_at fs' i) = 0 /\
  inode_rep_parent (inode_at fs' i) = d /\
  permissions (inode_at fs' i) = strncpy 3 perms /\
  link_count (inode_at fs' i) = link_count (inode_at fs i) /\
  blocks (inode_at fs' i) = <[0%nat := b]> (blocks (inode_at fs i)) /\
  b <> -1 /\ free_blocks fs' = free_blocks (snd (allocate_block fs)) /\
  (forall j, j <> i -> inode_at fs' j = inode_at fs j).
Proof.
  intros H Hi b.
  destruct (create_file_success _ _ _ _ _ _ _ H Hi) as (_ & _ & Ei & Hb & _ & ->).
  destruct (first_free_inode_at fs i (eq_sym Ei) Hi) as (Hr & Hlt & Hs).
  assert (Eb : b = first_zero (take (Z.to_nat NUM_BLOCKS) (free_blocks fs)) 0).
  { unfold b, allocate_block. by destruct (_ =? -1) eqn:E; [apply Z.eqb_eq in E|]. }
  rewrite <- Eb in *.
  split; [lia|]. split; [exact Hs|].
  rewrite inode_at_upd_inode_eq
    by (cbn [inodes upd_dir with_directories with_free_blocks upd_inode with_inodes];
        rewrite arr_set_length; exact Hr).
  rewrite inode_at_upd_dir.
  change (inode_at (with_free_blocks ?x ?y) i) with (inode_at y i).
  rewrite inode_at_upd_inode_eq by exact Hr.
  cbn [type size blocks permissions link_count inode_rep_parent set_blocks set_permissions
       set_link_count set_inode_rep_parent set_modification_time
       set_creation_time set_type set_size].
  repeat (split; [reflexivity|]).
  split; [exact Hb|]. split.
  - unfold allocate_block. rewrite <- Eb.
    destruct (Z.eqb_spec b (-1)); [done | reflexivity].
  - intros j Hj. rewrite inode_at_upd_inode_ne by congruence.
    rewrite inode_at_upd_dir.
    change (inode_at (with_free_blocks ?x ?y) j) with (inode_at y j).
    by rewrite inode_at_upd_inode_ne by congruence.
Qed.

Lemma create_file_new_inode_witness :
  type (inode_at session_touch 4) = 1 /\ size (inode_at session_touch 4) = 0 /\
  link_count (inode_at session_touch 4) = 0 /\
  blocks (inode_at session_touch 4) !! 0%nat = Some 0.
Proof.
  destruct (create_file_new_inode 0 "a" "rw-" 2 (forced_init 0 0) 4 session_touch)
    as (_ & _ & H1 & H2 & _ & _ & H3 & H4 & _).
  - vm_compute. reflexivity.
  - discriminate.
  - split; [exact H1|]. split; [exact H2|]. split.
    + rewrite H3. vm_compute. reflexivity.
    + rewrite H4. vm_compute. reflexivity.
Defined.

(** ** delete_file *)

Lemma free_block_spec b fs :
  free_block b fs = with_free_blocks (free_blocks (free_block b fs)) fs /\
  length (free_blocks (free_block b fs)) = length (free_blocks fs) /\
  forall x, arr_get 1 (free_blocks (free_block b fs)) x =
            if decide (x = b /\ 0 <= b < NUM_BLOCKS /\ b < Z.of_nat (length (free_blocks fs)))
            then 0 else arr_get 1 (free_blocks fs) x.
Proof.
  unfold free_block.
  destruct (Z.leb_spec 0 b) as [H0|H0]; destruct (Z.ltb_spec b NUM_BLOCKS) as [H1|H1];
    cbn [andb free_blocks with_free_blocks];
    try (split; [by destruct fs|]; split; [reflexivity|]; intros x;
         rewrite decide_False by lia; reflexivity).
  split; [reflexivity|]. split; [apply arr_set_length|]. intros x.
  destruct (decide _) as [(-> & _ & Hl)|Hn].
  - apply arr_get_set_eq. lia.
  - destruct (decide (b = x)) as [->|Hne]; [|by apply arr_get_set_ne].
    unfold arr_set. destruct (Z.ltb_spec x 0); [done|].
    rewrite list_insert_ge by lia. reflexivity.
Qed.

Lemma foldl_free_blocks bl fs :
  let fs1 := foldl (fun acc b => if b =? -1 then acc else free_block b acc) fs bl in
  fs1 = with_free_blocks (free_blocks fs1) fs /\
  length (free_blocks fs1) = length (free_blocks fs) /\
  forall x, arr_get 1 (free_blocks fs1) x =
            if decide (x ∈ bl /\ 0 <= x < NUM_BLOCKS /\ x < Z.of_nat (length (free_blocks fs)))
            then 0 else arr_get 1 (free_blocks fs) x.
Proof.
  revert fs. induction bl as [|a bl IH]; intros fs; cbn [foldl].
  - split; [by destruct fs|]. split; [reflexivity|]. intros x.
    rewrite decide_False; [reflexivity|]. intros [H _]. by apply not_elem_of_nil in H.
  - set (fs0 := if a =? -1 then fs else free_block a fs).
    assert (H0 : fs0 = with_free_blocks (free_blocks fs0) fs /\
                 length (free_blocks fs0) = length (free_blocks fs) /\
                 forall x, arr_get 1 (free_blocks fs0) x =
                   if decide (x = a /\ 0 <= a < NUM_BLOCKS
                              /\ a < Z.of_nat (length (free_blocks fs)))
                   then 0 else arr_get 1 (free_blocks fs) x).
    { unfold fs0. destruct (Z.eqb_spec a (-1)) as [->|_]; [|apply free_block_spec].
      split; [by destruct fs|]. split; [reflexivity|]. intros x.
      rewrite decide_False by lia. reflexivity. }
    destruct H0 as (E0 & L0 & G0). destruct (IH fs0) as (E1 & L1 & G1).
    cbv zeta in *. split; [|split].
    + rewrite E1 at 1. rewrite E0 at 2. reflexivity.
    + congruence.
    + intros x. rewrite G1, G0, L0.
      destruct (decide (x ∈ bl /\ _)) as [(Hx & Hr)|Hn1].
      * rewrite decide_True; [reflexivity|]. split; [by apply list_elem_of_further | exact Hr].
      * destruct (decide (x = a /\ _)) as [(-> & Hr)|Hn2].
        -- rewrite decide_True; [reflexivity|]. split; [apply list_elem_of_here | exact Hr].
        -- rewrite decide_False; [reflexivity|]. intros (Hx & Hr).
           apply elem_of_cons in Hx as [->|Hx]; tauto.
Qed.

(** The state that a successful [delete_file] builds. *)
Lemma delete_file_success now name d fs fs' :
  delete_file now name d fs = (Done, fs') ->
  let i := rechInode name (dir_at fs d) in
  i <> -1 /\ (type (inode_at fs i) = 1 \/ type (inode_at fs i) = 2) /\
  fs' = upd_dir d (remove_entry name i)
          (upd_inode i
             (fun n => set_inode_rep_parent (-1)
                        (set_link_count 0
                          (set_modification_time now
                            (set_creation_time now
                              (set_type (-1) (set_size (-1) n))))))
             (release_blocks i fs)).
Proof.
  intros H i. unfold delete_file in H. fold i in H.
  destruct (Z.eqb_spec i (-1)) as [?|Hi]; [done|].
  destruct (Z.eqb_spec (type (inode_at fs i)) 1) as [H1|H1];
    destruct (Z.eqb_spec (type (inode_at fs i)) 2) as [H2|H2];
    cbn [negb andb] in H; try done; inversion H; subst; tauto.
Qed.

Lemma release_blocks_spec i fs :
  0 <= i < Z.of_nat (length (inodes fs)) ->
  let fs1 := release_blocks i fs in
  directories fs1 = directories fs /\ opened_file fs1 = opened_file fs /\
  file fs1 = file fs /\
  length (inodes fs1) = length (inodes fs) /\
  length (free_blocks fs1) = length (free_blocks fs) /\
  (forall x, arr_get 1 (free_blocks fs1) x =
     if decide (x ∈ blocks (inode_at fs i) /\ 0 <= x < NUM_BLOCKS
                /\ x < Z.of_nat (length (free_blocks fs)))
     then 0 else arr_get 1 (free_blocks fs) x) /\
  inode_at fs1 i = set_blocks (map (fun b => if b =? -1 then b else -1) (blocks (inode_at fs i)))
                              (inode_at fs i) /\
  (forall j, j <> i -> inode_at fs1 j = inode_at fs j).
Proof.
  intros Hi. unfold release_blocks. cbv zeta.
  destruct (foldl_free_blocks (blocks (inode_at fs i)) fs) as (E & L & G).
  cbv zeta in *.
  set (fs0 := foldl _ fs (blocks (inode_at fs i))) in *.
  assert (Ei : inodes fs0 = inodes fs) by (by rewrite E).
  assert (Ed : directories fs0 = directories fs) by (by rewrite E).
  assert (Eo : opened_file fs0 = opened_file fs) by (by rewrite E).
  assert (Ef : file fs0 = file fs) by (by rewrite E).
  cbn [directories opened_file file inodes free_blocks upd_inode with_inodes].
  rewrite arr_set_length, Ei.
  repeat (split; [assumption || reflexivity|]).
  split; [|intros j Hj; rewrite inode_at_upd_inode_ne by congruence; by apply inode_at_ext].
  rewrite inode_at_upd_inode_eq by (by rewrite Ei).
  by rewrite (inode_at_ext fs0 fs).
Qed.



(** X8: After a successful [delete_file] the other names of the directory
    resolve as before and the other directories are as they were; the name
    itself resolves no more when no name is used twice in the directory. *)
Theorem delete_file_unlinks (now : Z) (name : string) (d : Z) (fs fs' : Filesystem) :
  0 <= d < Z.of_nat (length (directories fs)) ->
  delete_file now name d fs = (Done, fs') ->
  (names_unique (dir_at fs d) -> rechInode name (dir_at fs' d) = -1) /\
  (forall n, n <> name -> rechInode n (dir_at fs' d) = rechInode n (dir_at fs d)) /\
  (forall d', d' <> d -> dir_at fs' d' = dir_at fs d').
Proof.
  intros Hd H.
  destruct (delete_file_success _ _ _ _ _ H) as (Hi & _ & ->).
  set (i := rechInode name (dir_at fs d)) in *.
  assert (E : forall g, dir_at (upd_dir d (remove_entry name i)
                          (upd_inode i g (release_blocks i fs))) d
                        = remove_entry name i (dir_at fs d)).
  { intros g.
    assert (Ed : directories (upd_inode i g (release_blocks i fs)) = directories fs).
    { unfold release_blocks. cbv zeta.
      destruct (foldl_free_blocks (blocks (inode_at fs i)) fs) as (E & _).
      cbv zeta in E. cbn [directories upd_inode with_inodes]. by rewrite E. }
    rewrite dir_at_upd_dir_eq by (by rewrite Ed). unfold dir_at. by rewrite Ed. }
  rewrite E. split; [|split].
  - intros Hu. unfold rechInode. rewrite remove_entry_take.
    apply rechInode_from_remove_same; [exact Hi | exact Hu].
  - intros n Hn. unfold rechInode. rewrite remove_entry_take.
    by apply rechInode_from_remove_other.
  - intros d' Hd'. rewrite dir_at_upd_dir_ne by congruence.
    unfold dir_at, release_blocks. cbv zeta.
    destruct (foldl_free_blocks (blocks (inode_at fs i)) fs) as (E' & _).
    cbv zeta in E'. cbn [directories upd_inode with_inodes]. by rewrite E'.
Qed.

Lemma delete_file_unlinks_witness :
  rechInode "a" (dir_at (snd (delete_file 0 "a" 2 session_ln)) 2) = -1 /\
  rechInode "b" (dir_at (snd (delete_file 0 "a" 2 session_ln)) 2)
  = rechInode "b" (dir_at session_ln 2).
Proof.
  destruct (delete_file_unlinks 0 "a" 2 session_ln (snd (delete_file 0 "a" 2 session_ln)))
    as (H1 & H2 & _).
  - split; vm_compute; [discriminate | reflexivity].
  - vm_compute. reflexivity.
  - split; [|by apply H2].
    apply H1. unfold names_unique. apply (bool_decide_unpack _). vm_compute. exact I.
Defined.

(** ** create_file, then delete_file *)

Lemma arr_get_ext {A} (d : A) (l1 l2 : list A) :
  length l1 = length l2 ->
  (forall i, 0 <= i < Z.of_nat (length l1) -> arr_get d l1 i = arr_get d l2 i) ->
  l1 = l2.
Proof.
  intros Hl H. apply list_eq. intros k.
  destruct (decide (k < length l1)%nat) as [Hk|Hk].
  - specialize (H (Z.of_nat k) ltac:(lia)). unfold arr_get in H.
    destruct (Z.ltb_spec (Z.of_nat k) 0); [lia|]. rewrite Nat2Z.id in H.
    destruct (lookup_lt_is_Some_2 l1 k Hk) as [x Hx].
    destruct (lookup_lt_is_Some_2 l2 k ltac:(lia)) as [y Hy].
    rewrite Hx, Hy in *. simpl in H. by subst.
  - rewrite !(proj2 (lookup_ge_None _ _)) by lia. reflexivity.
Qed.

Lemma dir_at_upd_inode fs i f j : dir_at (upd_inode i f fs) j = dir_at fs j.
Proof. done. Qed.

Lemma dir_at_with_free_blocks fs v j : dir_at (with_free_blocks v fs) j = dir_at fs j.
Proof. done. Qed.

Lemma inode_at_with_free_blocks fs v j : inode_at (with_free_blocks v fs) j = inode_at fs j.
Proof. done. Qed.

Lemma arr_get_lookup {A} (d : A) (l : list A) (k : nat) x :
  l !! k = Some x -> arr_get d l (Z.of_nat k) = x.
Proof.
  intros H. unfold arr_get. destruct (Z.ltb_spec (Z.of_nat k) 0); [lia|].
  by rewrite Nat2Z.id, H.
Qed.

Lemma rechInode_insert_new fs d name i :
  rechEntree fs d <> -1 -> rechInode name (dir_at fs d) = -1 -> i <> -1 ->
  rechInode name
    (<[Z.to_nat (rechEntree fs d) := mkEntry name i]> (dir_at fs d : list DirectoryEntry))
  = i.
Proof.
  intros Hk Hn Hi. destruct (rechEntree_slot fs d Hk) as (_ & Hr & e & He & _).
  unfold rechInode in *.
  rewrite take_insert_lt by (unfold NUM_DIRECTORY_ENTRIES in *; lia).
  apply rechInode_from_insert_new; [|exact Hn | exact Hi].
  apply lookup_lt_Some in He. rewrite length_take.
  unfold NUM_DIRECTORY_ENTRIES in *. lia.
Qed.

Lemma rechInode_insert_other fs d name i n :
  rechEntree fs d <> -1 -> n <> name ->
  rechInode n
    (<[Z.to_nat (rechEntree fs d) := mkEntry name i]> (dir_at fs d : list DirectoryEntry))
  = rechInode n (dir_at fs d).
Proof.
  intros Hk Hn. destruct (rechEntree_slot fs d Hk) as (_ & Hr & e & He & Hi).
  unfold rechInode in *.
  rewrite take_insert_lt by (unfold NUM_DIRECTORY_ENTRIES in *; lia).
  apply (rechInode_from_insert_dead _ _ _ e); [|exact Hi | by left].
  rewrite lookup_take_lt by (unfold NUM_DIRECTORY_ENTRIES in *; lia). exact He.
Qed.

(** X9: [touch] then [rm]: a file that is created and deleted at once leaves
    the bitmap, the sizes of all the inodes, every lookup in every directory,
    the image and the open-file table as they were, when the name fits the
    [filename] field and the free inode held no block. *)
Theorem create_file_then_delete (now now' : Z) (name perms : string) (d : Z)
    (fs : Filesystem) (i : Z) (fs1 : Filesystem) :
  well_sized fs = true ->
  create_file now name perms d fs = (i, fs1) -> i <> -1 ->
  (String.length name < Z.to_nat MAX_FILE_NAME)%nat ->
  (forall b, b ∈ blocks (inode_at fs i) -> b = -1) ->
  exists fs2,
    delete_file now' name d fs1 = (Done, fs2) /\
    free_blocks fs2 = free_blocks fs /\
    (forall y, size (inode_at fs2 y) = size (inode_at fs y)) /\
    (forall n d', rechInode n (dir_at fs2 d') = rechInode n (dir_at fs d')) /\
    file fs2 = file fs /\ opened_file fs2 = opened_file fs.
Proof.
  intros Hws H Hi Hl Hbl.
  apply Nat.lt_le_incl in Hl.
  destruct (well_sized_spec fs Hws) as (Li & Ld & Lb & _ & Lbl & Ldir).
  destruct (create_file_success _ _ _ _ _ _ _ H Hi) as (_ & Hn & Ei & Hb & Hk & E).
  destruct (first_free_inode_at fs i (eq_sym Ei) Hi) as (Hr & Hlt & Hs).
  destruct (rechEntree_slot fs d Hk) as (Hd & Hkr & e & He & Hdead).
  set (b := first_zero (take (Z.to_nat NUM_BLOCKS) (free_blocks fs)) 0) in *.
  set (k := rechEntree fs d) in *.
  destruct (first_zero_spec _ 0 b eq_refl Hb ltac:(lia)) as [Hbr Hbz].
  rewrite length_take in Hbr. rewrite Z.sub_0_r in Hbz.
  apply lookup_take_Some in Hbz as [Hbz _].
  (* the state after the creation *)
  assert (Li1 : length (inodes fs1) = length (inodes fs))
    by (rewrite E; cbn [inodes upd_inode upd_dir with_inodes with_directories with_free_blocks];
        by rewrite !arr_set_length).
  assert (Ed1 : dir_at fs1 d = <[Z.to_nat k := mkEntry name i]> (dir_at fs d)).
  { rewrite E, dir_at_upd_inode.
    rewrite dir_at_upd_dir_eq by exact Hd.
    rewrite dir_at_with_free_blocks, dir_at_upd_inode.
    unfold fill_entry, arr_set. destruct (Z.ltb_spec k 0); [lia|].
    by rewrite strncpy_name_short. }
  assert (Hfound : rechInode name (dir_at fs1 d) = i)
    by (rewrite Ed1; by apply rechInode_insert_new).
  assert (Ed1' : forall d', d' <> d -> dir_at fs1 d' = dir_at fs d').
  { intros d' Hd'. rewrite E, dir_at_upd_inode.
    rewrite dir_at_upd_dir_ne by congruence.
    by rewrite dir_at_with_free_blocks, dir_at_upd_inode. }
  assert (Ei1 : inode_at fs1 i =
                set_permissions (strncpy 3 perms)
                  (set_inode_rep_parent d
                    (set_modification_time now
                      (set_creation_time now
                        (set_type 1
                          (set_blocks (<[0%nat := b]> (blocks (inode_at fs i)))
                             (set_size 0 (inode_at fs i)))))))).
  { rewrite E.
    rewrite inode_at_upd_inode_eq
      by (cbn [inodes upd_inode upd_dir with_inodes with_directories with_free_blocks];
          by rewrite arr_set_length).
    rewrite inode_at_upd_dir, inode_at_with_free_blocks.
    by rewrite inode_at_upd_inode_eq. }
  assert (Ej1 : forall j, j <> i -> inode_at fs1 j = inode_at fs j).
  { intros j Hj. rewrite E. rewrite inode_at_upd_inode_ne by congruence.
    rewrite inode_at_upd_dir, inode_at_with_free_blocks.
    by rewrite inode_at_upd_inode_ne by congruence. }
  assert (Ef1 : free_blocks fs1 = <[Z.to_nat b := 1]> (free_blocks fs)).
  { rewrite E. cbn [free_blocks upd_inode upd_dir with_inodes with_directories with_free_blocks].
    unfold arr_set. destruct (Z.ltb_spec b 0); [lia | reflexivity]. }
  (* the deletion *)
  assert (D : delete_file now' name d fs1 =
              (Done, upd_dir d (remove_entry name i)
                 (upd_inode i
                    (fun n => set_inode_rep_parent (-1)
                               (set_link_count 0
                                 (set_modification_time now'
                                   (set_creation_time now'
                                     (set_type (-1) (set_size (-1) n))))))
                    (release_blocks i fs1)))).
  { unfold delete_file. rewrite Hfound.
    destruct (Z.eqb_spec i (-1)) as [?|_]; [done|].
    rewrite Ei1. reflexivity. }
  eexists. split; [exact D|].
  destruct (release_blocks_spec i fs1 ltac:(lia)) as (Rd & Ro & Rf & Rl & Rfl & G & Ri & Rj).
  cbv zeta in *.
  assert (Hin : forall x, 0 <= x -> x ∈ blocks (inode_at fs1 i) <-> x = b).
  { intros x Hx. rewrite Ei1. cbn [blocks set_permissions set_inode_rep_parent
      set_modification_time set_creation_time set_type set_blocks].
    specialize (Lbl i).
    destruct (blocks (inode_at fs i)) as [|b0 bl] eqn:Eb; [simpl in Lbl; by unfold NUM_BLOCKS in Lbl|].
    cbn [insert list_insert]. rewrite elem_of_cons. split; [|by left].
    intros [?|Hx']; [done|]. exfalso.
    assert (x = -1); [|lia]. apply Hbl. by apply list_elem_of_further. }
  split; [|split; [|split; [|split]]].
  - change (free_blocks (upd_dir ?a ?f (upd_inode ?c ?g ?x))) with (free_blocks x).
    apply (arr_get_ext 1).
    + by rewrite Rfl, Ef1, length_insert.
    + intros x Hx. rewrite Rfl, Ef1, length_insert in Hx. rewrite G.
      destruct (decide _) as [(Hin' & _)|Hnot].
      * apply Hin in Hin'; [|lia]. subst x. symmetry.
        replace b with (Z.of_nat (Z.to_nat b)) by lia. by apply arr_get_lookup.
      * assert (x <> b).
        { intros ->. apply Hnot. split; [by apply Hin; lia|].
          rewrite Ef1, length_insert, Lb. unfold NUM_BLOCKS in *. lia. }
        rewrite Ef1. unfold arr_get. destruct (Z.ltb_spec x 0); [done|].
        rewrite list_lookup_insert_ne by lia. reflexivity.
  - intros y. rewrite inode_at_upd_dir.
    destruct (decide (y = i)) as [->|Hy].
    + rewrite inode_at_upd_inode_eq by lia. by rewrite Hs.
    + rewrite inode_at_upd_inode_ne by congruence. rewrite Rj by done.
      by rewrite Ej1.
  - intros n d'. destruct (decide (d' = d)) as [->|Hd'].
    + rewrite dir_at_upd_dir_eq
        by (cbn [directories upd_inode with_inodes]; rewrite Rd, E;
            cbn [directories upd_inode upd_dir with_inodes with_directories with_free_blocks];
            rewrite arr_set_length; exact Hd).
      rewrite dir_at_upd_inode.
      assert (Ed2 : dir_at (release_blocks i fs1) d = dir_at fs1 d)
        by (unfold dir_at; by rewrite Rd).
      rewrite Ed2, Ed1.
      rewrite (rechInode_full (dir_at fs d)) in * by apply Ldir.
      rewrite remove_entry_insert; [|rewrite Ldir; unfold NUM_DIRECTORY_ENTRIES in *; lia|exact Hn|exact Hi].
      rewrite rechInode_full by (rewrite length_insert; apply Ldir).
      apply (rechInode_from_insert_dead _ _ _ e); [exact He | exact Hdead | by right].
    + rewrite dir_at_upd_dir_ne by congruence.
      rewrite dir_at_upd_inode.
      assert (Ed2 : dir_at (release_blocks i fs1) d' = dir_at fs1 d')
        by (unfold dir_at; by rewrite Rd).
      by rewrite Ed2, Ed1'.
  - change (file (upd_dir ?a ?f (upd_inode ?c ?g ?x))) with (file x).
    rewrite Rf, E. reflexivity.
  - change (opened_file (upd_dir ?a ?f (upd_inode ?c ?g ?x))) with (opened_file x).
    rewrite Ro, E. reflexivity.
Qed.

Lemma create_file_then_delete_witness :
  exists fs2,
    delete_file 1 "a" 2 session_touch = (Done, fs2) /\
    free_blocks fs2 = free_blocks (forced_init 0 0) /\
    (forall y, size (inode_at fs2 y) = size (inode_at (forced_init 0 0) y)) /\
    (forall n d', rechInode n (dir_at fs2 d') = rechInode n (dir_at (forced_init 0 0) d')) /\
    file fs2 = file (forced_init 0 0) /\ opened_file fs2 = opened_file (forced_init 0 0).
Proof.
  apply (create_file_then_delete 0 1 "a" "rw-" 2 (forced_init 0 0) 4 session_touch).
  - vm_compute. reflexivity.
  - vm_compute. reflexivity.
  - discriminate.
  - vm_compute. lia.
  - intros b Hb.
    assert (E : blocks (inode_at (forced_init 0 0) 4) = replicate (Z.to_nat NUM_BLOCKS) (-1))
      by (vm_compute; reflexivity).
    rewrite E in Hb. by apply elem_of_replicate in Hb as [-> _].
Defined.

(** ** create_directory, then delete_directory *)

Lemma rechInode_from_empty n (m : nat) :
  rechInode_from n (replicate m (mkEntry EmptyString (-1))) = -1.
Proof.
  induction m as [|m IH]; [reflexivity|]. cbn [replicate].
  rewrite rechInode_from_cons_skip by (by right). exact IH.
Qed.

Lemma for_loop_id (n : nat) i body fs :
  (forall j, i <= j < i + Z.of_nat n -> body j fs = Some fs) ->
  for_loop n i body fs = Some fs.
Proof.
  revert i. induction n as [|n IH]; intros i H; [reflexivity|].
  change (for_loop (S n) i body fs) with
    (match body i fs with
     | None => None
     | Some fs' => for_loop n (i + 1) body fs'
     end).
  rewrite H by lia. apply IH. intros j Hj. apply H. lia.
Qed.

(** The state that a successful [create_directory] builds. *)
Lemma create_directory_success now name d fs i fs' :
  create_directory now name d fs = (i, fs') -> i <> -1 ->
  i = first_free_inode (take (Z.to_nat NUM_INODES) (inodes fs)) 0 /\
  rechInode name (dir_at fs d) = -1 /\ rechEntree fs d <> -1 /\
  fs' = upd_dir d (fill_entry (rechEntree fs d) name i)
          (upd_dir i (fun _ => replicate (Z.to_nat NUM_DIRECTORY_ENTRIES)
                                         (mkEntry EmptyString (-1)))
             (upd_inode i
                (fun n => set_blocks (replicate (Z.to_nat NUM_BLOCKS) (-1))
                           (set_link_count 1
                             (set_permissions (strncpy 3 "rwx")
                               (set_modification_time now
                                 (set_creation_time now
                                   (set_inode_rep_parent d
                                     (set_type 0 (set_size 0 n)))))))) fs)).
Proof.
  intros H Hi. unfold create_directory in H.
  set (i0 := first_free_inode (take (Z.to_nat NUM_INODES) (inodes fs)) 0) in *.
  destruct (Z.eqb_spec i0 (-1)) as [?|Hi0]; [inversion H; lia|].
  destruct (Z.eqb_spec (rechInode name (dir_at fs d)) (-1)) as [Hn|?]; [|inversion H; lia].
  cbn [negb] in H.
  destruct (Z.eqb_spec (rechEntree fs d) (-1)) as [?|Hk]; [inversion H; lia|].
  inversion H; subst. repeat split; assumption.
Qed.

(** What the two calls need of the state between them. *)
Lemma create_directory_state now name d fs i fs' :
  well_sized fs = true ->
  create_directory now name d fs = (i, fs') -> i <> -1 ->
  (String.length name <= Z.to_nat MAX_FILE_NAME)%nat ->
  size (inode_at fs d) <> -1 ->
  0 <= i < NUM_INODES /\ i <> d /\ size (inode_at fs i) = -1 /\
  0 <= d < NUM_INODES /\
  length (inodes fs') = length (inodes fs) /\
  length (directories fs') = length (directories fs) /\
  free_blocks fs' = free_blocks fs /\ file fs' = file fs /\
  opened_file fs' = opened_file fs /\
  inode_at fs' i =
    set_blocks (replicate (Z.to_nat NUM_BLOCKS) (-1))
      (set_link_count 1
        (set_permissions (strncpy 3 "rwx")
          (set_modification_time now
            (set_creation_time now
              (set_inode_rep_parent d (set_type 0 (set_size 0 (inode_at fs i)))))))) /\
  (forall j, j <> i -> inode_at fs' j = inode_at fs j) /\
  dir_at fs' i = replicate (Z.to_nat NUM_DIRECTORY_ENTRIES) (mkEntry EmptyString (-1)) /\
  dir_at fs' d = <[Z.to_nat (rechEntree fs d) := mkEntry name i]> (dir_at fs d) /\
  (forall d', d' <> d -> d' <> i -> dir_at fs' d' = dir_at fs d').
Proof.
  intros Hws H Hi Hl Hlive.
  destruct (well_sized_spec fs Hws) as (Li & Ld & _).
  destruct (create_directory_success _ _ _ _ _ _ H Hi) as (Ei & Hn & Hk & ->).
  destruct (first_free_inode_at fs i (eq_sym Ei) Hi) as (Hr & Hlt & Hs).
  destruct (rechEntree_slot fs d Hk) as (Hd & Hkr & _).
  assert (Hid : i <> d) by congruence.
  split; [lia|]. split; [exact Hid|]. split; [exact Hs|].
  split; [rewrite Ld in Hd; unfold NUM_INODES in *; lia|].
  split; [cbn [inodes upd_inode upd_dir with_inodes with_directories]; apply arr_set_length|].
  split; [cbn [directories upd_inode upd_dir with_inodes with_directories];
          by rewrite !arr_set_length|].
  split; [reflexivity|]. split; [reflexivity|]. split; [reflexivity|].
  split; [rewrite !inode_at_upd_dir; by apply inode_at_upd_inode_eq|].
  split; [intros j Hj; rewrite !inode_at_upd_dir; apply inode_at_upd_inode_ne; congruence|].
  split; [|split].
  - rewrite dir_at_upd_dir_ne by congruence.
    apply dir_at_upd_dir_eq. cbn [directories upd_inode with_inodes]. lia.
  - rewrite dir_at_upd_dir_eq by (by rewrite directories_upd_dir_length).
    rewrite dir_at_upd_dir_ne by exact Hid. rewrite dir_at_upd_inode.
    unfold fill_entry, arr_set. destruct (Z.ltb_spec (rechEntree fs d) 0); [lia|].
    by rewrite strncpy_name_short.
  - intros d' H1 H2. rewrite !dir_at_upd_dir_ne by congruence. apply dir_at_upd_inode.
Qed.

(** X10: A directory that was just created is found under its name in its
    parent, when the name fits the [filename] field and the parent is an
    allocated inode; it is empty, no block is allocated, and the other names
    and the other directories are as before. *)
Theorem create_directory_then_lookup (now : Z) (name : string) (d : Z)
    (fs : Filesystem) (i : Z) (fs' : Filesystem) :
  well_sized fs = true ->
  create_directory now name d fs = (i, fs') -> i <> -1 ->
  (String.length name < Z.to_nat MAX_FILE_NAME)%nat ->
  size (inode_at fs d) <> -1 ->
  rechInode name (dir_at fs' d) = i /\
  (forall n, n <> name -> rechInode n (dir_at fs' d) = rechInode n (dir_at fs d)) /\
  (forall n, rechInode n (dir_at fs' i) = -1) /\
  rechEntree fs' i = 0 /\
  free_blocks fs' = free_blocks fs /\
  (forall d', d' <> d -> d' <> i -> dir_at fs' d' = dir_at fs d').
Proof.
  intros Hws H Hi Hl Hlive.
  apply Nat.lt_le_incl in Hl.
  destruct (create_directory_state _ _ _ _ _ _ Hws H Hi Hl Hlive)
    as (_ & _ & _ & _ & _ & _ & Ef & _ & _ & _ & _ & Edi & Edd & Edo).
  destruct (create_directory_success _ _ _ _ _ _ H Hi) as (_ & Hn & Hk & _).
  destruct (rechEntree_slot fs d Hk) as (_ & Hkr & e & He & Hdead).
  split; [|split; [|split; [|split; [|split]]]].
  - rewrite Edd. by apply rechInode_insert_new.
  - intros n Hne. rewrite Edd. by apply rechInode_insert_other.
  - intros n. rewrite Edi. unfold rechInode. rewrite take_replicate.
    apply rechInode_from_empty.
  - unfold rechEntree. rewrite Edi. reflexivity.
  - exact Ef.
  - exact Edo.
Qed.

Lemma create_directory_then_lookup_witness :
  rechInode "d" (dir_at (snd (create_directory 0 "d" 2 (forced_init 0 0))) 2) = 4 /\
  rechInode "d" (dir_at (snd (create_directory 0 "d" 2 (forced_init 0 0))) 4) = -1.
Proof.
  destruct (create_directory_then_lookup 0 "d" 2 (forced_init 0 0) 4
              (snd (create_directory 0 "d" 2 (forced_init 0 0))))
    as (H1 & _ & H2 & _).
  - vm_compute. reflexivity.
  - vm_compute. reflexivity.
  - discriminate.
  - vm_compute. lia.
  - vm_compute. discriminate.
  - split; [exact H1 | apply H2].
Defined.

(** X11: [mkdir] then [remdir], on a state whose arrays have the declared
    sizes, with a name shorter than 255 characters and a parent that is an
    allocated inode (its size is not -1): a directory that is created and
    removed at once leaves the bitmap, the sizes of all the inodes, every
    lookup in every other directory, the image and the open-file table as
    they were; the call returns 0 with any fuel (it makes no recursive
    call). *)
Theorem create_directory_then_delete (now now' : Z) (fuel : nat) (name : string) (d : Z)
    (fs : Filesystem) (i : Z) (fs1 : Filesystem) :
  well_sized fs = true ->
  create_directory now name d fs = (i, fs1) -> i <> -1 ->
  (String.length name < Z.to_nat MAX_FILE_NAME)%nat ->
  size (inode_at fs d) <> -1 ->
  exists fs2,
    delete_directory now' (S fuel) name d fs1 = Some (0, fs2) /\
    free_blocks fs2 = free_blocks fs /\
    (forall y, size (inode_at fs2 y) = size (inode_at fs y)) /\
    (forall n d', d' <> i -> rechInode n (dir_at fs2 d') = rechInode n (dir_at fs d')) /\
    file fs2 = file fs /\ opened_file fs2 = opened_file fs.
Proof.
  intros Hws H Hi Hl Hlive.
  apply Nat.lt_le_incl in Hl.
  destruct (well_sized_spec fs Hws) as (Li & Ld & Lb & _ & _ & Ldir).
  destruct (create_directory_state _ _ _ _ _ _ Hws H Hi Hl Hlive)
    as (Hir & Hid & Hs & Hdr & Li1 & Ld1 & Ef & Efile & Eo & Ei & Ej & Edi & Edd & Edo).
  destruct (create_directory_success _ _ _ _ _ _ H Hi) as (_ & Hn & Hk & _).
  assert (Hfound : rechInode name (dir_at fs1 d) = i)
    by (rewrite Edd; by apply rechInode_insert_new).
  destruct (rechEntree_slot fs d Hk) as (_ & Hkr & e & He & Hdead).
  set (k := rechEntree fs d) in *.
  assert (Hw : has_permission fs1 i "w" = 1).
  { unfold has_permission.
    destruct (Z.ltb_spec i 0); [lia|]. destruct (Z.geb_spec i NUM_INODES); [lia|].
    cbn [orb]. rewrite Ei. reflexivity. }
  assert (Hloop : forall body,
            (forall j s, body j s =
               let e := entry_at (dir_at s i) j in
               if inode_index e =? -1 then Some s else body j s) ->
            for_loop (Z.to_nat NUM_DIRECTORY_ENTRIES) 0 body fs1 = Some fs1).
  { intros body Hbody. apply for_loop_id. intros j Hj. rewrite Hbody. cbv zeta.
    rewrite Edi. unfold entry_at, arr_get. destruct (Z.ltb_spec j 0); [lia|].
    rewrite lookup_replicate_2 by (unfold NUM_DIRECTORY_ENTRIES in *; lia). reflexivity. }
  assert (D : delete_directory now' (S fuel) name d fs1 =
              Some (0, release_blocks i
                         (upd_inode i
                            (fun n => set_link_count 0
                                       (set_inode_rep_parent (-1)
                                         (set_modification_time now'
                                           (set_creation_time now'
                                             (set_type (-1) (set_size (-1) n))))))
                            (upd_dir d (remove_entry name i) fs1)))).
  { cbn [delete_directory]. rewrite Hfound.
    destruct (Z.eqb_spec i (-1)) as [?|_]; [done|].
    rewrite Ei, Hw. cbn [type set_blocks set_link_count set_permissions
      set_modification_time set_creation_time set_inode_rep_parent set_type].
    change (negb (0 =? 0)) with false. change (1 =? 0) with false. cbv iota.
    rewrite Hloop; [reflexivity|].
    intros j s. cbv zeta. destruct (inode_index (entry_at (dir_at s i) j) =? -1); reflexivity. }
  eexists. split; [exact D|].
  set (fs3 := upd_inode i _ (upd_dir d (remove_entry name i) fs1)).
  assert (Li3 : length (inodes fs3) = length (inodes fs))
    by (unfold fs3; cbn [inodes upd_inode upd_dir with_inodes with_directories];
        by rewrite arr_set_length).
  destruct (release_blocks_spec i fs3 ltac:(unfold NUM_INODES in *; lia))
    as (Rd & Ro & Rf & Rl & Rfl & G & Ri & Rj).
  cbv zeta in *.
  assert (Ei3 : inode_at fs3 i =
                set_link_count 0
                  (set_inode_rep_parent (-1)
                    (set_modification_time now'
                      (set_creation_time now'
                        (set_type (-1) (set_size (-1) (inode_at fs1 i))))))).
  { unfold fs3. rewrite inode_at_upd_inode_eq; [by rewrite inode_at_upd_dir|].
    cbn [inodes upd_dir with_directories]. unfold NUM_INODES in *. lia. }
  assert (Ej3 : forall j, j <> i -> inode_at fs3 j = inode_at fs j).
  { intros j Hj. unfold fs3. rewrite inode_at_upd_inode_ne by congruence.
    rewrite inode_at_upd_dir. by apply Ej. }
  split; [|split; [|split; [|split]]].
  - apply (arr_get_ext 1).
    + rewrite Rfl. unfold fs3. cbn [free_blocks upd_inode upd_dir with_inodes with_directories].
      by rewrite Ef.
    + intros x Hx. rewrite G. rewrite decide_False.
      * unfold fs3. cbn [free_blocks upd_inode upd_dir with_inodes with_directories].
        by rewrite Ef.
      * intros (Hin & Hx0 & _). rewrite Ei3, Ei in Hin.
        cbn [blocks set_blocks set_link_count set_permissions set_size
          set_modification_time set_creation_time set_inode_rep_parent set_type] in Hin.
        apply elem_of_replicate in Hin as [-> _]. lia.
  - intros y. destruct (decide (y = i)) as [->|Hy].
    + rewrite Ri, Ei3. cbn [size set_blocks set_link_count set_permissions set_size
        set_modification_time set_creation_time set_inode_rep_parent set_type].
      by rewrite Hs.
    + rewrite Rj by done. by rewrite Ej3.
  - intros n d' Hd'.
    assert (E : dir_at (release_blocks i fs3) d' = dir_at fs3 d')
      by (unfold dir_at; by rewrite Rd).
    rewrite E. unfold fs3. rewrite dir_at_upd_inode.
    destruct (decide (d' = d)) as [->|Hdd].
    + rewrite dir_at_upd_dir_eq by (rewrite Ld1, Ld; unfold NUM_INODES in *; lia).
      rewrite Edd.
      rewrite (rechInode_full (dir_at fs d)) in * by apply Ldir.
      rewrite remove_entry_insert;
        [|rewrite Ldir; unfold NUM_DIRECTORY_ENTRIES in *; lia|exact Hn|exact Hi].
      rewrite rechInode_full by (rewrite length_insert; apply Ldir).
      apply (rechInode_from_insert_dead _ _ _ e); [exact He | exact Hdead | by right].
    + rewrite dir_at_upd_dir_ne by congruence. by rewrite Edo.
  - rewrite Rf. unfold fs3. cbn [file upd_inode upd_dir with_inodes with_directories].
    exact Efile.
  - rewrite Ro. unfold fs3. cbn [opened_file upd_inode upd_dir with_inodes with_directories].
    exact Eo.
Qed.

Lemma create_directory_then_delete_witness :
  exists fs2,
    delete_directory 1 1 "d" 2 (snd (create_directory 0 "d" 2 (forced_init 0 0)))
      = Some (0, fs2) /\
    free_blocks fs2 = free_blocks (forced_init 0 0) /\
    (forall y, size (inode_at fs2 y) = size (inode_at (forced_init 0 0) y)) /\
    (forall n d', d' <> 4 ->
       rechInode n (dir_at fs2 d') = rechInode n (dir_at (forced_init 0 0) d')) /\
    file fs2 = file (forced_init 0 0) /\ opened_file fs2 = opened_file (forced_init 0 0).
Proof.
  apply (create_directory_then_delete 0 1 0 "d" 2 (forced_init 0 0) 4).
  - vm_compute. reflexivity.
  - vm_compute. reflexivity.
  - discriminate.
  - vm_compute. lia.
  - vm_compute. discriminate.
Defined.

(** ** Links and moves *)

Lemma has_permission_in_range fs i c : has_permission fs i c <> 0 -> 0 <= i < NUM_INODES.
Proof.
  unfold has_permission.
  destruct (Z.ltb_spec i 0); destruct (Z.geb_spec i NUM_INODES); cbn [orb]; done.
Qed.

Lemma fill_entry_short k name i (D : Directory) :
  0 <= k -> (String.length name <= Z.to_nat MAX_FILE_NAME)%nat ->
  fill_entry k name i D = <[Z.to_nat k := mkEntry name i]> (D : list DirectoryEntry).
Proof.
  intros Hk Hl. unfold fill_entry, arr_set. destruct (Z.ltb_spec k 0); [lia|].
  by rewrite strncpy_name_short.
Qed.




(** The state that a successful [move_file] builds. *)
Lemma move_file_success now name src dst fs fs' :
  move_file now name src dst fs = (Done, fs') ->
  let i := rechInode name (dir_at fs src) in
  i <> -1 /\ has_permission fs src "w" <> 0 /\ rechInode name (dir_at fs dst) = -1 /\
  has_permission fs dst "w" <> 0 /\ rechEntree fs dst <> -1 /\
  fs' = upd_inode i (set_modification_time now)
          (upd_dir src (remove_entry name i)
             (upd_dir dst (fill_entry (rechEntree fs dst) name i) fs)).
Proof.
  intros H i. unfold move_file in H. fold i in H.
  destruct (Z.eqb_spec i (-1)) as [?|Hi]; [inversion H|].
  destruct (Z.eqb_spec (has_permission fs src "w") 0) as [?|Hs]; [inversion H|].
  destruct (Z.eqb_spec (rechInode name (dir_at fs dst)) (-1)) as [Hn|?]; [|inversion H].
  cbn [negb] in H.
  destruct (Z.eqb_spec (has_permission fs dst "w") 0) as [?|Ht]; [inversion H|].
  destruct (Z.eqb_spec (rechEntree fs dst) (-1)) as [?|Hk]; [inversion H|].
  inversion H; subst. repeat split; assumption.
Qed.

(** What a move does to the two directories. *)
Lemma move_entry_dirs fs name src dst i :
  well_sized fs = true ->
  i = rechInode name (dir_at fs src) -> i <> -1 ->
  0 <= src < NUM_INODES -> rechInode name (dir_at fs dst) = -1 ->
  rechEntree fs dst <> -1 ->
  (String.length name <= Z.to_nat MAX_FILE_NAME)%nat ->
  let fs' := upd_dir src (remove_entry name i)
               (upd_dir dst (fill_entry (rechEntree fs dst) name i) fs) in
  src <> dst /\
  rechInode name (dir_at fs' dst) = i /\
  (names_unique (dir_at fs src) -> rechInode name (dir_at fs' src) = -1) /\
  (forall n d, n <> name -> rechInode n (dir_at fs' d) = rechInode n (dir_at fs d)) /\
  (forall d, d <> src -> d <> dst -> dir_at fs' d = dir_at fs d).
Proof.
  intros Hws Ei Hi Hsrc Hn Hk Hl fs'.
  destruct (well_sized_spec fs Hws) as (_ & Ld & _).
  destruct (rechEntree_slot fs dst Hk) as (Hd & Hkr & _).
  assert (Hsd : src <> dst) by (intros ->; congruence).
  assert (Edst : dir_at fs' dst = <[Z.to_nat (rechEntree fs dst) := mkEntry name i]>
                                    (dir_at fs dst : list DirectoryEntry)).
  { unfold fs'. rewrite dir_at_upd_dir_ne by exact Hsd.
    rewrite dir_at_upd_dir_eq by exact Hd. apply fill_entry_short; [lia | exact Hl]. }
  assert (Esrc : dir_at fs' src = remove_entry name i (dir_at fs src)).
  { unfold fs'. rewrite dir_at_upd_dir_eq
      by (rewrite directories_upd_dir_length, Ld; unfold NUM_INODES in *; lia).
    by rewrite dir_at_upd_dir_ne by congruence. }
  assert (Eoth : forall d, d <> src -> d <> dst -> dir_at fs' d = dir_at fs d).
  { intros d H1 H2. unfold fs'. by rewrite !dir_at_upd_dir_ne by congruence. }
  split; [exact Hsd|]. split; [|split; [|split]].
  - rewrite Edst. by apply rechInode_insert_new.
  - intros Hu. rewrite Esrc, Ei. unfold rechInode. rewrite remove_entry_take.
    apply rechInode_from_remove_same; [|exact Hu]. fold (rechInode name (dir_at fs src)).
    congruence.
  - intros n d Hne. destruct (decide (d = dst)) as [->|H1].
    + rewrite Edst. by apply rechInode_insert_other.
    + destruct (decide (d = src)) as [->|H2]; [|by rewrite Eoth].
      rewrite Esrc. unfold rechInode. rewrite remove_entry_take.
      by apply rechInode_from_remove_other.
  - exact Eoth.
Qed.

(** X13: After a successful [move_file] the name resolves in the target
    directory to the inode it had in the source directory, and no more in
    the source directory when no name is used twice there; the other names
    resolve as before.  The inode keeps the [inode_rep_parent] it had: the
    moved file still counts the source directory as its parent. *)
Theorem move_file_moves_the_entry (now : Z) (name : string) (src dst : Z)
    (fs fs' : Filesystem) :
  well_sized fs = true ->
  move_file now name src dst fs = (Done, fs') ->
  (String.length name < Z.to_nat MAX_FILE_NAME)%nat ->
  let i := rechInode name (dir_at fs src) in
  src <> dst /\
  rechInode name (dir_at fs' dst) = i /\
  (names_unique (dir_at fs src) -> rechInode name (dir_at fs' src) = -1) /\
  (forall n d, n <> name -> rechInode n (dir_at fs' d) = rechInode n (dir_at fs d)) /\
  (forall y, inode_rep_parent (inode_at fs' y) = inode_rep_parent (inode_at fs y)) /\
  free_blocks fs' = free_blocks fs.
Proof.
  intros Hws H Hl i.
  apply Nat.lt_le_incl in Hl.
  destruct (move_file_success _ _ _ _ _ _ H) as (Hi & Hs & Hn & _ & Hk & ->).
  fold i in Hi |- *.
  destruct (move_entry_dirs fs name src dst i Hws eq_refl Hi
              (has_permission_in_range _ _ _ Hs) Hn Hk Hl) as (H1 & H2 & H3 & H4 & _).
  split; [exact H1|]. split; [by rewrite dir_at_upd_inode|].
  split; [intros Hu; rewrite dir_at_upd_inode; by apply H3|].
  split; [intros n d Hne; rewrite dir_at_upd_inode; by apply H4|].
  split; [|reflexivity].
  intros y. rewrite (upd_inode_keeps inode_rep_parent) by reflexivity.
  by rewrite !inode_at_upd_dir.
Qed.

Lemma move_file_moves_the_entry_witness :
  rechInode "a" (dir_at (snd (move_file 0 "a" 2 1 session_touch)) 1) = 4 /\
  rechInode "a" (dir_at (snd (move_file 0 "a" 2 1 session_touch)) 2) = -1 /\
  inode_rep_parent (inode_at (snd (move_file 0 "a" 2 1 session_touch)) 4) = 2.
Proof.
  destruct (move_file_moves_the_entry 0 "a" 2 1 session_touch
              (snd (move_file 0 "a" 2 1 session_touch)))
    as (_ & H1 & H2 & _ & H3 & _).
  - vm_compute. reflexivity.
  - vm_compute. reflexivity.
  - vm_compute. lia.
  - split; [rewrite H1; vm_compute; reflexivity|]. split.
    + apply H2. unfold names_unique. apply (bool_decide_unpack _). vm_compute. exact I.
    + rewrite H3. vm_compute. reflexivity.
Defined.

(** The state that a successful [move_directory] builds. *)
Lemma move_directory_success now name src dst fs fs' :
  move_directory now name src dst fs = (0, fs') ->
  let i := rechInode name (dir_at fs src) in
  i <> -1 /\ type (inode_at fs i) = 0 /\ has_permission fs src "w" <> 0 /\
  rechInode name (dir_at fs dst) = -1 /\
  has_permission fs dst "w" <> 0 /\ rechEntree fs dst <> -1 /\
  fs' = upd_inode i (fun n => set_modification_time now (set_inode_rep_parent dst n))
          (upd_dir src (remove_entry name i)
             (upd_dir dst (fill_entry (rechEntree fs dst) name i) fs)).
Proof.
  intros H i. unfold move_directory in H. fold i in H.
  destruct (Z.eqb_spec i (-1)) as [?|Hi]; [inversion H|].
  destruct (Z.eqb_spec (type (inode_at fs i)) 0) as [Hty|?]; [|inversion H].
  cbn [negb] in H.
  destruct (Z.eqb_spec (has_permission fs src "w") 0) as [?|Hs]; [inversion H|].
  destruct (Z.eqb_spec (rechInode name (dir_at fs dst)) (-1)) as [Hn|?]; [|inversion H].
  cbn [negb] in H.
  destruct (Z.eqb_spec (has_permission fs dst "w") 0) as [?|Ht]; [inversion H|].
  destruct (Z.eqb_spec (rechEntree fs dst) (-1)) as [?|Hk]; [inversion H|].
  inversion H; subst. repeat split; assumption.
Qed.

(** X14: After a successful [move_directory] the name resolves in the target
    directory to the inode it had in the source directory, and no more in
    the source directory when no name is used twice there; the other names
    resolve as before.  The moved directory has the target as its
    [inode_rep_parent], whatever the target is (the directory itself
    included), and no other inode changes its parent. *)
Theorem move_directory_reparents (now : Z) (name : string) (src dst : Z)
    (fs fs' : Filesystem) :
  well_sized fs = true ->
  move_directory now name src dst fs = (0, fs') ->
  (String.length name < Z.to_nat MAX_FILE_NAME)%nat ->
  let i := rechInode name (dir_at fs src) in
  src <> dst /\
  rechInode name (dir_at fs' dst) = i /\
  (names_unique (dir_at fs src) -> rechInode name (dir_at fs' src) = -1) /\
  (forall n d, n <> name -> rechInode n (dir_at fs' d) = rechInode n (dir_at fs d)) /\
  (0 <= i < NUM_INODES -> inode_rep_parent (inode_at fs' i) = dst) /\
  (forall y, y <> i -> inode_rep_parent (inode_at fs' y) = inode_rep_parent (inode_at fs y)).
Proof.
  intros Hws H Hl i.
  apply Nat.lt_le_incl in Hl.
  destruct (well_sized_spec fs Hws) as (Li & _).
  destruct (move_directory_success _ _ _ _ _ _ H) as (Hi & _ & Hs & Hn & _ & Hk & ->).
  fold i in Hi |- *.
  destruct (move_entry_dirs fs name src dst i Hws eq_refl Hi
              (has_permission_in_range _ _ _ Hs) Hn Hk Hl) as (H1 & H2 & H3 & H4 & _).
  split; [exact H1|]. split; [by rewrite dir_at_upd_inode|].
  split; [intros Hu; rewrite dir_at_upd_inode; by apply H3|].
  split; [intros n d Hne; rewrite dir_at_upd_inode; by apply H4|].
  split.
  - intros Hr. rewrite inode_at_upd_inode_eq; [reflexivity|].
    cbn [inodes upd_dir with_directories]. rewrite Li. unfold NUM_INODES in *. lia.
  - intros y Hy. rewrite inode_at_upd_inode_ne by congruence. by rewrite !inode_at_upd_dir.
Qed.

Lemma move_directory_reparents_witness :
  rechInode "local" (dir_at (snd (move_directory 0 "local" 1 2 (forced_init 0 0))) 2) = 3 /\
  inode_rep_parent (inode_at (snd (move_directory 0 "local" 1 2 (forced_init 0 0))) 3) = 2.
Proof.
  destruct (move_directory_reparents 0 "local" 1 2 (forced_init 0 0)
              (snd (move_directory 0 "local" 1 2 (forced_init 0 0))))
    as (_ & H1 & _ & _ & H2 & _).
  - vm_compute. reflexivity.
  - vm_compute. reflexivity.
  - vm_compute. lia.
  - assert (E : rechInode "local" (dir_at (forced_init 0 0) 1) = 3) by (vm_compute; reflexivity).
    rewrite E in H1, H2. split; [exact H1|]. apply H2. unfold NUM_INODES. lia.
Defined.

(** ** change_permissions *)




(** ** write_file: when it returns *)

Lemma update_parents_returns n x maj fs fs1 :
  (forall y, inode_rep_parent (inode_at fs1 y) = inode_rep_parent (inode_at fs y)) ->
  is_Some (update_parents n x maj fs1) <-> reaches_root n fs x = true.
Proof.
  revert x fs1. induction n as [|n IH]; intros x fs1 Hp.
  - unfold update_parents. cbn [reaches_root]. destruct (x =? 0).
    + split; [done | by eexists].
    + split; [by intros [? ?] | done].
  - rewrite update_parents_S.
    cbn [reaches_root]. destruct (x =? 0); [split; [done | by eexists]|].
    rewrite Hp. destruct (in_table x && in_table _); cbn [andb].
    + apply IH. intros y.
      rewrite (upd_inode_keeps inode_rep_parent) by reflexivity. apply Hp.
    + split; [by intros [? ?] | done].
Qed.

(** X16: The loop of [write_file] that adds the count to the sizes of the
    parents walks the chain of [inode_rep_parent] until it meets inode 0.
    A call that passes the checks has a result exactly when that chain
    reaches inode 0 through indices of the table; when the chain leaves the
    table (the parent of a free inode is -1) or turns in a cycle, it has
    none.  A call that fails a check always returns. *)
Theorem write_file_returns (desc : Z) (texte : list Z) (n : Z) (fs : Filesystem) :
  let ino := inode (open_at fs desc) in
  write_file desc texte n fs = None <->
  bad_descriptor fs desc = false /\ 0 <= n /\
  has_permission fs ino "w" <> 0 /\ type (inode_at fs ino) = 1 /\
  fst (find_block (take (Z.to_nat NUM_BLOCKS) (blocks (inode_at fs ino))) 0
                  (tete_lecture (open_at fs desc)) 0) <> -1 /\
  reaches_root (Z.to_nat NUM_INODES) fs ino = false.
Proof.
  intros ino. unfold write_file. fold ino.
  destruct (bad_descriptor fs desc).
  { split; [discriminate | by intros (? & _)]. }
  destruct (Z.ltb_spec n 0).
  { split; [discriminate | intros (_ & ? & _); lia]. }
  destruct (Z.eqb_spec (has_permission fs ino "w") 0).
  { split; [discriminate | by intros (_ & _ & ? & _)]. }
  destruct (Z.eqb_spec (type (inode_at fs ino)) 1); cbn [negb];
    [|split; [discriminate | by intros (_ & _ & _ & ? & _)]].
  destruct (find_block _ 0 _ 0) as [bi nb]. cbn [fst].
  destruct (Z.eqb_spec bi (-1)).
  { split; [discriminate | by intros (_ & _ & _ & _ & ? & _)]. }
  set (st2 := write_blocks _ ino texte n bi _).
  assert (Hk : write_keeps fs ino st2).
  { apply write_blocks_keeps, write_loop_keeps.
    unfold write_keeps; cbn [w_fs w_maj]. repeat split; try done. intros _. lia. }
  destruct Hk as (_ & Hp & _).
  pose proof (update_parents_returns (Z.to_nat NUM_INODES) ino (w_maj st2) fs (w_fs st2) Hp) as R.
  destruct (update_parents _ ino (w_maj st2) (w_fs st2)) as [fs2|].
  - split; [discriminate|]. intros (_ & _ & _ & _ & _ & Hr).
    assert (Hs : is_Some (Some fs2)) by (by eexists). apply R in Hs. congruence.
  - split; [|done]. intros _. repeat split; try done.
    destruct (reaches_root _ fs ino); [|reflexivity].
    destruct (proj2 R eq_refl) as [? ?]. discriminate.
Qed.

Lemma write_file_returns_witness :
  write_file 0 [120] 1 session_cycle = None /\
  is_Some (write_file 0 [120] 1 session_open).
Proof.
  split.
  - apply (write_file_returns 0 [120] 1 session_cycle). vm_compute.
    repeat split; discriminate.
  - destruct (write_file 0 [120] 1 session_open) eqn:E; [by eexists|].
    apply (write_file_returns 0 [120] 1 session_open) in E.
    destruct E as (_ & _ & _ & _ & _ & E). vm_compute in E. discriminate E.
Defined.

(** The chain that leaves the table: on [session_orphan] the parent loop
    goes from inode 5 to the free inode 4 and from there to -1, where the
    source indexes [fs.inodes] outside the array; the write has no result. *)
Lemma write_file_leaves_the_table :
  open_at session_orphan 0 = mkOpen 5 sizeof_Filesystem /\
  inode_rep_parent (inode_at session_orphan 5) = 4 /\
  type (inode_at session_orphan 4) = -1 /\
  inode_rep_parent (inode_at session_orphan 4) = -1 /\
  reaches_root (Z.to_nat NUM_INODES) session_orphan 5 = false /\
  write_file 0 [120] 1 session_orphan = None.
Proof. vm_compute. repeat split; reflexivity. Qed.

(** ** write_file and read_file inside a block *)

Lemma write_file_passes desc texte n fs :
  let ino := inode (open_at fs desc) in
  bad_descriptor fs desc = false -> 0 <= n ->
  has_permission fs ino "w" <> 0 -> type (inode_at fs ino) = 1 ->
  fst (find_block (take (Z.to_nat NUM_BLOCKS) (blocks (inode_at fs ino))) 0
                  (tete_lecture (open_at fs desc)) 0) <> -1 ->
  reaches_root (Z.to_nat NUM_INODES) fs ino = true ->
  exists ret fs', write_file desc texte n fs = Some (ret, fs') /\ ret <> -1.
Proof.
  intros ino Hbad Hn Hw Hty Hfind Hroot. unfold write_file. fold ino. rewrite Hbad.
  destruct (Z.ltb_spec n 0); [lia|].
  destruct (Z.eqb_spec (has_permission fs ino "w") 0); [done|].
  rewrite Hty. change (negb (1 =? 1)) with false. cbv iota.
  destruct (find_block _ 0 _ 0) as [bi nb]. cbn [fst] in Hfind.
  destruct (Z.eqb_spec bi (-1)); [done|].
  set (st2 := write_blocks _ ino texte n bi _).
  assert (Hk : write_keeps fs ino st2).
  { apply write_blocks_keeps, write_loop_keeps.
    unfold write_keeps; cbn [w_fs w_maj]. repeat split; try done. intros _. lia. }
  destruct Hk as (_ & Hp & _ & _ & Hm).
  destruct (proj2 (update_parents_returns (Z.to_nat NUM_INODES) ino (w_maj st2) fs
                     (w_fs st2) Hp) Hroot) as [fs2 ->].
  eexists _, _. split; [reflexivity | lia].
Qed.

(** X17: A write that stays inside the block of the cursor and inside the
    image, from an inode whose chain of parents reaches the root through
    indices of the table: the call
    returns the number of offsets of [cursor, cursor + n) that held a zero
    byte, stores the [n] bytes there and nowhere else, moves the cursor by
    [n] and changes no type, permission, block list or parent. *)
Theorem write_file_in_block (desc : Z) (texte : list Z) (n : Z) (fs : Filesystem)
    (bi nb : Z) :
  let c := tete_lecture (open_at fs desc) in
  let ino := inode (open_at fs desc) in
  bad_descriptor fs desc = false -> 0 <= n ->
  has_permission fs ino "w" <> 0 -> type (inode_at fs ino) = 1 ->
  find_block (take (Z.to_nat NUM_BLOCKS) (blocks (inode_at fs ino))) 0 c 0 = (bi, nb) ->
  bi <> -1 ->
  0 <= c -> c + n <= block_end nb -> c + n <= len (file fs) ->
  reaches_root (Z.to_nat NUM_INODES) fs ino = true ->
  exists fs',
    write_file desc texte n fs = Some (zero_bytes (file fs) c (Z.to_nat n), fs') /\
    opened_file fs' = arr_set (opened_file fs) desc (mkOpen ino (c + n)) /\
    len (file fs') = len (file fs) /\
    (forall q, byte_at (file fs') q =
               if decide (c <= q < c + n) then arr_get 0 texte (q - c)
               else byte_at (file fs) q) /\
    (forall y, type (inode_at fs' y) = type (inode_at fs y) /\
               permissions (inode_at fs' y) = permissions (inode_at fs y) /\
               blocks (inode_at fs' y) = blocks (inode_at fs y) /\
               inode_rep_parent (inode_at fs' y) = inode_rep_parent (inode_at fs y)).
Proof.
  intros c ino Hbad Hn Hw Hty Hfind Hbi Hc Hend Hlen Hroot.
  destruct (write_file_passes desc texte n fs Hbad Hn Hw Hty) as (ret & fs' & W & Hret);
    [fold ino c; by rewrite Hfind | exact Hroot |].
  pose proof (write_file_count_inside_block _ _ _ _ _ _ _ _ W Hret Hfind Hc Hend Hlen) as ->.
  destruct (write_file_inside_block _ _ _ _ _ _ _ _ W Hret Hfind Hc Hend Hlen)
    as (Ho & [_ Hi] & Hl & Hby).
  exists fs'. split; [exact W|]. split; [exact Ho|]. split; [exact Hl|].
  split; [exact Hby|]. intros y. apply (Hi y).
Qed.

Lemma write_file_in_block_witness :
  exists fs',
    write_file 0 (bytes_of "hello") 5 session_open = Some (5, fs') /\
    tete_lecture (open_at fs' 0) = sizeof_Filesystem + 5 /\
    byte_at (file fs') (sizeof_Filesystem + 1) = 101.
Proof.
  destruct (write_file_in_block 0 (bytes_of "hello") 5 session_open 0 0)
    as (fs' & W & Ho & _ & Hby & _).
  - vm_compute. reflexivity.
  - lia.
  - vm_compute. discriminate.
  - vm_compute. reflexivity.
  - vm_compute. reflexivity.
  - discriminate.
  - vm_compute. discriminate.
  - vm_compute. discriminate.
  - vm_compute. discriminate.
  - vm_compute. reflexivity.
  - exists fs'. split; [|split].
    + rewrite W. vm_compute. reflexivity.
    + unfold open_at. rewrite Ho. vm_compute. reflexivity.
    + rewrite Hby. vm_compute. reflexivity.
Defined.

Lemma read_loop_cursor (m : nat) sz nb st :
  0 <= r_lecteur st ->
  r_lecteur st + Z.of_nat m <= len (r_file st) ->
  r_lecteur st + Z.of_nat m <= block_end nb ->
  r_j st + Z.of_nat m = sz ->
  let st' := read_loop m sz nb st in
  r_lecteur st' = r_lecteur st + Z.of_nat m /\
  data (r_file st') = data (r_file st) /\ len (r_file st') = len (r_file st).
Proof.
  revert st. induction m as [|m IH]; intros st Hlo Hlen Hend Hj.
  - change (read_loop 0 sz nb st) with st. cbv zeta. split; [lia | done].
  - change (read_loop (S m) sz nb st) with
      (if (r_j st <? sz) && (to_size_t (r_lecteur st) <=? block_end nb)
       then read_loop m sz nb (read_step st) else st).
    pose proof (block_end_bound nb) as Hb.
    assert (Hs : to_size_t (r_lecteur st) = r_lecteur st)
      by (unfold to_size_t; apply Z.mod_small; lia).
    rewrite Hs.
    destruct (Z.ltb_spec (r_j st) sz) as [_|?]; [|lia].
    destruct (Z.leb_spec (r_lecteur st) (block_end nb)) as [_|?]; [|lia].
    cbn [andb]. rewrite read_step_inside by lia.
    set (st1 := mkR _ _ _ _).
    cbv zeta in IH.
    assert (I : r_lecteur (read_loop m sz nb st1) = r_lecteur st1 + Z.of_nat m /\
                data (r_file (read_loop m sz nb st1)) = data (r_file st1) /\
                len (r_file (read_loop m sz nb st1)) = len (r_file st1))
      by (apply IH; unfold st1; cbn [r_lecteur r_file r_j len]; lia).
    destruct I as (I1 & I2 & I3). cbv zeta. rewrite I1, I2, I3.
    unfold st1. cbn [r_lecteur r_file data len]. split; [lia | done].
Qed.

(** X18: A read that stays inside the block of the cursor and inside the
    image: the call reports no error, the first [n] bytes of the buffer are
    the [n] bytes under the cursor, byte [n] of the buffer is the
    terminator, the rest of the buffer is untouched, the cursor moves by [n]
    and the bytes of the image, the inodes, the directories and the bitmap
    are as they were. *)
Theorem read_file_in_block (desc : Z) (texte : list Z) (n : Z) (fs : Filesystem)
    (bi nb : Z) :
  let c := tete_lecture (open_at fs desc) in
  let ino := inode (open_at fs desc) in
  bad_descriptor fs desc = false -> 0 <= n ->
  type (inode_at fs ino) = 1 \/ type (inode_at fs ino) = 2 ->
  has_permission fs ino "r" <> 0 ->
  find_block (take (Z.to_nat NUM_BLOCKS) (blocks (inode_at fs ino))) 0 c 0 = (bi, nb) ->
  bi <> -1 ->
  0 <= c -> c + n <= block_end nb -> c + n <= len (file fs) ->
  n < Z.of_nat (length texte) ->
  exists buf fs',
    read_file desc texte n fs = (Done, buf, fs') /\
    length buf = length texte /\
    (forall k, 0 <= k < n -> arr_get 0 buf k = byte_at (file fs) (c + k)) /\
    arr_get 0 buf n = 0 /\
    (forall k, n < k -> arr_get 0 buf k = arr_get 0 texte k) /\
    opened_file fs' = arr_set (opened_file fs) desc (mkOpen ino (c + n)) /\
    data (file fs') = data (file fs) /\ len (file fs') = len (file fs) /\
    inodes fs' = inodes fs /\ directories fs' = directories fs /\
    free_blocks fs' = free_blocks fs.
Proof.
  intros c ino Hbad Hn Hty Hperm Hfind Hbi Hc Hend Hlen Hbuf.
  unfold read_file. rewrite Hbad.
  destruct (Z.ltb_spec n 0) as [?|_]; [lia|]. fold ino.
  assert (Hty' : (negb (type (inode_at fs ino) =? 1)
                  && negb (type (inode_at fs ino) =? 2)) = false)
    by (destruct Hty as [-> | ->]; reflexivity).
  rewrite Hty'.
  destruct (Z.eqb_spec (has_permission fs ino "r") 0) as [?|_]; [done|].
  fold c. rewrite Hfind.
  destruct (Z.eqb_spec bi (-1)) as [?|_]; [done|].
  set (st0 := mkR (file fs) c 0 texte).
  assert (I : r_j (read_loop (Z.to_nat n) n nb st0) = n /\
              length (r_texte (read_loop (Z.to_nat n) n nb st0)) = length texte /\
              forall k, 0 <= k < Z.of_nat (length texte) ->
                arr_get 0 (r_texte (read_loop (Z.to_nat n) n nb st0)) k =
                if decide (0 <= k < n) then byte_at (file fs) (c + (k - 0))
                else arr_get 0 texte k)
    by (apply (read_loop_inside (Z.to_nat n) n nb st0);
        unfold st0; cbn [r_lecteur r_j r_file r_texte]; lia).
  assert (J : r_lecteur (read_loop (Z.to_nat n) n nb st0) = c + Z.of_nat (Z.to_nat n) /\
              data (r_file (read_loop (Z.to_nat n) n nb st0)) = data (file fs) /\
              len (r_file (read_loop (Z.to_nat n) n nb st0)) = len (file fs))
    by (apply (read_loop_cursor (Z.to_nat n) n nb st0);
        unfold st0; cbn [r_lecteur r_j r_file r_texte]; lia).
  destruct I as (H1 & H2 & H3). destruct J as (J1 & J2 & J3).
  rewrite read_blocks_done by lia.
  set (st1 := read_loop (Z.to_nat n) n nb st0) in *.
  eexists _, _. split; [reflexivity|].
  rewrite arr_set_length.
  split; [exact H2|]. split; [|split; [|split; [|split]]].
  - intros k Hk. rewrite arr_get_set_ne by lia.
    rewrite H3 by lia. rewrite decide_True by lia. f_equal. lia.
  - apply arr_get_set_eq. lia.
  - intros k Hk. rewrite arr_get_set_ne by lia.
    destruct (decide (k < Z.of_nat (length texte))) as [Hin|Hout].
    + rewrite H3 by lia. by rewrite decide_False by lia.
    + unfold arr_get. destruct (Z.ltb_spec k 0); [lia|].
      rewrite !(proj2 (lookup_ge_None _ _)) by lia. reflexivity.
  - unfold upd_open. cbn [opened_file with_opened_file with_file].
    change (open_at (with_file ?f fs) desc) with (open_at fs desc).
    rewrite J1. f_equal. f_equal. lia.
  - repeat split; assumption || reflexivity.
Qed.

Lemma read_file_in_block_witness :
  exists buf fs',
    read_file 0 [7; 7; 7] 2 session_open = (Done, buf, fs') /\
    buf = [0; 0; 0] /\ tete_lecture (open_at fs' 0) = sizeof_Filesystem + 2.
Proof.
  destruct (read_file_in_block 0 [7; 7; 7] 2 session_open 0 0)
    as (buf & fs' & R & _ & _ & _ & _ & Ho & _).
  - vm_compute. reflexivity.
  - lia.
  - left. vm_compute. reflexivity.
  - vm_compute. discriminate.
  - vm_compute. reflexivity.
  - discriminate.
  - vm_compute. discriminate.
  - vm_compute. discriminate.
  - vm_compute. discriminate.
  - vm_compute. reflexivity.
  - exists buf, fs'. split; [exact R|]. split.
    + assert (E : snd (fst (read_file 0 [7; 7; 7] 2 session_open)) = [0; 0; 0])
        by (vm_compute; reflexivity).
      rewrite R in E. exact E.
    + unfold open_at. rewrite Ho. vm_compute. reflexivity.
Defined.

(** ** seek_file *)

Lemma sizeof_Filesystem_value : sizeof_Filesystem = 18171416.
Proof. reflexivity. Qed.

Lemma block_start_valid nb :
  0 <= nb < NUM_BLOCKS ->
  block_start nb = sizeof_Filesystem + nb * BLOCK_SIZE /\
  block_end nb = sizeof_Filesystem + nb * BLOCK_SIZE + BLOCK_SIZE /\
  to_int (block_start nb) = sizeof_Filesystem + nb * BLOCK_SIZE.
Proof.
  intros H. unfold block_start, block_end, to_size_t, to_int.
  rewrite sizeof_Filesystem_value. unfold NUM_BLOCKS, BLOCK_SIZE in *.
  rewrite !Z.mod_small by lia. repeat split; lia.
Qed.

Lemma seek_loop_inside (m : nat) off nb l j :
  0 <= l -> l + Z.of_nat m <= block_end nb + 1 -> j + Z.of_nat m <= off ->
  seek_loop m off nb (l, j) = (l + Z.of_nat m, j + Z.of_nat m).
Proof.
  revert l j. induction m as [|m IH]; intros l j Hl Hend Hj.
  - change (seek_loop 0 off nb (l, j)) with (l, j). f_equal; lia.
  - change (seek_loop (S m) off nb (l, j)) with
      (if (j <? off) && (to_size_t l <=? block_end nb)
       then seek_loop m off nb (l + 1, j + 1) else (l, j)).
    pose proof (block_end_bound nb) as Hb.
    assert (Hs : to_size_t l = l) by (unfold to_size_t; apply Z.mod_small; lia).
    rewrite Hs.
    destruct (Z.ltb_spec j off); [|lia]. destruct (Z.leb_spec l (block_end nb)); [|lia].
    cbn [andb]. rewrite IH by lia. f_equal; lia.
Qed.

Lemma seek_blocks_S n bl off bi st :
  seek_blocks (S n) bl off bi st =
  if snd st <? off then
    let num_block := arr_get (-1) bl bi in
    if num_block =? -1 then (Erreur, st)
    else seek_blocks n bl off (bi + 1)
           (seek_loop (Z.to_nat (off - snd st)) off num_block
                      (to_int (block_start num_block), snd st))
  else (Done, st).
Proof. reflexivity. Qed.

Lemma seek_blocks_done n bl off bi st :
  off <= snd st -> seek_blocks n bl off bi st = (Done, st).
Proof.
  intros H. destruct n as [|n]; [reflexivity|]. rewrite seek_blocks_S.
  destruct (Z.ltb_spec (snd st) off); [lia | reflexivity].
Qed.

(** The walk of [seek_file] from the start of block [nb], for an offset of
    at most one block and one byte. *)
Lemma seek_blocks_first n bl off bi nb l0 :
  arr_get (-1) bl bi = nb -> 0 <= nb < NUM_BLOCKS -> 0 < off <= BLOCK_SIZE + 1 ->
  seek_blocks (S n) bl off bi (l0, 0) =
  (Done, (sizeof_Filesystem + nb * BLOCK_SIZE + off, off)).
Proof.
  intros Hnb Hr Hoff. rewrite seek_blocks_S. cbn [snd]. cbv zeta. rewrite Hnb.
  destruct (Z.ltb_spec 0 off); [|lia]. destruct (Z.eqb_spec nb (-1)); [lia|].
  destruct (block_start_valid nb Hr) as (_ & He & ->).
  rewrite seek_loop_inside
    by (rewrite ?He, ?sizeof_Filesystem_value; unfold BLOCK_SIZE, NUM_BLOCKS in *; lia).
  rewrite seek_blocks_done by (cbn [snd]; lia).
  do 2 f_equal; lia.
Qed.

(** X19: [seek_file] from the start of the file (whence 0), to an offset of at
    most one block and one byte: the cursor goes to that offset from the
    first byte of the first block of the file, and no error is reported. *)
Theorem seek_file_from_start (desc off : Z) (fs : Filesystem) :
  let b0 := arr_get (-1) (blocks (inode_at fs (inode (open_at fs desc)))) 0 in
  bad_descriptor fs desc = false -> 0 <= b0 < NUM_BLOCKS ->
  0 <= off <= BLOCK_SIZE + 1 ->
  seek_file desc off 0 fs =
  (Done, upd_open desc
           (fun o => mkOpen (inode o) (sizeof_Filesystem + b0 * BLOCK_SIZE + off)) fs).
Proof.
  intros b0 Hbad Hb Hoff. unfold seek_file. rewrite Hbad.
  destruct (Z.ltb_spec off 0); [lia|]. change (0 =? 0) with true. cbv iota.
  fold b0. rewrite Nat.add_1_r.
  destruct (block_start_valid b0 Hb) as (_ & _ & Es).
  destruct (decide (off = 0)) as [->|Hne].
  - rewrite seek_blocks_done by (cbn [snd]; lia). rewrite Es, Z.add_0_r. reflexivity.
  - rewrite (seek_blocks_first _ _ off 0 b0) by (reflexivity || lia). reflexivity.
Qed.

Lemma seek_file_from_start_witness :
  tete_lecture (open_at (snd (seek_file 0 513 0 session_open)) 0)
  = sizeof_Filesystem + 513 /\
  fst (seek_file 0 513 0 session_open) = Done.
Proof.
  rewrite (seek_file_from_start 0 513 session_open).
  - split; [vm_compute; reflexivity | reflexivity].
  - vm_compute. reflexivity.
  - vm_compute. split; [discriminate | reflexivity].
  - unfold BLOCK_SIZE. lia.
Defined.

Lemma find_block_spec l s c nb0 bi nb :
  find_block l s c nb0 = (bi, nb) -> bi <> -1 -> 0 <= s ->
  s <= bi < s + Z.of_nat (length l) /\
  l !! Z.to_nat (bi - s) = Some nb /\ in_block nb c = true.
Proof.
  revert s nb0. induction l as [|a l IH]; intros s nb0 H Hne Hs; cbn [find_block] in H.
  - inversion H; lia.
  - destruct (in_block a c) eqn:E.
    + inversion H; subst. replace (bi - bi) with 0 by lia.
      cbn [length]. split; [lia|]. split; [reflexivity | exact E].
    + destruct (IH _ _ H Hne ltac:(lia)) as (Hr & Hl & Hin). cbn [length].
      split; [lia|]. split; [|exact Hin].
      replace (Z.to_nat (bi - s)) with (S (Z.to_nat (bi - (s + 1)))) by lia. exact Hl.
Qed.

(** X20: [seek_file] from the current position (whence 2): an offset of 0
    leaves the cursor where it is; a positive offset of at most one block
    and one byte is counted from the first byte of the block that holds the
    cursor, not from the cursor. *)
Theorem seek_file_from_current (desc off : Z) (fs : Filesystem) (bi nb : Z) :
  let c := tete_lecture (open_at fs desc) in
  let ino := inode (open_at fs desc) in
  bad_descriptor fs desc = false ->
  find_block (take (Z.to_nat NUM_BLOCKS) (blocks (inode_at fs ino))) 0 c 0 = (bi, nb) ->
  bi <> -1 -> 0 <= nb < NUM_BLOCKS -> 0 <= off <= BLOCK_SIZE + 1 ->
  in_block nb c = true /\
  seek_file desc off 2 fs =
  (Done, upd_open desc
           (fun o => mkOpen (inode o)
                       (if off =? 0 then c
                        else sizeof_Filesystem + nb * BLOCK_SIZE + off)) fs).
Proof.
  intros c ino Hbad Hfind Hbi Hnb Hoff.
  destruct (find_block_spec _ _ _ _ _ _ Hfind Hbi ltac:(lia)) as (Hr & Hl & Hin).
  rewrite Z.sub_0_r in Hl. apply lookup_take_Some in Hl as [Hl _].
  split; [exact Hin|].
  unfold seek_file. rewrite Hbad.
  destruct (Z.ltb_spec off 0); [lia|]. change (2 =? 0) with false.
  change (2 =? 2) with true. cbv iota. fold ino c. rewrite Hfind, Nat.add_1_r.
  destruct (Z.eqb_spec off 0) as [->|Hne].
  - rewrite seek_blocks_done by (cbn [snd]; lia). reflexivity.
  - rewrite (seek_blocks_first _ _ off bi nb); [reflexivity| |exact Hnb|lia].
    unfold arr_get. destruct (Z.ltb_spec bi 0); [lia|]. by rewrite Hl.
Qed.

Lemma seek_file_from_current_witness :
  tete_lecture (open_at (snd (seek_file 0 3 2 (snd (seek_file 0 10 0 session_open)))) 0)
  = sizeof_Filesystem + 3.
Proof.
  destruct (seek_file_from_current 0 3 (snd (seek_file 0 10 0 session_open)) 0 0) as [_ E].
  - vm_compute. reflexivity.
  - vm_compute. reflexivity.
  - discriminate.
  - unfold NUM_BLOCKS. lia.
  - unfold BLOCK_SIZE. lia.
  - rewrite E. vm_compute. reflexivity.
Defined.

(** ** The open-file table *)

(** X21: [open_file] looks at no permission.  A successful call returns the
    lowest descriptor whose slot is free (its inode is -1), binds it to the
    inode of the name with the cursor on the first byte of the first block
    of the file, and changes no other slot and nothing else in the state. *)
Theorem open_file_lowest_free (name : string) (d : Z) (fs : Filesystem)
    (desc : Z) (fs' : Filesystem) :
  open_file name d fs = (desc, fs') -> desc <> -1 ->
  let i := rechInode name (dir_at fs d) in
  let b0 := arr_get (-1) (blocks (inode_at fs i)) 0 in
  0 <= desc < MAX_FILE_OPEN /\
  i <> -1 /\ (type (inode_at fs i) = 1 \/ type (inode_at fs i) = 2) /\
  inode (open_at fs desc) = -1 /\
  (forall k, 0 <= k < desc -> inode (open_at fs k) <> -1) /\
  inode (open_at fs' desc) = i /\
  (0 <= b0 < NUM_BLOCKS ->
   tete_lecture (open_at fs' desc) = sizeof_Filesystem + b0 * BLOCK_SIZE) /\
  (forall k, k <> desc -> open_at fs' k = open_at fs k) /\
  fs' = with_opened_file (opened_file fs') fs.
Proof.
  intros H Hd i b0. unfold open_file in H. fold i in H.
  destruct (Z.eqb_spec i (-1)) as [?|Hi]; [inversion H; lia|].
  destruct (negb (type (inode_at fs i) =? 1) && negb (type (inode_at fs i) =? 2)) eqn:Hty;
    [inversion H; lia|].
  assert (Hty' : type (inode_at fs i) = 1 \/ type (inode_at fs i) = 2).
  { destruct (Z.eqb_spec (type (inode_at fs i)) 1); [by left|].
    destruct (Z.eqb_spec (type (inode_at fs i)) 2); [by right | discriminate Hty]. }
  set (k0 := first_free_slot (take (Z.to_nat MAX_FILE_OPEN) (opened_file fs)) 0) in *.
  destruct (Z.eqb_spec k0 (-1)) as [?|Hk]; [inversion H; lia|].
  apply pair_equal_spec in H as [<- <-].
  destruct (first_free_slot_spec _ 0 k0 eq_refl Hk ltac:(lia)) as [Hr (o & Ho & Hfree)].
  rewrite length_take in Hr. rewrite Z.sub_0_r in Ho.
  apply lookup_take_Some in Ho as [Ho Hlt].
  pose proof (lookup_lt_Some _ _ _ Ho) as Hlen.
  split; [unfold MAX_FILE_OPEN in *; lia|].
  split; [exact Hi|]. split; [exact Hty'|]. split; [|split].
  - unfold open_at, arr_get. destruct (Z.ltb_spec k0 0); [lia|]. by rewrite Ho.
  - intros k Hk'. unfold open_at, arr_get. destruct (Z.ltb_spec k 0); [lia|].
    destruct (lookup_lt_is_Some_2 (opened_file fs) (Z.to_nat k) ltac:(lia)) as [o' Ho'].
    rewrite Ho'. cbn [default].
    apply (first_free_slot_least _ 0 k0 eq_refl Hk ltac:(lia) (Z.to_nat k) o'); [lia|].
    rewrite lookup_take_lt by lia. exact Ho'.
  - rewrite open_at_upd_open_eq by lia. cbn [inode tete_lecture].
    split; [reflexivity|]. split; [|split; [|reflexivity]].
    + intros Hb. destruct (block_start_valid b0 Hb) as (_ & _ & E). exact E.
    + intros k Hk'. unfold upd_open, open_at. cbn [opened_file with_opened_file].
      apply arr_get_set_ne. congruence.
Qed.

Lemma open_file_lowest_free_witness :
  fst (open_file "a" 2 session_open) = 1 /\
  tete_lecture (open_at (snd (open_file "a" 2 session_open)) 1) = sizeof_Filesystem /\
  open_at (snd (open_file "a" 2 session_open)) 0 = open_at session_open 0.
Proof.
  assert (E : fst (open_file "a" 2 session_open) = 1) by (vm_compute; reflexivity).
  destruct (open_file_lowest_free "a" 2 session_open 1 (snd (open_file "a" 2 session_open)))
    as (_ & _ & _ & _ & _ & _ & H1 & H2 & _).
  - rewrite <- E. by destruct (open_file "a" 2 session_open).
  - discriminate.
  - split; [exact E|]. split; [|apply H2; discriminate].
    rewrite H1; [vm_compute; reflexivity|]. vm_compute. split; [discriminate | reflexivity].
Defined.

(** X22: A descriptor that was closed is refused afterwards: [close_file]
    frees the slot and changes no other, and then [read_file], [write_file],
    [seek_file] and [close_file] on that descriptor report an error and
    leave the state and the buffer as they are. *)
Theorem close_file_then_refused (desc : Z) (fs fs' : Filesystem) :
  close_file desc fs = (Done, fs') ->
  desc < Z.of_nat (length (opened_file fs)) ->
  open_at fs' desc = mkOpen (-1) (-1) /\
  (forall k, k <> desc -> open_at fs' k = open_at fs k) /\
  fs' = with_opened_file (opened_file fs') fs /\
  close_file desc fs' = (Erreur, fs') /\
  (forall texte n, read_file desc texte n fs' = (Erreur, texte, fs')) /\
  (forall texte n, write_file desc texte n fs' = Some (-1, fs')) /\
  (forall off whence, seek_file desc off whence fs' = (Erreur, fs')).
Proof.
  intros H Hlen. unfold close_file in H.
  destruct (bad_descriptor fs desc) eqn:Hbad; [inversion H|].
  apply pair_equal_spec in H as [_ <-].
  assert (H0 : 0 <= desc).
  { unfold bad_descriptor in Hbad. destruct (Z.ltb_spec desc 0); [|lia].
    by rewrite orb_true_r in Hbad. }
  assert (Ho : open_at (upd_open desc (fun _ => mkOpen (-1) (-1)) fs) desc = mkOpen (-1) (-1))
    by (by rewrite open_at_upd_open_eq by lia).
  assert (Hbad' : bad_descriptor (upd_open desc (fun _ => mkOpen (-1) (-1)) fs) desc = true).
  { unfold bad_descriptor. rewrite Ho. cbn [inode].
    change (-1 =? -1) with true. by rewrite orb_true_r. }
  split; [exact Ho|]. split; [|split; [reflexivity|]].
  - intros k Hk. unfold upd_open, open_at. cbn [opened_file with_opened_file].
    apply arr_get_set_ne. congruence.
  - split; [unfold close_file; by rewrite Hbad'|].
    split; [intros texte n; unfold read_file; by rewrite Hbad'|].
    split; [intros texte n; unfold write_file; by rewrite Hbad'|].
    intros off whence. unfold seek_file. by rewrite Hbad'.
Qed.

Lemma close_file_then_refused_witness :
  write_file 0 [120] 1 (snd (close_file 0 session_open))
  = Some (-1, snd (close_file 0 session_open)) /\
  open_at (snd (close_file 0 session_open)) 0 = mkOpen (-1) (-1).
Proof.
  destruct (close_file_then_refused 0 session_open (snd (close_file 0 session_open)))
    as (H1 & _ & _ & _ & _ & H2 & _).
  - vm_compute. reflexivity.
  - vm_compute. reflexivity.
  - split; [apply H2 | exact H1].
Defined.

(** ** [pwd], then [cd] *)

Lemma string_app_cons c s1 s2 : String c s1 +:+ s2 = String c (s1 +:+ s2).
Proof. reflexivity. Qed.

Lemma string_app_nil_l s : "" +:+ s = s.
Proof. reflexivity. Qed.

Lemma string_length_app s1 s2 :
  String.length (s1 +:+ s2) = (String.length s1 + String.length s2)%nat.
Proof.
  induction s1 as [|c s1 IH]; [reflexivity|].
  rewrite string_app_cons. cbn [String.length]. by rewrite IH.
Qed.

Lemma string_app_assoc s1 s2 s3 : (s1 +:+ s2) +:+ s3 = s1 +:+ s2 +:+ s3.
Proof.
  induction s1 as [|c s1 IH]; [reflexivity|]. rewrite !string_app_cons. by f_equal.
Qed.

Lemma string_app_nil_r s : s +:+ "" = s.
Proof. induction s as [|c s IH]; [reflexivity|]. rewrite string_app_cons. by f_equal. Qed.

Lemma slash_path_app l1 l2 : slash_path (l1 ++ l2) = slash_path l1 +:+ slash_path l2.
Proof.
  induction l1 as [|f l1 IH]; [reflexivity|]. cbn [app slash_path].
  rewrite IH. by rewrite !string_app_assoc.
Qed.

Lemma plain_name_spec f :
  plain_name f = true ->
  f <> ""%string /\ f <> "."%string /\ f <> ".."%string /\
  forallb (fun c => negb (Ascii.eqb c "/")) (list_ascii_of_string f) = true /\
  (String.length f <= Z.to_nat (MAX_FILE_NAME - 1))%nat.
Proof.
  unfold plain_name. rewrite !andb_true_iff, !negb_true_iff, !String.eqb_neq.
  intros [[[[H1 H2] H3] H4] H5]. apply Nat.leb_le in H5. done.
Qed.

(** What [rooted] says at an inode other than the root. *)
Lemma rooted_step n fs x :
  x <> 0 -> rooted (S n) fs x = true ->
  let p := inode_rep_parent (inode_at fs x) in
  0 <= x < NUM_INODES /\ 0 <= p < NUM_DIRECTORY_ENTRIES /\
  exists f,
    find_name x (take (Z.to_nat NUM_DIRECTORY_ENTRIES) (dir_at fs p)) = Some f /\
    plain_name f = true /\ rechInode f (dir_at fs p) = x /\ rooted n fs p = true /\
    names_to (S n) fs x = names_to n fs p ++ [f].
Proof.
  intros Hx H p. cbn [rooted names_to] in *. fold p in H |- *.
  destruct (Z.eqb_spec x 0); [done|].
  destruct (find_name x _) as [f|] eqn:Ef; [|by rewrite andb_false_r in H].
  rewrite !andb_true_iff in H.
  destruct H as [[[[H0 H1] H2] H3] [[H4 H5] H6]].
  apply Z.leb_le in H0, H2. apply Z.ltb_lt in H1, H3. apply Z.eqb_eq in H5.
  split; [lia|]. split; [lia|]. exists f. done.
Qed.

Lemma full_path_loop_rooted n fs psize x acc :
  rooted n fs x = true -> psize <= 2048 ->
  Z.of_nat (String.length (slash_path (names_to n fs x)) + String.length acc) + 1 < psize ->
  full_path_loop n fs psize x acc = Some (slash_path (names_to n fs x) +:+ acc).
Proof.
  revert x acc. induction n as [|n IH]; intros x acc Hr Hp Hl.
  - cbn [rooted full_path_loop names_to] in *.
    destruct (Z.eqb_spec x 0); [reflexivity | done].
  - destruct (decide (x = 0)) as [->|Hx]; [reflexivity|].
    destruct (rooted_step n fs x Hx Hr) as (Hm & Hpr & f & Ef & Hf & _ & Hr' & En).
    destruct (plain_name_spec f Hf) as (_ & _ & _ & _ & Hlf).
    rewrite En, slash_path_app in *. cbn [slash_path] in *.
    rewrite string_app_nil_r in *.
    rewrite !string_length_app in Hl. cbn [String.length] in Hl.
    cbn [full_path_loop].
    destruct (Z.eqb_spec x 0); [done|]. destruct (Z.eqb_spec x (-1)); [lia|]. cbn [orb].
    set (p := inode_rep_parent (inode_at fs x)) in *.
    destruct (Z.ltb_spec p 0); [lia|].
    destruct (Z.geb_spec p NUM_DIRECTORY_ENTRIES); [lia|]. cbn [orb].
    rewrite Ef, (strncpy_name_short _ f) by exact Hlf.
    destruct (Z.ltb_spec (Z.of_nat (String.length acc) + Z.of_nat (String.length f) + 2) psize);
      [|lia].
    assert (Hlen : String.length ("/" +:+ f +:+ acc)
                   = S (String.length f + String.length acc))
      by (rewrite string_app_cons, string_app_nil_l; cbn [String.length];
          by rewrite string_length_app).
    rewrite (strncpy_name_short 2047) by (rewrite Hlen; lia).
    rewrite strncpy_name_short by (rewrite Hlen; lia).
    rewrite IH; [|exact Hr' | exact Hp | lia].
    by rewrite string_app_assoc.
Qed.

Lemma split_slash_plain f rest t ts :
  forallb (fun c => negb (Ascii.eqb c "/")) (list_ascii_of_string f) = true ->
  split_slash rest = t :: ts ->
  split_slash (f +:+ rest) = (f +:+ t) :: ts.
Proof.
  intros Hf Hs. induction f as [|c f IH]; [exact Hs|].
  cbn [list_ascii_of_string forallb] in Hf. apply andb_true_iff in Hf as [Hc Hf].
  rewrite string_app_cons. cbn [split_slash]. apply negb_true_iff in Hc. rewrite Hc.
  by rewrite (IH Hf).
Qed.

Lemma split_slash_slash_path names :
  exists ts, split_slash (slash_path names) = EmptyString :: ts.
Proof. destruct names as [|f names]; [by exists [] | by eexists]. Qed.

Lemma components_slash_path names :
  Forall (fun f => plain_name f = true) names -> components (slash_path names) = names.
Proof.
  induction 1 as [|f names Hf _ IH]; [reflexivity|].
  destruct (plain_name_spec f Hf) as (Hne & _ & _ & Hsl & _).
  destruct (split_slash_slash_path names) as [ts Hts].
  unfold components in *. cbn [slash_path].
  rewrite string_app_cons, string_app_nil_l. cbn [split_slash].
  change (Ascii.eqb "/" "/") with true. cbv iota.
  cbn [List.filter nonempty String.eqb negb].
  rewrite (split_slash_plain f _ _ _ Hsl Hts), string_app_nil_r.
  cbn [List.filter]. unfold nonempty at 1.
  destruct (String.eqb_spec f ""); [done|]. cbn [negb]. f_equal.
  rewrite Hts in IH. cbn [List.filter nonempty String.eqb negb] in IH. exact IH.
Qed.

Lemma resolve_names_to n fs x :
  rooted n fs x = true ->
  resolve fs (names_to n fs x) 0 = Some x /\
  Forall (fun f => plain_name f = true) (names_to n fs x) /\
  walk_in_table fs (names_to n fs x) 0 = true.
Proof.
  revert x. induction n as [|n IH]; intros x Hr.
  - cbn [rooted names_to] in *. destruct (Z.eqb_spec x 0) as [E|]; [subst x | done].
    split; [reflexivity|]. split; [constructor | reflexivity].
  - destruct (decide (x = 0)) as [->|Hx].
    { split; [reflexivity|]. split; [constructor | reflexivity]. }
    destruct (rooted_step n fs x Hx Hr) as (Hrg & Hpr & f & _ & Hf & Hi & Hr' & ->).
    destruct (IH _ Hr') as (Hres & Hall & Hin).
    destruct (plain_name_spec f Hf) as (_ & Hd & Hdd & _).
    split; [|split; [apply Forall_app; split; [exact Hall | by constructor]|]].
    + rewrite resolve_app, Hres. cbn [resolve]. unfold resolve_component.
      destruct (String.eqb_spec f "."); [done|]. destruct (String.eqb_spec f ".."); [done|].
      rewrite Hi. destruct (Z.eqb_spec x (-1)); [lia | reflexivity].
    + rewrite walk_in_table_app, Hin, Hres. cbn [andb walk_in_table].
      unfold resolve_component.
      destruct (String.eqb_spec f "."); [done|]. destruct (String.eqb_spec f ".."); [done|].
      rewrite Hi. destruct (Z.eqb_spec x (-1)); [lia|]. rewrite andb_true_r.
      apply in_table_spec. unfold NUM_DIRECTORY_ENTRIES, NUM_INODES in *. lia.
Qed.

(** X23: [pwd], then [changerRep] on what it printed.  When the directories
    from the current one up to the root are linked both ways by plain names
    and the path is not longer than the copy the resolver makes of it, [pwd]
    prints the names from the root down, each after a '/', the resolver
    leads from any directory [d] back to the current one, and [changerRep]
    with that path answers the current directory. *)
Theorem pwd_then_cd (fuel : nat) (cur d : Z) (fs : Filesystem) :
  rooted fuel fs cur = true ->
  (String.length (slash_path (names_to fuel fs cur)) <= 1023)%nat ->
  type (inode_at fs cur) = 0 ->
  exists p,
    cmd_pwd fuel cur fs = Some p /\
    p = (if cur =? 0 then "/"%string else slash_path (names_to fuel fs cur)) /\
    get_inode_from_path p d fs = Some cur /\
    changerRep p d fs = Some cur.
Proof.
  intros Hr Hl Hty.
  destruct (resolve_names_to fuel fs cur Hr) as (Hres & Hall & Hin).
  pose proof (components_slash_path _ Hall) as Hc.
  assert (Hg : generate_full_path fuel cur "" 2048 fs
               = Some (slash_path (names_to fuel fs cur))).
  { unfold generate_full_path. change (2048 =? 0) with false. cbv iota.
    rewrite full_path_loop_rooted; [by rewrite string_app_nil_r | exact Hr | lia|].
    cbn [String.length]. lia. }
  set (p := if cur =? 0 then "/"%string else slash_path (names_to fuel fs cur)).
  assert (Hp : cmd_pwd fuel cur fs = Some p /\ starts_with_slash p = true /\
               components p = names_to fuel fs cur /\ (String.length p <= 1023)%nat).
  { unfold cmd_pwd, p. rewrite Hg. destruct (Z.eqb_spec cur 0) as [->|Hx].
    - assert (E : names_to fuel fs 0 = []) by (by destruct fuel).
      rewrite E. change (0 =? 0) with true. cbv iota.
      repeat split; try reflexivity. cbn [String.length]. lia.
    - destruct fuel as [|n]; [cbn [rooted] in Hr; by destruct (Z.eqb_spec cur 0)|].
      destruct (rooted_step n fs cur Hx Hr) as (_ & _ & f & _ & _ & _ & _ & En).
      destruct (names_to (S n) fs cur) as [|g rest] eqn:E.
      { by destruct (names_to n fs (inode_rep_parent (inode_at fs cur))). }
      cbn [slash_path]. rewrite !string_app_cons, !string_app_nil_l.
      change (Ascii.eqb "/" "/") with true. cbv iota.
      split; [reflexivity|]. split; [reflexivity|]. split; [exact Hc | exact Hl]. }
  destruct Hp as (Hpwd & Hs & Hcp & Hlp).
  assert (Hget : get_inode_from_path p d fs = Some cur).
  { unfold get_inode_from_path. rewrite walk_path_resolve by lia.
    rewrite strncpy_name_short by exact Hlp. rewrite Hcp.
    destruct p as [|c p']; [done|]. cbn [starts_with_slash] in Hs.
    rewrite Hs, Hin, Hres. reflexivity. }
  assert (Hrg : 0 <= cur < NUM_INODES).
  { destruct (decide (cur = 0)) as [->|Hx]; [unfold NUM_INODES; lia|].
    destruct fuel as [|n]; [cbn [rooted] in Hr; by destruct (Z.eqb_spec cur 0)|].
    by destruct (rooted_step n fs cur Hx Hr) as (? & _). }
  assert (Hch : changerRep p d fs = Some cur).
  { unfold changerRep. rewrite Hget, Hty.
    destruct (Z.eqb_spec cur (-1)); [lia|].
    rewrite (proj2 (in_table_spec cur) Hrg). reflexivity. }
  exists p. repeat split; assumption.
Qed.

Lemma pwd_then_cd_witness :
  exists p,
    cmd_pwd 3 3 (forced_init 0 0) = Some p /\
    p = "/usr/local"%string /\
    get_inode_from_path p 2 (forced_init 0 0) = Some 3 /\
    changerRep p 2 (forced_init 0 0) = Some 3.
Proof.
  destruct (pwd_then_cd 3 3 2 (forced_init 0 0)) as (p & H1 & H2 & H3 & H4).
  - vm_compute. reflexivity.
  - vm_compute. lia.
  - vm_compute. reflexivity.
  - exists p. repeat split; assumption.
Defined.

(** ** The block of a symbolic link *)

Lemma write_string_at_data (b : Z) (s : string) (i : Z) (f : Image) :
  0 <= sizeof_Filesystem + b * BLOCK_SIZE + i ->
  sizeof_Filesystem + b * BLOCK_SIZE + i + Z.of_nat (String.length s) < 2 ^ 64 ->
  let base := sizeof_Filesystem + b * BLOCK_SIZE + i in
  let f' := write_string_at b i s f in
  (forall k c, String.get k s = Some c ->
     data f' !! (base + Z.of_nat k) = Some (Z.of_N (N_of_ascii c))) /\
  data f' !! (base + Z.of_nat (String.length s)) = Some 0 /\
  (forall p, p < base \/ base + Z.of_nat (String.length s) < p ->
     data f' !! p = data f !! p).
Proof.
  revert i f. induction s as [|c s IH]; intros i f H0 H1 base f'.
  - subst f'. cbn [write_string_at String.length String.get] in *.
    unfold fseek_set, fwrite1, to_size_t. fold base.
    rewrite Z.mod_small by (unfold base; lia).
    destruct (Z.ltb_spec base 0); [unfold base in *; lia|]. cbn [data pos].
    split; [by intros k c'; destruct k|]. split.
    + rewrite Z.add_0_r. apply lookup_insert_eq.
    + intros p Hp. apply lookup_insert_ne. lia.
  - cbn [String.length] in H1.
    destruct (IH (i + 1) (fwrite1 (Z.of_N (N_of_ascii c))
                (fseek_set (to_size_t (sizeof_Filesystem + b * BLOCK_SIZE + i)) f))
                ltac:(lia) ltac:(lia)) as (Ha & Hb & Hc).
    assert (Hw : forall p,
      data (fwrite1 (Z.of_N (N_of_ascii c))
              (fseek_set (to_size_t (sizeof_Filesystem + b * BLOCK_SIZE + i)) f)) !! p
      = if decide (p = base) then Some (Z.of_N (N_of_ascii c)) else data f !! p).
    { intros p. unfold fseek_set, fwrite1, to_size_t. fold base.
      rewrite Z.mod_small by (unfold base; lia).
      destruct (Z.ltb_spec base 0); [unfold base in *; lia|]. cbn [data pos].
      destruct (decide (p = base)) as [->|Hne];
        [apply lookup_insert_eq | by apply lookup_insert_ne]. }
    subst f'. cbn [write_string_at String.length]. split; [|split].
    + intros [|k] c' Hg; cbn [String.get] in Hg.
      * inversion Hg; subst c'. rewrite Z.add_0_r, Hc by (unfold base; lia).
        rewrite Hw. by rewrite decide_True.
      * rewrite <- (Ha k c' Hg). f_equal. unfold base. lia.
    + rewrite <- Hb. f_equal. unfold base. lia.
    + intros p Hp. rewrite Hc by (unfold base in *; lia).
      rewrite Hw. rewrite decide_False; [reflexivity | lia].
Qed.

Lemma create_symbolic_link_success now link target parent fs i fs' :
  create_symbolic_link now link target parent fs = Some (i, fs') -> i <> -1 ->
  fst (allocate_block fs) <> -1 /\
  file fs' = write_string_at (fst (allocate_block fs)) 0 target (file fs).
Proof.
  unfold create_symbolic_link.
  destruct (negb _); [intros H; inversion H; lia|].
  destruct (get_inode_from_path target parent fs) as [path_inode|]; [|done].
  destruct (_ =? -1); [intros H; inversion H; lia|].
  destruct (_ =? -1); [intros H; inversion H; lia|].
  destruct (_ =? -1); [intros H; inversion H; lia|].
  assert (Hf : file (snd (allocate_block fs)) = file fs).
  { unfold allocate_block. by destruct (_ =? -1). }
  destruct (allocate_block fs) as [b fs1]. cbn [fst snd] in *.
  destruct (Z.eqb_spec b (-1)) as [|Hb]; [intros H; inversion H; lia|].
  intros H _. apply (inj Some) in H. apply (f_equal snd) in H. cbn [snd] in H. subst fs'.
  split; [exact Hb|]. rewrite <- Hf. reflexivity.
Qed.

(** X24: The block of a new symbolic link holds the target path: after a
    successful [create_symbolic_link], the bytes of the image from the first
    byte of the allocated block on are the characters of the target path,
    then one zero byte, however long the path is; no other byte of the
    image changes. *)
Theorem create_symbolic_link_stores_target (now : Z) (link target : string)
    (parent : Z) (fs : Filesystem) (i : Z) (fs' : Filesystem) :
  create_symbolic_link now link target parent fs = Some (i, fs') -> i <> -1 ->
  Z.of_nat (String.length target) < 2 ^ 32 ->
  let start := block_start (fst (allocate_block fs)) in
  (forall k c, String.get k target = Some c ->
     byte_at (file fs') (start + Z.of_nat k) = Z.of_N (N_of_ascii c)) /\
  byte_at (file fs') (start + Z.of_nat (String.length target)) = 0 /\
  (forall p, p < start \/ start + Z.of_nat (String.length target) < p ->
     byte_at (file fs') p = byte_at (file fs) p).
Proof.
  intros H Hi Hl start.
  destruct (create_symbolic_link_success _ _ _ _ _ _ _ H Hi) as [Hb Hf].
  destruct (allocate_block fs) as [b fs1] eqn:Ea. cbn [fst] in *.
  destruct (allocate_block_spec _ _ _ Ea Hb) as (Hr & _).
  destruct (block_start_valid b Hr) as (Hs & _).
  assert (Hv := sizeof_Filesystem_value).
  destruct (write_string_at_data b target 0 (file fs)) as (Ha & Hz & Hc).
  { unfold NUM_BLOCKS, BLOCK_SIZE in *. lia. }
  { unfold NUM_BLOCKS, BLOCK_SIZE in *. lia. }
  rewrite Z.add_0_r, <- Hs, <- Hf in *. fold start in Ha, Hz, Hc.
  unfold byte_at. split; [|split].
  - intros k c Hg. by rewrite (Ha k c Hg).
  - by rewrite Hz.
  - intros p Hp. by rewrite (Hc p Hp).
Qed.

Lemma create_symbolic_link_stores_target_witness :
  byte_at (file session_sym) (block_start 1 + 0) = 98 /\
  byte_at (file session_sym) (block_start 1 + 1) = 0.
Proof.
  destruct (create_symbolic_link_stores_target 0 "ls" "b" 2 session_ln 5 session_sym)
    as (Ha & Hz & _).
  - vm_compute. reflexivity.
  - lia.
  - vm_compute. reflexivity.
  - split; [exact (Ha 0%nat "b"%char eq_refl) | exact Hz].
Defined.

(** ** init_filesystem *)

(** The checks that [create_file] makes, passed. *)
Lemma create_file_returns now name perms d fs :
  has_permission fs d "w" <> 0 ->
  rechInode name (dir_at fs d) = -1 ->
  first_free_inode (take (Z.to_nat NUM_INODES) (inodes fs)) 0 <> -1 ->
  first_zero (take (Z.to_nat NUM_BLOCKS) (free_blocks fs)) 0 <> -1 ->
  rechEntree fs d <> -1 ->
  fst (create_file now name perms d fs)
  = first_free_inode (take (Z.to_nat NUM_INODES) (inodes fs)) 0.
Proof.
  intros Hw Hn Hi Hb Hk. unfold create_file.
  destruct (Z.eqb_spec (has_permission fs d "w") 0); [done|].
  rewrite Hn. cbn [Z.eqb negb].
  set (i := first_free_inode _ 0) in *.
  destruct (Z.eqb_spec i (-1)); [done|].
  unfold allocate_block.
  change (free_blocks (upd_inode i (set_size 0) fs)) with (free_blocks fs).
  set (b := first_zero _ 0) in *.
  destruct (Z.eqb_spec b (-1)); [done|].
  destruct (Z.eqb_spec b (-1)); [done|].
  change (rechEntree (with_free_blocks (arr_set (free_blocks fs) b 1)
                        (upd_inode i (set_size 0) fs)) d) with (rechEntree fs d).
  destruct (Z.eqb_spec (rechEntree fs d) (-1)); [done | reflexivity].
Qed.

Lemma init_filesystem_root_dir now i0 fs :
  directories fs <> [] ->
  dir_at (init_filesystem now i0 fs) 0
  = replicate (Z.to_nat NUM_DIRECTORY_ENTRIES) (mkEntry EmptyString (-1)).
Proof.
  intros Hd. unfold init_filesystem. rewrite dir_at_upd_inode.
  unfold dir_at. cbn [directories]. apply arr_get_set_eq.
  rewrite length_map. destruct (directories fs); [done|]. cbn [length]. lia.
Qed.

Lemma init_filesystem_inode now i0 fs i :
  1 <= i < NUM_INODES ->
  inode_at (init_filesystem now i0 fs) i
  = mkInode i (-1) (-1) now now [NUL; NUL; NUL]
            (replicate (Z.to_nat NUM_BLOCKS) (-1)) 0 (-1).
Proof.
  intros Hi. unfold init_filesystem. rewrite inode_at_upd_inode_ne by lia.
  unfold inode_at, arr_get. cbn [inodes].
  destruct (Z.ltb_spec i 0); [lia|].
  rewrite list_lookup_fmap.
  assert (E : seqZ 0 NUM_INODES !! Z.to_nat i = Some i).
  { apply lookup_seqZ. lia. }
  rewrite E. reflexivity.
Qed.

(** X25: Formatting.  Whatever the state held before, after [init_filesystem]
    the root directory has no entry (every lookup in it fails), every block
    is free, the image reads as zero bytes, inode 0 is a directory of size 0
    that is its own parent and grants the three permissions, every other
    inode is free, and the first file created in the root gets inode 1. *)
Theorem init_filesystem_formats (now i0 : Z) (fs : Filesystem) :
  well_sized fs = true ->
  let fs' := init_filesystem now i0 fs in
  (forall name, rechInode name (dir_at fs' 0) = -1) /\
  free_blocks fs' = replicate (Z.to_nat NUM_BLOCKS) 0 /\
  (forall p, byte_at (file fs') p = 0) /\
  (type (inode_at fs' 0) = 0 /\ size (inode_at fs' 0) = 0 /\
   inode_rep_parent (inode_at fs' 0) = 0 /\
   has_permission fs' 0 "r" = 1 /\ has_permission fs' 0 "w" = 1 /\
   has_permission fs' 0 "x" = 1) /\
  (forall i, 1 <= i < NUM_INODES ->
     size (inode_at fs' i) = -1 /\ type (inode_at fs' i) = -1 /\
     link_count (inode_at fs' i) = 0) /\
  (forall t name perms, fst (create_file t name perms 0 fs') = 1).
Proof.
  intros Hws fs'.
  destruct (well_sized_spec fs Hws) as (_ & Hd & _).
  assert (Hne : directories fs <> []).
  { intros E. rewrite E in Hd. discriminate Hd. }
  pose proof (init_filesystem_root_dir now i0 fs Hne) as Hroot. fold fs' in Hroot.
  assert (Hlook : forall name, rechInode name (dir_at fs' 0) = -1).
  { intros name. unfold rechInode. rewrite Hroot, take_replicate.
    apply rechInode_from_empty. }
  assert (H0 : inode_at fs' 0
               = mkInode 0 0 0 now now (strncpy 3 "rwx")
                         (replicate (Z.to_nat NUM_BLOCKS) (-1)) 0 0).
  { unfold fs', init_filesystem. rewrite inode_at_upd_inode_eq; [reflexivity|].
    cbn [inodes]. rewrite length_map, length_seqZ. unfold NUM_INODES. lia. }
  assert (Hperm : forall c, has_permission fs' 0 c
                            = if Ascii.eqb c "r" || Ascii.eqb c "w" || Ascii.eqb c "x"
                              then 1 else 0).
  { intros c. unfold has_permission. rewrite H0. cbn [permissions].
    change (strchr (strncpy 3 "rwx") "r") with true.
    change (strchr (strncpy 3 "rwx") "w") with true.
    change (strchr (strncpy 3 "rwx") "x") with true.
    change ((0 <? 0) || (0 >=? NUM_INODES)) with false. cbv iota.
    rewrite !andb_true_r.
    destruct (Ascii.eqb c "r"), (Ascii.eqb c "w"), (Ascii.eqb c "x"); reflexivity. }
  split; [exact Hlook|]. split; [reflexivity|]. split; [intros p; reflexivity|].
  split; [rewrite H0, !Hperm; repeat split; reflexivity|]. split.
  - intros i Hi. unfold fs'. rewrite init_filesystem_inode by exact Hi. done.
  - intros t name perms.
    assert (Hi : first_free_inode (take (Z.to_nat NUM_INODES) (inodes fs')) 0 = 1).
    { vm_compute. reflexivity. }
    assert (Hb : first_zero (take (Z.to_nat NUM_BLOCKS) (free_blocks fs')) 0 = 0).
    { vm_compute. reflexivity. }
    assert (Hk : rechEntree fs' 0 = 0).
    { unfold rechEntree. rewrite Hroot. vm_compute. reflexivity. }
    rewrite create_file_returns; [exact Hi | | apply Hlook | | |].
    + rewrite Hperm. done.
    + rewrite Hi. done.
    + rewrite Hb. done.
    + rewrite Hk. done.
Qed.

Lemma init_filesystem_formats_witness :
  rechInode "usr" (dir_at (init_filesystem 0 0 session_sym) 0) = -1 /\
  fst (create_file 0 "a" "rw-" 0 (init_filesystem 0 0 session_sym)) = 1.
Proof.
  destruct (init_filesystem_formats 0 0 session_sym) as (H1 & _ & _ & _ & _ & H6).
  - vm_compute. reflexivity.
  - split; [apply H1 | apply H6].
Defined.

(** ** The sizes after a write *)

(** Three bytes written on the file of [session_open]: the file (inode 4),
    [/home] (inode 2) and the root grow by 3. *)
Lemma write_file_sizes_witness :
  size (inode_at session_written 4) = size (inode_at session_open 4) + 3 /\
  size (inode_at session_written 2) = size (inode_at session_open 2) + 3 /\
  size (inode_at session_written 0) = size (inode_at session_open 0) + 3.
Proof.
  destruct (write_file_sizes 0 [104; 105; 33] 3 session_open 3 session_written)
    as (_ & H1 & H2).
  - vm_compute. reflexivity.
  - discriminate.
  - split; [|split].
    + apply H1. vm_compute. split; [discriminate | reflexivity].
    + apply H2; [|vm_compute; split; [discriminate | reflexivity]].
      apply (bool_decide_unpack _). vm_compute. exact I.
    + apply H2; [|vm_compute; split; [discriminate | reflexivity]].
      apply (bool_decide_unpack _). vm_compute. exact I.
Defined.

(** ** The open-file table under the stream calls *)

(** A store of a new cursor in the slot [desc]. *)
Lemma upd_open_cursor desc v fs0 fs :
  opened_file fs0 = opened_file fs ->
  let fs' := upd_open desc (fun o => mkOpen (inode o) v) fs0 in
  (forall k, inode (open_at fs' k) = inode (open_at fs k)) /\
  (forall k, k <> desc -> open_at fs' k = open_at fs k) /\
  length (opened_file fs') = length (opened_file fs).
Proof.
  intros Ho fs'.
  assert (E : forall k, open_at fs0 k = open_at fs k).
  { intros k. unfold open_at. by rewrite Ho. }
  split; [|split].
  - intros k. unfold fs'. rewrite open_at_upd_open.
    destruct (decide _) as [[-> _]|_]; cbn [inode]; by rewrite E.
  - intros k Hk. unfold fs'. rewrite open_at_upd_open.
    rewrite decide_False by (intros [? _]; congruence). apply E.
  - unfold fs', upd_open. cbn [opened_file with_opened_file].
    rewrite arr_set_length. by rewrite Ho.
Qed.

Lemma cursor_moved_refl desc fs : cursor_moved desc fs fs.
Proof. unfold cursor_moved. repeat split. Qed.

Lemma cursor_moved_upd_open desc v fs f :
  data f = data (file fs) -> len f = len (file fs) ->
  cursor_moved desc fs (upd_open desc (fun o => mkOpen (inode o) v) (with_file f fs)).
Proof.
  intros Hd Hl.
  destruct (upd_open_cursor desc v (with_file f fs) fs eq_refl) as (H1 & H2 & H3).
  unfold cursor_moved. repeat split; assumption.
Qed.

Lemma read_step_image st :
  data (r_file (read_step st)) = data (r_file st) /\
  len (r_file (read_step st)) = len (r_file st).
Proof.
  unfold read_step, fread1, fseek_set.
  destruct (r_lecteur st <? 0); cbn [pos len data];
    destruct (_ <? _); cbn [r_file data len]; split; reflexivity.
Qed.

Lemma read_loop_image n sz nb st :
  data (r_file (read_loop n sz nb st)) = data (r_file st) /\
  len (r_file (read_loop n sz nb st)) = len (r_file st).
Proof.
  revert st. induction n as [|n IH]; intros st; [split; reflexivity|].
  change (read_loop (S n) sz nb st) with
    (if (r_j st <? sz) && (to_size_t (r_lecteur st) <=? block_end nb)
     then read_loop n sz nb (read_step st) else st).
  destruct (_ && _); [|split; reflexivity].
  destruct (IH (read_step st)) as [-> ->]. apply read_step_image.
Qed.

Lemma read_blocks_image n bl sz bi st :
  data (r_file (snd (read_blocks n bl sz bi st))) = data (r_file st) /\
  len (r_file (snd (read_blocks n bl sz bi st))) = len (r_file st).
Proof.
  revert bi st. induction n as [|n IH]; intros bi st; [split; reflexivity|].
  change (read_blocks (S n) bl sz bi st) with
    (if r_j st <? sz then
       let block_index := bi + 1 in
       let num_block := arr_get (-1) bl block_index in
       if num_block =? -1 then (Erreur, st)
       else
         let st1 := mkR (r_file st) (to_int (block_start num_block))
                        (r_j st) (r_texte st) in
         read_blocks n bl sz block_index
           (read_loop (Z.to_nat (sz - r_j st1)) sz num_block st1)
     else (Done, st)).
  destruct (r_j st <? sz); [|split; reflexivity]. cbv zeta.
  destruct (_ =? -1); [split; reflexivity|].
  match goal with
  | |- context [read_blocks n bl sz ?b ?s] => destruct (IH b s) as [-> ->]
  end.
  exact (read_loop_image _ _ _ (mkR (r_file st) _ (r_j st) (r_texte st))).
Qed.

Lemma seek_file_cursor_moved desc off whence fs :
  cursor_moved desc fs (snd (seek_file desc off whence fs)).
Proof.
  unfold seek_file.
  destruct (bad_descriptor fs desc); [apply cursor_moved_refl|].
  destruct (off <? 0); [apply cursor_moved_refl|].
  destruct (whence =? 0).
  { destruct (seek_blocks _ _ _ _ _) as [rep [l j]]. cbn [snd].
    by apply (cursor_moved_upd_open desc l fs (file fs)). }
  destruct (whence =? 2).
  { destruct (find_block _ _ _ _) as [bi nb].
    destruct (seek_blocks _ _ _ _ _) as [rep [l j]]. cbn [snd].
    by apply (cursor_moved_upd_open desc l fs (file fs)). }
  destruct (whence =? 1); [|apply cursor_moved_refl].
  destruct (seek_blocks _ _ _ _ _) as [rep [l j]]. cbn [snd].
  by apply (cursor_moved_upd_open desc l fs (file fs)).
Qed.

Lemma read_file_cursor_moved desc texte n fs :
  cursor_moved desc fs (snd (read_file desc texte n fs)).
Proof.
  unfold read_file.
  destruct (bad_descriptor fs desc); [apply cursor_moved_refl|].
  destruct (n <? 0); [apply cursor_moved_refl|].
  destruct (_ && _); [apply cursor_moved_refl|].
  destruct (_ =? 0); [apply cursor_moved_refl|].
  destruct (find_block _ _ _ _) as [bi nb].
  destruct (bi =? -1).
  { cbn [snd r_file r_lecteur]. by apply cursor_moved_upd_open. }
  pose proof (read_blocks_image (Z.to_nat NUM_BLOCKS)
                (blocks (inode_at fs (inode (open_at fs desc)))) n bi
                (read_loop (Z.to_nat n) n nb
                   (mkR (file fs) (tete_lecture (open_at fs desc)) 0 texte))) as [Hd Hl].
  pose proof (read_loop_image (Z.to_nat n) n nb
                (mkR (file fs) (tete_lecture (open_at fs desc)) 0 texte)) as [Hd' Hl'].
  destruct (read_blocks _ _ _ _ _) as [rep st]. cbn [snd r_file] in *.
  apply cursor_moved_upd_open; congruence.
Qed.

(** X27: [seek_file] and [read_file] are read-only but for the cursor.
    Whatever they report, every descriptor stays bound to its inode, the
    other slots of the open-file table keep their cursor, and the inode
    table, the directories, the bitmap and the bytes of the image are what
    they were. *)
Theorem read_and_seek_move_only_the_cursor (desc : Z) (fs : Filesystem) :
  (forall off whence, cursor_moved desc fs (snd (seek_file desc off whence fs))) /\
  (forall texte n, cursor_moved desc fs (snd (read_file desc texte n fs))).
Proof.
  split; [intros; apply seek_file_cursor_moved | intros; apply read_file_cursor_moved].
Qed.

Lemma write_blocks_opened n ino texte sz bi st :
  opened_file (w_fs (write_blocks n ino texte sz bi st)) = opened_file (w_fs st).
Proof.
  revert bi st. induction n as [|n IH]; intros bi st; [reflexivity|].
  change (write_blocks (S n) ino texte sz bi st) with
    (if w_j st <? sz then
        let block_index := bi + 1 in
        let nb0 := arr_get (-1) (blocks (inode_at (w_fs st) ino)) block_index in
        let '(num_block, fs1) :=
          if nb0 =? -1 then
            let '(b, fsa) := allocate_block (w_fs st) in
            (b, upd_inode ino (fun n => set_blocks (arr_set (blocks n) block_index b) n) fsa)
          else (nb0, w_fs st) in
        if num_block =? -1
        then mkW fs1 (w_lecteur st) (w_j st) (w_maj st) (w_tmp st)
        else
          let st1 := mkW fs1 (to_int (block_start num_block))
                         (w_j st) (w_maj st) (w_tmp st) in
          write_blocks n ino texte sz block_index
            (write_loop (Z.to_nat (sz - w_j st1)) ino texte sz num_block st1)
      else st).
  destruct (w_j st <? sz); [|reflexivity]. cbv zeta.
  set (nb0 := arr_get (-1) (blocks (inode_at (w_fs st) ino)) (bi + 1)).
  assert (Ha : opened_file (snd (allocate_block (w_fs st))) = opened_file (w_fs st)).
  { unfold allocate_block. by destruct (_ =? -1). }
  destruct (nb0 =? -1).
  - destruct (allocate_block (w_fs st)) as [b fsa]. cbn [snd] in Ha.
    destruct (b =? -1); [exact Ha|].
    rewrite IH.
    match goal with
    | |- context [write_loop ?m ino texte sz ?nb ?s] =>
        destruct (write_loop_same m ino texte sz nb s) as [-> _]
    end.
    exact Ha.
  - destruct (nb0 =? -1); [reflexivity|].
    rewrite IH.
    match goal with
    | |- context [write_loop ?m ino texte sz ?nb ?s] =>
        destruct (write_loop_same m ino texte sz nb s) as [-> _]
    end.
    reflexivity.
Qed.

(** [write_file] moves the cursor of its descriptor and binds no slot to
    another inode. *)
Lemma write_file_slots desc texte n fs r fs' :
  write_file desc texte n fs = Some (r, fs') ->
  (forall k, inode (open_at fs' k) = inode (open_at fs k)) /\
  (forall k, k <> desc -> open_at fs' k = open_at fs k) /\
  length (opened_file fs') = length (opened_file fs).
Proof.
  unfold write_file.
  destruct (bad_descriptor fs desc); [intros H; inversion H; done|].
  destruct (n <? 0); [intros H; inversion H; done|].
  destruct (_ =? 0); [intros H; inversion H; done|].
  destruct (negb _); [intros H; inversion H; done|].
  destruct (find_block _ _ _ _) as [bi nb].
  destruct (bi =? -1); [intros H; inversion H; done|].
  set (st1 := write_loop _ _ _ _ _ _). set (st2 := write_blocks _ _ _ _ _ _).
  destruct (update_parents _ _ _ _) as [fs1|] eqn:Eu; [|done].
  intros H. injection H as _ <-. apply upd_open_cursor.
  destruct (update_parents_same _ _ _ _ _ Eu) as [[-> _] _].
  unfold st2. rewrite write_blocks_opened.
  unfold st1.
  match goal with
  | |- context [write_loop ?m ?i texte n ?nb0 ?s] =>
      destruct (write_loop_same m i texte n nb0 s) as [-> _]
  end.
  reflexivity.
Qed.

(** X28: the command [wfile] leaves no descriptor open.  When it returns,
    every slot of the open-file table holds the inode it held before the
    command: the descriptor it opened is closed again, and no other
    descriptor is closed or bound to another inode. *)
Theorem wfile_leaves_no_descriptor_open (name : string) (whence : Z) (text : string)
    (cur : Z) (fs fs' : Filesystem) :
  wfile name whence text cur fs = Some fs' ->
  forall k, inode (open_at fs' k) = inode (open_at fs k).
Proof.
  unfold wfile. destruct (open_file name cur fs) as [fd fs1] eqn:Eo.
  assert (Hopen : (fd = -1 /\ fs1 = fs) \/
                  (0 <= fd < Z.of_nat (length (opened_file fs)) /\
                   inode (open_at fs fd) = -1 /\
                   rechInode name (dir_at fs cur) <> -1 /\
                   fs1 = upd_open fd
                           (fun _ => mkOpen (rechInode name (dir_at fs cur))
                              (to_int (block_start
                                 (arr_get (-1)
                                    (blocks (inode_at fs (rechInode name (dir_at fs cur)))) 0))))
                           fs)).
  { unfold open_file in Eo.
    destruct (Z.eqb_spec (rechInode name (dir_at fs cur)) (-1)) as [|Hi];
      [left; by inversion Eo|].
    destruct (_ && _); [left; by inversion Eo|].
    set (d := first_free_slot _ 0) in Eo.
    destruct (Z.eqb_spec d (-1)) as [|Hd]; [left; by inversion Eo|].
    right. inversion Eo; subst fd fs1.
    destruct (first_free_slot_spec _ 0 d eq_refl Hd ltac:(lia)) as [Hr (o & Ho & Hfree)].
    rewrite Z.sub_0_r in Ho. apply lookup_take_Some in Ho as [Ho _].
    pose proof (lookup_lt_Some _ _ _ Ho) as Hlt.
    split; [lia|]. split; [|done].
    unfold open_at, arr_get. destruct (Z.ltb_spec d 0); [lia|]. by rewrite Ho. }
  pose proof (seek_file_cursor_moved fd 0 whence fs1) as (S1 & _ & S3 & _).
  set (fs2 := snd (seek_file fd 0 whence fs1)) in *.
  destruct (write_file fd _ _ fs2) as [[r fs3]|] eqn:Ew; [|done].
  destruct (write_file_slots _ _ _ _ _ _ Ew) as (W1 & _ & W3).
  intros H. inversion H; subst fs'. clear H. intros k.
  destruct Hopen as [[-> ->]|(Hr & Hfree & Hi & ->)].
  - unfold close_file, bad_descriptor. change (-1 <? 0) with true.
    rewrite orb_true_r. cbn [orb snd]. by rewrite W1, S1.
  - assert (Hb : inode (open_at fs3 fd) = rechInode name (dir_at fs cur)).
    { rewrite W1, S1, open_at_upd_open_eq by exact Hr. reflexivity. }
    unfold close_file, bad_descriptor. rewrite Hb.
    destruct (Z.eqb_spec (rechInode name (dir_at fs cur)) (-1)); [done|].
    rewrite orb_false_r.
    destruct ((fd >? MAX_FILE_OPEN) || (fd <? 0)) eqn:Eb; cbn [snd].
    + apply orb_true_iff in Eb as [Eb|Eb]; [|apply Z.ltb_lt in Eb; lia].
      rewrite W1, S1, open_at_upd_open.
      destruct (decide _) as [[<- _]|_]; [|reflexivity].
      cbn [inode]. (* the slot was bound by [open_file]: not reached *)
      exfalso. apply Z.gtb_lt in Eb.
      pose proof (first_free_slot_spec
                    (take (Z.to_nat MAX_FILE_OPEN) (opened_file fs)) 0 fd) as Hs.
      unfold open_file in Eo.
      destruct (rechInode name (dir_at fs cur) =? -1); [inversion Eo; lia|].
      destruct (_ && _); [inversion Eo; lia|].
      destruct (Z.eqb_spec (first_free_slot
                  (take (Z.to_nat MAX_FILE_OPEN) (opened_file fs)) 0) (-1));
        [inversion Eo; lia|].
      inversion Eo as [[Hfd Hfs]].
      destruct (Hs Hfd ltac:(lia) ltac:(lia)) as [Hlen _].
      rewrite length_take in Hlen. unfold MAX_FILE_OPEN in *. lia.
    + rewrite open_at_upd_open.
      assert (L3 : length (opened_file fs3) = length (opened_file fs)).
      { rewrite W3, S3. unfold upd_open. cbn [opened_file with_opened_file].
        apply arr_set_length. }
      destruct (decide _) as [[<- _]|Hn].
      * cbn [inode]. by rewrite Hfree.
      * rewrite W1, S1, open_at_upd_open.
        destruct (decide _) as [[-> ?]|_]; [|reflexivity].
        exfalso. apply Hn. split; [reflexivity | lia].
Qed.

Lemma wfile_leaves_no_descriptor_open_witness :
  inode (open_at (default session_touch (wfile "a" 0 "hello" 2 session_touch)) 0)
  = inode (open_at session_touch 0).
Proof.
  apply (wfile_leaves_no_descriptor_open "a" 0 "hello" 2 session_touch).
  vm_compute. reflexivity.
Defined.
